(** * klend-sdk: reserve and obligation calculations

A shallow embedding of the numeric core of [src/classes/reserve.ts]
and [src/classes/obligation.ts], and the properties of it that the
specification states.

Conventions of the embedding.

- [Decimal] stands for a decimal.js value.  Finite values are exact
  rationals ([Qc], canonical fractions, so Leibniz equality is numeric
  equality); the three non-finite values of the library ([Infinity],
  [-Infinity], [NaN]) are kept, because the code relies on them when it
  divides by zero ([valueOrZero]).  The sign of zero is outside the
  model.  [KaminoReserve] and [KaminoObligation] compute on these exact
  values; [Rounded] has the interest calculation of the reserve again
  with what decimal.js does to every result, the rounding to the
  configured number of significant digits.
- [BN] values decoded from unsigned on-chain fields are [N]; JavaScript
  [number]s that hold integers (slots, percentages, basis points, group
  ids) are [Z]; [number]s obtained as ratios of those are exact
  rationals.
- A method that can [throw] returns [Result]. *)

From Stdlib Require Import ZArith NArith QArith Qcanon Lqa List String Ascii Bool Lia
  DecimalString.
Import ListNotations.

Open Scope Z_scope.

(** ** decimal.js values *)

Inductive Decimal : Type :=
| Fin (q : Qc)
| Inf (negative : bool)
| NaN.

Definition Qcltb (a b : Qc) : bool :=
  match (a ?= b)%Qc with Lt => true | _ => false end.

Definition Qcleb (a b : Qc) : bool :=
  match (a ?= b)%Qc with Gt => false | _ => true end.

Definition Qcnegb (a : Qc) : bool := Qcltb a 0%Qc.

Definition Qczerob (a : Qc) : bool := Qc_eq_bool a 0%Qc.

Module Dec.

Definition ofZ (z : Z) : Decimal := Fin (Q2Qc (inject_Z z)).
Definition ofN (n : N) : Decimal := ofZ (Z.of_N n).
Definition ofQ (q : Q) : Decimal := Fin (Q2Qc q).

Definition zero : Decimal := ofZ 0.
Definition one : Decimal := ofZ 1.

Definition isNaN (x : Decimal) : bool :=
  match x with NaN => true | _ => false end.

Definition isFinite (x : Decimal) : bool :=
  match x with Fin _ => true | _ => false end.

Definition isZero (x : Decimal) : bool :=
  match x with Fin q => Qczerob q | _ => false end.

Definition neg (x : Decimal) : Decimal :=
  match x with
  | Fin q => Fin (- q)%Qc
  | Inf s => Inf (negb s)
  | NaN => NaN
  end.

Definition add (x y : Decimal) : Decimal :=
  match x, y with
  | NaN, _ | _, NaN => NaN
  | Fin a, Fin b => Fin (a + b)%Qc
  | Inf s, Fin _ | Fin _, Inf s => Inf s
  | Inf s, Inf s' => if Bool.eqb s s' then Inf s else NaN
  end.

Definition sub (x y : Decimal) : Decimal := add x (neg y).

Definition mul (x y : Decimal) : Decimal :=
  match x, y with
  | NaN, _ | _, NaN => NaN
  | Fin a, Fin b => Fin (a * b)%Qc
  | Inf s, Fin b | Fin b, Inf s =>
      if Qczerob b then NaN else Inf (xorb s (Qcnegb b))
  | Inf s, Inf s' => Inf (xorb s s')
  end.

Definition div (x y : Decimal) : Decimal :=
  match x, y with
  | NaN, _ | _, NaN => NaN
  | Fin a, Fin b =>
      if Qczerob b
      then (if Qczerob a then NaN else Inf (Qcnegb a))
      else Fin (a / b)%Qc
  | Fin _, Inf _ => Fin 0%Qc
  | Inf s, Fin b => Inf (xorb s (Qcnegb b))
  | Inf _, Inf _ => NaN
  end.

(** [x.cmp(y)]: [None] when either side is [NaN]. *)
Definition cmp (x y : Decimal) : option comparison :=
  match x, y with
  | NaN, _ | _, NaN => None
  | Fin a, Fin b => Some (a ?= b)%Qc
  | Fin _, Inf s => Some (if s then Gt else Lt)
  | Inf s, Fin _ => Some (if s then Lt else Gt)
  | Inf s, Inf s' =>
      Some (if Bool.eqb s s' then Eq else if s then Lt else Gt)
  end.

Definition eq (x y : Decimal) : bool :=
  match cmp x y with Some Eq => true | _ => false end.
Definition lt (x y : Decimal) : bool :=
  match cmp x y with Some Lt => true | _ => false end.
Definition gt (x y : Decimal) : bool :=
  match cmp x y with Some Gt => true | _ => false end.
Definition lte (x y : Decimal) : bool :=
  match cmp x y with Some Lt | Some Eq => true | _ => false end.
Definition gte (x y : Decimal) : bool :=
  match cmp x y with Some Gt | Some Eq => true | _ => false end.

(** [Decimal.max(x, y)] and [Decimal.min(x, y)]: the library starts from
    the first argument and replaces it by a later one that is [NaN]
    (and stops) or strictly larger (smaller). *)
Definition max2 (x y : Decimal) : Decimal :=
  if isNaN y then y else if lt x y then y else x.
Definition min2 (x y : Decimal) : Decimal :=
  if isNaN y then y else if gt x y then y else x.

Fixpoint maxOrMin (step : Decimal -> Decimal -> Decimal)
         (x : Decimal) (rest : list Decimal) : Decimal :=
  match rest with
  | [] => x
  | y :: rest' => if isNaN y then y else maxOrMin step (step x y) rest'
  end.

Definition max (args : list Decimal) : Decimal :=
  match args with
  | [] => Inf true
  | x :: rest => maxOrMin max2 x rest
  end.

Definition min (args : list Decimal) : Decimal :=
  match args with
  | [] => Inf false
  | x :: rest => maxOrMin min2 x rest
  end.

(** The same value on both sides ([NaN] included), as a test that computes. *)
Definition same (x y : Decimal) : bool :=
  match x, y with
  | Fin a, Fin b => Qc_eq_bool a b
  | Inf s, Inf s' => Bool.eqb s s'
  | NaN, NaN => true
  | _, _ => false
  end.

(** [x.pow(n)] for a natural exponent, as the product of [n] factors. *)
Fixpoint pow (x : Decimal) (n : nat) : Decimal :=
  match n with
  | O => one
  | S n' => mul x (pow x n')
  end.

End Dec.

Declare Scope dec_scope.
Delimit Scope dec_scope with dec.
Bind Scope dec_scope with Decimal.
Infix "+" := Dec.add : dec_scope.
Infix "-" := Dec.sub : dec_scope.
Infix "*" := Dec.mul : dec_scope.
Infix "/" := Dec.div : dec_scope.
Notation "- x" := (Dec.neg x) : dec_scope.

(** *** [valueOf] and the relational operators of JavaScript

decimal.js gives its objects a [valueOf] that returns a string (the
digits in normal notation, or in exponential notation when the decimal
exponent is at most [toExpNeg] or at least [toExpPos]).  JavaScript's
[<], [>], [<=] and [>=] convert an object with [valueOf], and compare
two strings by code units. *)

Definition digitsOfN (n : N) : string := NilZero.string_of_uint (N.to_uint n).

Fixpoint dropLeadingZeros (s : list ascii) : list ascii :=
  match s with
  | "0"%char :: rest => dropLeadingZeros rest
  | _ => s
  end.

Definition stripTrailingZeros (s : string) : string :=
  string_of_list_ascii
    (rev (dropLeadingZeros (rev (list_ascii_of_string s)))).

Fixpoint getZeroString (k : nat) : string :=
  match k with
  | O => EmptyString
  | S k' => String "0" (getZeroString k')
  end.

(** The number of significant digits a value holds (the test fixtures of
    the repository show 40), and the library's default thresholds for
    exponential notation. *)
Definition precision : nat := 40.
Definition toExpNeg : Z := -7.
Definition toExpPos : Z := 21.

(** The decimal exponent of [n/d], for positive [n] and [d]. *)
Definition exponent10 (n d : N) : Z :=
  let k := Z.of_nat (String.length (digitsOfN n))
           - Z.of_nat (String.length (digitsOfN d)) in
  let reaches :=
    if 0 <=? k then Z.of_N d * 10 ^ k <=? Z.of_N n
    else Z.of_N d <=? Z.of_N n * 10 ^ (- k) in
  if reaches then k else k - 1.

(** The first [precision] significant digits of [n/d], as an integer. *)
Definition coefficient (n d : N) (e : Z) : N :=
  let sh := Z.of_nat precision - 1 - e in
  Z.to_N (if 0 <=? sh then (Z.of_N n * 10 ^ sh) / Z.of_N d
          else Z.of_N n / (Z.of_N d * 10 ^ (- sh))).

Definition finiteToString (n d : N) : string :=
  if (n =? 0)%N then "0"
  else
    let e := exponent10 n d in
    let str := stripTrailingZeros (digitsOfN (coefficient n d e)) in
    let len := String.length str in
    if (e <=? toExpNeg) || (toExpPos <=? e) then
      (if (1 <? len)%nat
       then substring 0 1 str ++ "." ++ substring 1 (len - 1) str
       else str)
      ++ (if e <? 0 then "e-" ++ digitsOfN (Z.to_N (- e))
          else "e+" ++ digitsOfN (Z.to_N e))
    else if e <? 0 then
      "0." ++ getZeroString (Z.to_nat (- e - 1)) ++ str
    else if Z.of_nat len <=? e then
      str ++ getZeroString (Z.to_nat (e + 1) - len)
    else if e + 1 <? Z.of_nat len then
      substring 0 (Z.to_nat (e + 1)) str ++ "."
      ++ substring (Z.to_nat (e + 1)) (len - Z.to_nat (e + 1)) str
    else str.

Definition valueOf (x : Decimal) : string :=
  match x with
  | NaN => "NaN"
  | Inf s => if s then "-Infinity" else "Infinity"
  | Fin q =>
      (if Qnum q <? 0 then "-" else "")
      ++ finiteToString (Z.abs_N (Qnum q)) (Npos (Qden q))
  end.

(** [a < b] on two strings. *)
Fixpoint js_string_lt (a b : string) : bool :=
  match a, b with
  | _, EmptyString => false
  | EmptyString, String _ _ => true
  | String c a', String d b' =>
      if (nat_of_ascii c <? nat_of_ascii d)%nat then true
      else if (nat_of_ascii d <? nat_of_ascii c)%nat then false
      else js_string_lt a' b'
  end.

(** [x >= y] on two [Decimal] objects. *)
Definition js_ge (x y : Decimal) : bool :=
  negb (js_string_lt (valueOf x) (valueOf y)).

(** *** Rounding to the precision

decimal.js rounds the result of [plus], [minus], [times] and [div] to
[precision] significant digits; [new Decimal(v)] keeps every digit of
[v].  The rounding mode belongs to the configuration of the library,
which is not part of the sources at hand.  [roundDown] is the mode that
drops the digits after the [precision]-th (ROUND_DOWN): the total
supply that [reserve_calcs.test.ts] expects of its fixture ends in the
digits the exact sum has at that place, where the default mode
(ROUND_HALF_UP, [roundHalfUp]) would have raised the last one. *)

(** [c * 10^sh]. *)
Definition scaled (c sh : Z) : Qc :=
  Q2Qc (if 0 <=? sh then inject_Z (c * 10 ^ sh)
        else c # Z.to_pos (10 ^ (- sh))).

Definition roundDown (q : Qc) : Qc :=
  let n := Z.abs_N (Qnum q) in
  let d := Npos (Qden q) in
  if (n =? 0)%N then q
  else
    let e := exponent10 n d in
    let c := Z.of_N (coefficient n d e) in
    scaled (Z.sgn (Qnum q) * c) (e - (Z.of_nat precision - 1)).

Definition roundHalfUp (q : Qc) : Qc :=
  let n := Z.abs_N (Qnum q) in
  let d := Npos (Qden q) in
  if (n =? 0)%N then q
  else
    let e := exponent10 n d in
    let withNext := Z.of_N (coefficient (10 * n) d e) in
    let c := if 5 <=? withNext mod 10 then withNext / 10 + 1
             else withNext / 10 in
    scaled (Z.sgn (Qnum q) * c) (e - (Z.of_nat precision - 1)).

(** ** Values decoded from the chain *)

(** An address; [0] is [PublicKey.default], the all-zero key. *)
Definition PublicKey := N.
Bind Scope N_scope with PublicKey.

Definition PublicKey_equals (a b : PublicKey) : bool := N.eqb a b.

(** A method that can [throw]. *)
Inductive Result (A : Type) : Type :=
| Ok (a : A)
| Throw (message : string).
Arguments Ok {A} a.
Arguments Throw {A} message.

(** Calls that can throw, in sequence. *)
Definition Result_bind {A B : Type} (r : Result A) (f : A -> Result B)
  : Result B :=
  match r with
  | Ok a => f a
  | Throw message => Throw message
  end.

Declare Scope result_scope.
Delimit Scope result_scope with result.
Notation "x <- m ;; k" := (Result_bind m (fun x => k))
  (at level 61, m at next level, right associativity) : result_scope.

(** The message of the [TypeError] raised when a property is read from
    [undefined], in the wording of V8. *)
Definition TypeError_undefined (property : string) : string :=
  "Cannot read properties of undefined (reading '" ++ property ++ "')".

(** The message decimal.js raises when an operand is [undefined]. *)
Definition DecimalError_undefined : string :=
  "[DecimalError] Invalid argument: undefined".

(** [array[index]] for an integer index: [undefined] outside the array. *)
Definition element {A : Type} (array : list A) (index : Z) : option A :=
  if index <? 0 then None else nth_error array (Z.to_nat index).

(** [array.filter(test)] and [array.reduce(step)] (no initial value, on an
    array that is not empty) for callbacks that can throw: the first
    throw ends the traversal. *)
Fixpoint filterM {A : Type} (test : A -> Result bool) (array : list A)
  : Result (list A) :=
  match array with
  | [] => Ok []
  | item :: rest =>
      (keep <- test item ;;
       kept <- filterM test rest ;;
       Ok (if keep then item :: kept else kept))%result
  end.

Fixpoint reduceM {A : Type} (step : A -> A -> Result A) (prev : A)
         (rest : list A) : Result A :=
  match rest with
  | [] => Ok prev
  | curr :: rest' => (next <- step prev curr ;; reduceM step next rest')%result
  end.

(** Modelled from the spec: [Fraction] ([./fraction]) is not part of the
    sources at hand.  A scaled fraction is an unsigned integer scaled by
    [2^60]; converting it to a decimal divides the raw integer by the scale
    factor. *)
Definition Fraction_FRACTIONS : N := 60.
Definition Fraction_toDecimal (valueSf : N) : Decimal :=
  (Dec.ofN valueSf / Dec.ofN (2 ^ Fraction_FRACTIONS))%dec.

(** Modelled from the spec: [ONE_HUNDRED_PCT_IN_BPS] ([../utils]) is not
    part of the sources at hand; rates are encoded as basis points, 100%
    being 10000. *)
Definition ONE_HUNDRED_PCT_IN_BPS : Z := 10000.

(** Modelled from the spec: [positiveOrZero] and [valueOrZero] ([./utils])
    are not part of the sources at hand.  The first floors a value at zero;
    the second replaces the result of a division by zero by zero. *)
Definition positiveOrZero (value : Decimal) : Decimal :=
  Dec.max [value; Dec.zero].

Definition valueOrZero (value : Decimal) : Decimal :=
  if Dec.isNaN value || negb (Dec.isFinite value) then Dec.zero else value.

(** ** Reserve state *)

Record CurvePointFields : Type := {
  utilizationRateBps : Z;
  borrowRateBps : Z
}.

Record WithdrawalCaps : Type := {
  configCapacity : N;
  currentTotal : N
}.

Record ReserveConfig : Type := {
  elevationGroups : list Z;
  borrowFactorPct : N;
  borrowLimit : N;
  borrowRateCurve : list CurvePointFields;
  protocolTakeRatePct : Z;
  hostFixedInterestRateBps : Z;
  loanToValuePct : Z;
  liquidationThresholdPct : Z;
  disableUsageAsCollOutsideEmode : Z;
  borrowFeeSf : N;
  debtWithdrawalCap : WithdrawalCaps;
  depositWithdrawalCap : WithdrawalCaps
}.

Record ReserveLiquidity : Type := {
  mintPubkey : PublicKey;
  mintDecimals : N;
  availableAmount : N;
  borrowedAmountSf : N;
  accumulatedProtocolFeesSf : N;
  accumulatedReferrerFeesSf : N;
  pendingReferrerFeesSf : N;
  cumulativeBorrowRateBsf : list N
}.

Record Reserve : Type := {
  liquidity : ReserveLiquidity;
  config : ReserveConfig;
  lastUpdateSlot : N
}.

(** [truncateBorrowCurve]: the loop pushes the point and then leaves at the
    first point at 100% utilization. *)
Definition curvePoint (p : CurvePointFields) : Qc * Qc :=
  (Q2Qc (utilizationRateBps p # 1) / Q2Qc (ONE_HUNDRED_PCT_IN_BPS # 1),
   Q2Qc (borrowRateBps p # 1) / Q2Qc (ONE_HUNDRED_PCT_IN_BPS # 1))%Qc.

Fixpoint truncateBorrowCurve (points : list CurvePointFields)
  : list (Qc * Qc) :=
  match points with
  | [] => []
  | p :: rest =>
      curvePoint p ::
      (if utilizationRateBps p =? ONE_HUNDRED_PCT_IN_BPS
       then []
       else truncateBorrowCurve rest)
  end.

(** [array.includes(x)] on numbers. *)
Definition includes (l : list Z) (x : Z) : bool := existsb (Z.eqb x) l.

(** ** Elevation groups of the market *)

(** An entry of [market.state.elevationGroups], by the fields the code
    reads. *)
Module ElevationGroupFields.

Record t : Type := {
  id : Z;
  ltvPct : Z;
  liquidationThresholdPct : Z;
  debtReserve : PublicKey
}.

End ElevationGroupFields.

(** ** Reserve *)

Module KaminoReserve.

Record t : Type := {
  state : Reserve;
  address : PublicKey;
  tokenOraclePrice : Decimal
}.

(** The cached [stats] of a reserve are [formatReserveData(state)], set by
    [initialize] and again by [load] whenever the state is replaced; the
    fields read by the obligation are given as functions of the state. *)
Definition stats_reserveBorrowLimit (r : t) : Decimal :=
  Dec.ofN (borrowLimit (config (state r))).

Definition stats_borrowFactor (r : t) : Decimal :=
  Dec.ofN (borrowFactorPct (config (state r))).

Definition stats_loanToValuePct (r : t) : Qc :=
  (Q2Qc (inject_Z (loanToValuePct (config (state r)))) / Q2Qc (inject_Z 100))%Qc.

Definition stats_liquidationThreshold (r : t) : Qc :=
  (Q2Qc (inject_Z (liquidationThresholdPct (config (state r))))
   / Q2Qc (inject_Z 100))%Qc.

Definition stats_decimals (r : t) : N :=
  mintDecimals (liquidity (state r)).

(** *** Getters *)

Definition getBorrowedAmount (r : t) : Decimal :=
  Fraction_toDecimal (borrowedAmountSf (liquidity (state r))).

Definition getLiquidityAvailableAmount (r : t) : Decimal :=
  Dec.ofN (availableAmount (liquidity (state r))).

Definition getOracleMarketPrice (r : t) : Decimal :=
  tokenOraclePrice r.

Definition getAccumulatedProtocolFees (r : t) : Decimal :=
  Fraction_toDecimal (accumulatedProtocolFeesSf (liquidity (state r))).

Definition getAccumulatedReferrerFees (r : t) : Decimal :=
  Fraction_toDecimal (accumulatedReferrerFeesSf (liquidity (state r))).

Definition getPendingReferrerFees (r : t) : Decimal :=
  Fraction_toDecimal (pendingReferrerFeesSf (liquidity (state r))).

Definition getBorrowFee (r : t) : Decimal :=
  Fraction_toDecimal (borrowFeeSf (config (state r))).

Definition getFixedHostInterestRate (r : t) : Decimal :=
  (Dec.ofZ (hostFixedInterestRateBps (config (state r))) / Dec.ofZ 10000)%dec.

Definition getTotalSupply (r : t) : Decimal :=
  (getLiquidityAvailableAmount r
   + getBorrowedAmount r
   - getAccumulatedProtocolFees r
   - getAccumulatedReferrerFees r
   - getPendingReferrerFees r)%dec.

(** [getCumulativeBorrowRate]: the limbs are copied before they are
    reversed, and every step adds a limb to the accumulator and shifts the
    accumulator right by 64 bits, in place.  The second component is the
    limb array the reserve holds after the call. *)
Definition getCumulativeBorrowRate (r : t)
  : Decimal * list N :=
  let stored := cumulativeBorrowRateBsf (liquidity (state r)) in
  let rates := rev stored in
  let accSf := fold_left (fun prev curr => N.shiftr (prev + curr) 64) rates 0%N in
  (Fraction_toDecimal accSf, stored).

Definition getMintFactor (r : t) : Decimal :=
  Dec.pow (Dec.ofZ 10) (N.to_nat (mintDecimals (liquidity (state r)))).

Definition getDepositWithdrawalCapCapacity (r : t) : Decimal :=
  Dec.ofN (configCapacity (depositWithdrawalCap (config (state r)))).

Definition getDebtWithdrawalCapCapacity (r : t) : Decimal :=
  Dec.ofN (configCapacity (debtWithdrawalCap (config (state r)))).

Definition getBorrowFactor (r : t) : Decimal :=
  (Dec.ofN (borrowFactorPct (config (state r))) / Dec.ofZ 100)%dec.

Definition getLiquidityMint (r : t) : PublicKey :=
  mintPubkey (liquidity (state r)).

(** *** The rest of the account *)

(** A reserve together with the fields of its decoded state that the
    getters above do not read: [collateral.mintTotalSupply], and of
    [config] the deposit limit, the utilization limit and the limits in
    and outside elevation groups, with the amounts borrowed against
    them. *)
Record account : Type := {
  reserve :> t;
  mintTotalSupply : N;
  depositLimit : N;
  utilizationLimitBlockBorrowingAbove : Z;
  borrowLimitOutsideElevationGroup : N;
  borrowedAmountOutsideElevationGroup : N;
  borrowLimitAgainstThisCollateralInElevationGroup : list N;
  borrowedAmountsAgainstThisReserveInElevationGroups : list N
}.

Definition getDepositTvl (r : t) : Decimal :=
  (getTotalSupply r * getOracleMarketPrice r / getMintFactor r)%dec.

Definition getBorrowTvl (r : t) : Decimal :=
  (getBorrowedAmount r * getOracleMarketPrice r / getMintFactor r)%dec.

Definition depositLimitCrossed (r : account) : bool :=
  Dec.gt (getTotalSupply r) (Dec.ofN (depositLimit r)).

Definition borrowLimitCrossed (r : t) : bool :=
  Dec.gt (getBorrowedAmount r) (Dec.ofN (borrowLimit (config (state r)))).

Definition getBorrowLimitOutsideElevationGroup (r : account) : Decimal :=
  Dec.ofN (borrowLimitOutsideElevationGroup r).

Definition getBorrowedAmountOutsideElevationGroup (r : account) : Decimal :=
  Dec.ofN (borrowedAmountOutsideElevationGroup r).

Definition getBorrowLimitAgainstCollateralInElevationGroup
           (r : account) (elevationGroupIndex : Z) : Result Decimal :=
  match element (borrowLimitAgainstThisCollateralInElevationGroup r)
                elevationGroupIndex with
  | Some limit => Ok (Dec.ofN limit)
  | None => Throw (TypeError_undefined "toString")
  end.

Definition getBorrowedAmountAgainstCollateralInElevationGroup
           (r : account) (elevationGroupIndex : Z) : Result Decimal :=
  match element (borrowedAmountsAgainstThisReserveInElevationGroups r)
                elevationGroupIndex with
  | Some borrowed => Ok (Dec.ofN borrowed)
  | None => Throw (TypeError_undefined "toString")
  end.

(** [calculateUtilizationRatio]: the ratio before [toNumber] rounds it to
    a double. *)
Definition calculateUtilizationRatio (r : t) : Decimal :=
  let totalBorrows := getBorrowedAmount r in
  let totalSupply := getTotalSupply r in
  if Dec.eq totalSupply (Dec.ofZ 0) then Dec.ofZ 0
  else (totalBorrows / totalSupply)%dec.

(** *** Compounding *)

Section Compounding.

(** [SLOTS_PER_YEAR] and [SLOTS_PER_DAY] are imported from [../utils],
    which is not part of the sources at hand: they stay parameters. *)
Variable SLOTS_PER_YEAR : Z.
Variable SLOTS_PER_DAY : Z.

(** [calculateBorrowAPR] goes through [getBorrowRate] ([./utils], not part
    of the sources at hand) and floating-point arithmetic; the value it
    yields for a reserve stays a parameter. *)
Variable calculateBorrowAPR : t -> Decimal.

(** [KaminoReserve.approximateCompoundedInterest]. *)
Definition approximateCompoundedInterest
           (rate : Decimal) (elapsedSlots : Z) : Decimal :=
  let base := (rate / Dec.ofZ SLOTS_PER_YEAR)%dec in
  match elapsedSlots with
  | 0 => Dec.ofZ 1
  | 1 => (base + Dec.ofZ 1)%dec
  | 2 => ((base + Dec.ofZ 1) * (base + Dec.ofZ 1))%dec
  | 3 => ((base + Dec.ofZ 1) * (base + Dec.ofZ 1) * (base + Dec.ofZ 1))%dec
  | 4 =>
      let pow2 := ((base + Dec.ofZ 1) * (base + Dec.ofZ 1))%dec in
      (pow2 * pow2)%dec
  | _ =>
      let exp := elapsedSlots in
      let expMinus1 := exp - 1 in
      let expMinus2 := exp - 2 in
      let basePow2 := (base * base)%dec in
      let basePow3 := (basePow2 * base)%dec in
      let firstTerm := (base * Dec.ofZ exp)%dec in
      let secondTerm :=
        (basePow2 * Dec.ofZ exp * Dec.ofZ expMinus1 / Dec.ofZ 2)%dec in
      let thirdTerm :=
        (basePow3 * Dec.ofZ exp * Dec.ofZ expMinus1 * Dec.ofZ expMinus2
         / Dec.ofZ 6)%dec in
      (Dec.ofZ 1 + firstTerm + secondTerm + thirdTerm)%dec
  end.

Record CompoundInterest : Type := {
  newDebt : Decimal;
  netNewDebt : Decimal;
  variableProtocolFee : Decimal;
  fixedHostFee : Decimal;
  absoluteReferralFee : Decimal;
  maxReferralFees : Decimal;
  newAccProtocolFees : Decimal;
  pendingReferralFees : Decimal
}.

(** [KaminoReserve.compoundInterest]. *)
Definition compoundInterest (r : t)
           (slotsElapsed : Z) (referralFeeBps : Z) : CompoundInterest :=
  let currentBorrowRate := calculateBorrowAPR r in
  let protocolTakeRate :=
    (Dec.ofZ (protocolTakeRatePct (config (state r))) / Dec.ofZ 100)%dec in
  let referralRate := (Dec.ofZ referralFeeBps / Dec.ofZ 10000)%dec in
  let fixedHostInterestRate := getFixedHostInterestRate r in
  let compoundedInterestRate :=
    approximateCompoundedInterest
      (currentBorrowRate + fixedHostInterestRate)%dec slotsElapsed in
  let compoundedFixedRate :=
    approximateCompoundedInterest fixedHostInterestRate slotsElapsed in
  let previousDebt := getBorrowedAmount r in
  let newDebt := (previousDebt * compoundedInterestRate)%dec in
  let fixedHostFee := (previousDebt * compoundedFixedRate - previousDebt)%dec in
  let netNewDebt := (newDebt - previousDebt - fixedHostFee)%dec in
  let variableProtocolFee := (netNewDebt * protocolTakeRate)%dec in
  let absoluteReferralFee := (protocolTakeRate * referralRate)%dec in
  let maxReferralFees := (netNewDebt * absoluteReferralFee)%dec in
  let newAccProtocolFees :=
    (variableProtocolFee + fixedHostFee - maxReferralFees
     + getAccumulatedProtocolFees r)%dec in
  let pendingReferralFees := (getPendingReferrerFees r + maxReferralFees)%dec in
  {| newDebt := newDebt;
     netNewDebt := netNewDebt;
     variableProtocolFee := variableProtocolFee;
     fixedHostFee := fixedHostFee;
     absoluteReferralFee := absoluteReferralFee;
     maxReferralFees := maxReferralFees;
     newAccProtocolFees := newAccProtocolFees;
     pendingReferralFees := pendingReferralFees |}.

(** [Math.max(slot - lastUpdate.slot, 0)]. *)
Definition slotsElapsedSince (r : t) (slot : Z) : Z :=
  Z.max (slot - Z.of_N (lastUpdateSlot (state r))) 0.

(** [KaminoReserve.getEstimatedDebtAndSupply]: [(totalBorrow, totalSupply)]. *)
Definition getEstimatedDebtAndSupply (r : t)
           (slot : Z) (referralFeeBps : Z) : Decimal * Decimal :=
  let slotsElapsed := slotsElapsedSince r slot in
  if slotsElapsed =? 0 then
    (getBorrowedAmount r, getTotalSupply r)
  else
    let ci := compoundInterest r slotsElapsed referralFeeBps in
    let newTotalSupply :=
      (getLiquidityAvailableAmount r
       + newDebt ci
       - newAccProtocolFees ci
       - getAccumulatedReferrerFees r
       - pendingReferralFees ci)%dec in
    (newDebt ci, newTotalSupply).

Definition getEstimatedTotalSupply (r : t)
           (slot : Z) (referralFeeBps : Z) : Decimal :=
  snd (getEstimatedDebtAndSupply r slot referralFeeBps).

Definition getDepositWithdrawalCapCurrent (r : t) (slot : Z)
  : Decimal :=
  let slotsElapsed := slotsElapsedSince r slot in
  if SLOTS_PER_DAY <? slotsElapsed then Dec.ofZ 0
  else Dec.ofN (currentTotal (depositWithdrawalCap (config (state r)))).

Definition getDebtWithdrawalCapCurrent (r : t) (slot : Z)
  : Decimal :=
  let slotsElapsed := slotsElapsedSince r slot in
  if SLOTS_PER_DAY <? slotsElapsed then Dec.ofZ 0
  else Dec.ofN (currentTotal (debtWithdrawalCap (config (state r)))).

(** [INITIAL_COLLATERAL_RATE] and [U64_MAX] are imported from [../utils]
    as well: the first stays the decimal it is, the second the number its
    string of digits denotes. *)
Variable INITIAL_COLLATERAL_RATE : Decimal.
Variable U64_MAX : N.

(** [getEstimatedCumulativeBorrowRate]. *)
Definition getEstimatedCumulativeBorrowRate (r : t) (currentSlot : Z)
  : Decimal :=
  let currentBorrowRate := calculateBorrowAPR r in
  let slotsElapsed := slotsElapsedSince r currentSlot in
  let compoundInterest :=
    approximateCompoundedInterest currentBorrowRate slotsElapsed in
  let previousCumulativeBorrowRate := fst (getCumulativeBorrowRate r) in
  (previousCumulativeBorrowRate * compoundInterest)%dec.

(** [getCollateralExchangeRate] and [getEstimatedCollateralExchangeRate]. *)
Definition getCollateralExchangeRate (r : account) : Decimal :=
  let totalSupply := getTotalSupply r in
  let mintTotalSupply := mintTotalSupply r in
  if (mintTotalSupply =? 0)%N || Dec.isZero totalSupply
  then INITIAL_COLLATERAL_RATE
  else (Dec.ofN mintTotalSupply / totalSupply)%dec.

Definition getEstimatedCollateralExchangeRate
           (r : account) (slot : Z) (referralFeeBps : Z) : Decimal :=
  let totalSupply := getEstimatedTotalSupply r slot referralFeeBps in
  let mintTotalSupply := mintTotalSupply r in
  if (mintTotalSupply =? 0)%N || Dec.isZero totalSupply
  then INITIAL_COLLATERAL_RATE
  else (Dec.ofN mintTotalSupply / totalSupply)%dec.

Record EstimatedProtocolFees : Type := {
  accumulatedProtocolFees : Decimal;
  compoundedVariableProtocolFee : Decimal;
  compoundedFixedHostFee : Decimal
}.

(** [getEstimatedAccumulatedProtocolFees]. *)
Definition getEstimatedAccumulatedProtocolFees
           (r : t) (slot : Z) (referralFeeBps : Z) : EstimatedProtocolFees :=
  let slotsElapsed := slotsElapsedSince r slot in
  if slotsElapsed =? 0 then
    {| accumulatedProtocolFees := getAccumulatedProtocolFees r;
       compoundedVariableProtocolFee := Dec.ofZ 0;
       compoundedFixedHostFee := Dec.ofZ 0 |}
  else
    let ci := compoundInterest r slotsElapsed referralFeeBps in
    {| accumulatedProtocolFees := newAccProtocolFees ci;
       compoundedVariableProtocolFee := variableProtocolFee ci;
       compoundedFixedHostFee := fixedHostFee ci |}.

(** An operand that may have been left out: decimal.js throws on
    [undefined]. *)
Definition operand (value : option Decimal) : Result Decimal :=
  match value with
  | Some d => Ok d
  | None => Throw DecimalError_undefined
  end.

(** [calcSimulatedUtilizationRatio]: the ratio before [toNumber] rounds it
    to a double. *)
Definition calcSimulatedUtilizationRatio
           (r : t) (amount : Decimal) (action : string)
           (slot : Z) (referralFeeBps : Z) (outflowAmount : option Decimal)
  : Result Decimal :=
  let estimate := getEstimatedDebtAndSupply r slot referralFeeBps in
  let previousTotalBorrowed := fst estimate in
  let previousTotalSupply := snd estimate in
  if String.eqb action "deposit" then
    let newTotalSupply := (previousTotalSupply + amount)%dec in
    Ok (previousTotalBorrowed / newTotalSupply)%dec
  else if String.eqb action "withdraw" then
    let newTotalSupply := (previousTotalSupply - amount)%dec in
    if Dec.eq newTotalSupply (Dec.ofZ 0) then Ok (Dec.ofZ 0)
    else Ok (previousTotalBorrowed / newTotalSupply)%dec
  else if String.eqb action "borrow" then
    let newTotalBorrowed := (previousTotalBorrowed + amount)%dec in
    Ok (newTotalBorrowed / previousTotalSupply)%dec
  else if String.eqb action "repay" then
    let newTotalBorrowed := (previousTotalBorrowed - amount)%dec in
    Ok (newTotalBorrowed / previousTotalSupply)%dec
  else if String.eqb action "depositAndBorrow" then
    let newTotalSupply := (previousTotalSupply + amount)%dec in
    (outflow <- operand outflowAmount ;;
     let newTotalBorrowed := (previousTotalBorrowed + outflow)%dec in
     Ok (newTotalBorrowed / newTotalSupply)%dec)%result
  else if String.eqb action "repayAndWithdraw" then
    let newTotalBorrowed := (previousTotalBorrowed - amount)%dec in
    (outflow <- operand outflowAmount ;;
     let newTotalSupply := (previousTotalSupply - outflow)%dec in
     if Dec.eq newTotalSupply (Dec.ofZ 0) then Ok (Dec.ofZ 0)
     else Ok (newTotalBorrowed / newTotalSupply)%dec)%result
  else if String.eqb action "mint" then
    let newTotalSupply := (previousTotalSupply + amount)%dec in
    Ok (previousTotalBorrowed / newTotalSupply)%dec
  else if String.eqb action "redeem" then
    let newTotalSupply := (previousTotalSupply - amount)%dec in
    Ok (previousTotalBorrowed / newTotalSupply)%dec
  else Throw ("Invalid action type " ++ action
              ++ " for simulatedUtilizationRatio").

(** [getMaxBorrowAmountWithCollReserve]; of the market it reads
    [state.elevationGroups] only. *)
Definition getMaxBorrowAmountWithCollReserve
           (this : account) (groups : list ElevationGroupFields.t)
           (collReserve : t) (slot : Z) : Result Decimal :=
  let groupsColl := elevationGroups (config (state collReserve)) in
  let groupsDebt := elevationGroups (config (state this)) in
  (commonElevationGroups <-
     filterM
       (fun item =>
          if includes groupsDebt item && negb (item =? 0) then
            match element groups (item - 1) with
            | Some group =>
                Ok (PublicKey_equals (ElevationGroupFields.debtReserve group)
                                     (address this))
            | None => Throw (TypeError_undefined "debtReserve")
            end
          else Ok false)
       groupsColl ;;
   eModeGroup <-
     match commonElevationGroups with
     | [] => Ok 0
     | first :: rest =>
         eModeGroupWithMaxLtvAndDebtReserve <-
           reduceM
             (fun prev curr =>
                let prevGroup :=
                  find (fun group => ElevationGroupFields.id group =? prev) groups in
                let currGroup :=
                  find (fun group => ElevationGroupFields.id group =? curr) groups in
                match prevGroup, currGroup with
                | Some prevGroup, Some currGroup =>
                    Ok (if ElevationGroupFields.ltvPct currGroup
                           <? ElevationGroupFields.ltvPct prevGroup
                        then prev else curr)
                | _, _ => Throw (TypeError_undefined "ltvPct")
                end)
             first rest ;;
         match find (fun group =>
                       ElevationGroupFields.id group
                       =? eModeGroupWithMaxLtvAndDebtReserve) groups with
         | Some group => Ok (ElevationGroupFields.id group)
         | None => Throw (TypeError_undefined "id")
         end
     end ;;
   let elevationGroupActivated :=
     includes (elevationGroups (config (state this))) eModeGroup
     && negb (eModeGroup =? 0) in
   let reserveAvailableAmount := getLiquidityAvailableAmount this in
   let reserveBorrowCapRemained :=
     (stats_reserveBorrowLimit this - getBorrowedAmount this)%dec in
   let maxBorrowAmount :=
     Dec.min [reserveAvailableAmount; reserveBorrowCapRemained] in
   let debtWithdrawalCap :=
     (getDebtWithdrawalCapCapacity this
      - getDebtWithdrawalCapCurrent this slot)%dec in
   let maxBorrowAmount :=
     if Dec.gt (getDebtWithdrawalCapCapacity this) (Dec.ofZ 0)
     then Dec.min [maxBorrowAmount; debtWithdrawalCap]
     else maxBorrowAmount in
   let originationFeeRate := getBorrowFee this in
   let originationFeeRate :=
     (originationFeeRate / (originationFeeRate + Dec.ofZ 1))%dec in
   let borrowFee := (maxBorrowAmount * originationFeeRate)%dec in
   let maxBorrowAmount := (maxBorrowAmount - borrowFee)%dec in
   let utilizationRatioLimit :=
     (Q2Qc (inject_Z (utilizationLimitBlockBorrowingAbove this))
      / Q2Qc (inject_Z 100))%Qc in
   let currentUtilizationRatio := calculateUtilizationRatio this in
   if Qcltb 0 utilizationRatioLimit
      && Dec.gt currentUtilizationRatio (Fin utilizationRatioLimit)
   then Ok (Dec.ofZ 0)
   else
     let maxBorrowAmount :=
       if Qcltb 0 utilizationRatioLimit
          && Dec.lt currentUtilizationRatio (Fin utilizationRatioLimit)
       then
         let maxBorrowBasedOnUtilization :=
           ((Fin utilizationRatioLimit - currentUtilizationRatio)
            * getTotalSupply this)%dec in
         Dec.min [maxBorrowAmount; maxBorrowBasedOnUtilization]
       else maxBorrowAmount in
     borrowLimitDependentOnElevationGroup <-
       (if negb elevationGroupActivated then
          Ok (getBorrowLimitOutsideElevationGroup this
              - getBorrowedAmountOutsideElevationGroup this)%dec
        else
          let maxDebtTakenAgainstCollaterals := Dec.ofN U64_MAX in
          limit <- getBorrowLimitAgainstCollateralInElevationGroup
                     this (eModeGroup - 1) ;;
          borrowed <- getBorrowedAmountAgainstCollateralInElevationGroup
                        this (eModeGroup - 1) ;;
          let maxDebtAllowedAgainstCollateral := (limit - borrowed)%dec in
          let maxDebtTakenAgainstCollaterals :=
            Dec.max [Dec.ofZ 0;
                     Dec.min [maxDebtAllowedAgainstCollateral;
                              maxDebtTakenAgainstCollaterals]] in
          Ok maxDebtTakenAgainstCollaterals) ;;
     let maxBorrowAmount :=
       Dec.min [maxBorrowAmount; borrowLimitDependentOnElevationGroup] in
     Ok (Dec.max [Dec.ofZ 0; maxBorrowAmount]))%result.

End Compounding.

End KaminoReserve.

Coercion KaminoReserve.reserve : KaminoReserve.account >-> KaminoReserve.t.

(** ** The reserve with the rounding and the errors of its libraries

[KaminoReserve] above computes with exact decimals and takes the borrow
rate of a reserve as a given decimal.  [Rounded] has the interest
calculation of [src/classes/reserve.ts] again with what that leaves out:
every operation of decimal.js rounds its result, and
[calculateBorrowAPR] goes through JavaScript numbers and through
[getBorrowRate], which can throw. *)

Module Rounded.

(** *** Arithmetic *)

Section Arithmetic.

(** The rounding of a finite result to the configured precision. *)
Variable round : Qc -> Qc.

Definition finalise (x : Decimal) : Decimal :=
  match x with
  | Fin q => Fin (round q)
  | _ => x
  end.

Definition add (x y : Decimal) : Decimal := finalise (Dec.add x y).
Definition sub (x y : Decimal) : Decimal := finalise (Dec.sub x y).
Definition mul (x y : Decimal) : Decimal := finalise (Dec.mul x y).
Definition div (x y : Decimal) : Decimal := finalise (Dec.div x y).

End Arithmetic.

(** JavaScript numbers are doubles.  Doubles are not modelled: the type
    of numbers, the number an integer literal or an integer field
    denotes, the product and the quotient of two numbers, [Decimal.toNumber] and
    [new Decimal(number)] are the fields of an interpretation. *)
Record Numbers : Type := {
  number : Type;
  ofInteger : Z -> number;
  times : number -> number -> number;
  over : number -> number -> number;
  toNumber : Decimal -> number;
  ofNumber : number -> Decimal
}.

(** *** Reserve *)

Section Reserve.

Variable round : Qc -> Qc.
Variable js : Numbers.

(** The rounded operations, infix. *)
Local Notation "x [+] y" := (add round x y) (at level 50, left associativity).
Local Notation "x [-] y" := (sub round x y) (at level 50, left associativity).
Local Notation "x [*] y" := (mul round x y) (at level 40, left associativity).
Local Notation "x [/] y" := (div round x y) (at level 40, left associativity).

(** [SLOTS_PER_YEAR] and [SLOTS_PER_SECOND] are imported from [../utils],
    [Fraction] from [./fraction] and [getBorrowRate] from [./utils]; none
    of them is part of the sources at hand.  The first two stay the
    integers they are, [Fraction.toDecimal] a function of the raw scaled
    integer, and [getBorrowRate] a function of the utilization and the
    curve that returns a number or throws. *)
Variable SLOTS_PER_YEAR : Z.
Variable SLOTS_PER_SECOND : Z.
Variable Fraction_toDecimal : N -> Decimal.
Variable getBorrowRate :
  number js -> list (number js * number js) -> Result (number js).

(** A [KaminoReserve] object: the fields of [KaminoReserve.t], and the
    slot duration the constructor is given. *)
Record t : Type := {
  reserve :> KaminoReserve.t;
  recentSlotDurationMs : number js
}.

Definition getBorrowedAmount (r : t) : Decimal :=
  Fraction_toDecimal (borrowedAmountSf (liquidity (KaminoReserve.state r))).

Definition getLiquidityAvailableAmount (r : t) : Decimal :=
  Dec.ofN (availableAmount (liquidity (KaminoReserve.state r))).

Definition getAccumulatedProtocolFees (r : t) : Decimal :=
  Fraction_toDecimal
    (accumulatedProtocolFeesSf (liquidity (KaminoReserve.state r))).

Definition getAccumulatedReferrerFees (r : t) : Decimal :=
  Fraction_toDecimal
    (accumulatedReferrerFeesSf (liquidity (KaminoReserve.state r))).

Definition getPendingReferrerFees (r : t) : Decimal :=
  Fraction_toDecimal (pendingReferrerFeesSf (liquidity (KaminoReserve.state r))).

Definition getFixedHostInterestRate (r : t) : Decimal :=
  (Dec.ofZ (hostFixedInterestRateBps (config (KaminoReserve.state r)))
   [/] Dec.ofZ 10000).

Definition getTotalSupply (r : t) : Decimal :=
  (getLiquidityAvailableAmount r
   [+] getBorrowedAmount r
   [-] getAccumulatedProtocolFees r
   [-] getAccumulatedReferrerFees r
   [-] getPendingReferrerFees r).

(** [calculateUtilizationRatio]. *)
Definition calculateUtilizationRatio (r : t) : number js :=
  let totalBorrows := getBorrowedAmount r in
  let totalSupply := getTotalSupply r in
  if Dec.eq totalSupply (Dec.ofZ 0) then ofInteger js 0
  else toNumber js (totalBorrows [/] totalSupply).

(** [truncateBorrowCurve]: the loop pushes the point and then leaves at
    the first point at 100% utilization. *)
Fixpoint truncateBorrowCurve (points : list CurvePointFields)
  : list (number js * number js) :=
  match points with
  | [] => []
  | p :: rest =>
      (over js (ofInteger js (utilizationRateBps p))
               (ofInteger js ONE_HUNDRED_PCT_IN_BPS),
       over js (ofInteger js (borrowRateBps p))
               (ofInteger js ONE_HUNDRED_PCT_IN_BPS)) ::
      (if utilizationRateBps p =? ONE_HUNDRED_PCT_IN_BPS
       then []
       else truncateBorrowCurve rest)
  end.

(** [slotAdjustmentFactor] and [calculateBorrowAPR]. *)
Definition slotAdjustmentFactor (r : t) : number js :=
  over js (over js (ofInteger js 1000) (ofInteger js SLOTS_PER_SECOND))
       (recentSlotDurationMs r).

Definition calculateBorrowAPR (r : t) : Result (number js) :=
  let slotAdjustmentFactor := slotAdjustmentFactor r in
  let currentUtilization := calculateUtilizationRatio r in
  let curve :=
    truncateBorrowCurve (borrowRateCurve (config (KaminoReserve.state r))) in
  (rate <- getBorrowRate currentUtilization curve ;;
   Ok (times js rate slotAdjustmentFactor))%result.

(** [approximateCompoundedInterest]. *)
Definition approximateCompoundedInterest
           (rate : Decimal) (elapsedSlots : Z) : Decimal :=
  let base := (rate [/] Dec.ofZ SLOTS_PER_YEAR) in
  match elapsedSlots with
  | 0 => Dec.ofZ 1
  | 1 => (base [+] Dec.ofZ 1)
  | 2 => ((base [+] Dec.ofZ 1) [*] (base [+] Dec.ofZ 1))
  | 3 =>
      ((base [+] Dec.ofZ 1) [*] (base [+] Dec.ofZ 1) [*] (base [+] Dec.ofZ 1))
  | 4 =>
      let pow2 := ((base [+] Dec.ofZ 1) [*] (base [+] Dec.ofZ 1)) in
      (pow2 [*] pow2)
  | _ =>
      let exp := elapsedSlots in
      let expMinus1 := exp - 1 in
      let expMinus2 := exp - 2 in
      let basePow2 := (base [*] base) in
      let basePow3 := (basePow2 [*] base) in
      let firstTerm := (base [*] Dec.ofZ exp) in
      let secondTerm :=
        (basePow2 [*] Dec.ofZ exp [*] Dec.ofZ expMinus1 [/] Dec.ofZ 2) in
      let thirdTerm :=
        (basePow3 [*] Dec.ofZ exp [*] Dec.ofZ expMinus1 [*] Dec.ofZ expMinus2
         [/] Dec.ofZ 6) in
      (Dec.ofZ 1 [+] firstTerm [+] secondTerm [+] thirdTerm)
  end.

(** [compoundInterest]. *)
Definition compoundInterest (r : t) (slotsElapsed : Z) (referralFeeBps : Z)
  : Result KaminoReserve.CompoundInterest :=
  (currentBorrowRate <- calculateBorrowAPR r ;;
   let protocolTakeRate :=
     (Dec.ofZ (protocolTakeRatePct (config (KaminoReserve.state r)))
      [/] Dec.ofZ 100) in
   let referralRate := (Dec.ofZ referralFeeBps [/] Dec.ofZ 10000) in
   let fixedHostInterestRate := getFixedHostInterestRate r in
   let compoundedInterestRate :=
     approximateCompoundedInterest
       (ofNumber js currentBorrowRate [+] fixedHostInterestRate)
       slotsElapsed in
   let compoundedFixedRate :=
     approximateCompoundedInterest fixedHostInterestRate slotsElapsed in
   let previousDebt := getBorrowedAmount r in
   let newDebt := (previousDebt [*] compoundedInterestRate) in
   let fixedHostFee :=
     (previousDebt [*] compoundedFixedRate [-] previousDebt) in
   let netNewDebt := (newDebt [-] previousDebt [-] fixedHostFee) in
   let variableProtocolFee := (netNewDebt [*] protocolTakeRate) in
   let absoluteReferralFee := (protocolTakeRate [*] referralRate) in
   let maxReferralFees := (netNewDebt [*] absoluteReferralFee) in
   let newAccProtocolFees :=
     (variableProtocolFee [+] fixedHostFee [-] maxReferralFees
      [+] getAccumulatedProtocolFees r) in
   let pendingReferralFees :=
     (getPendingReferrerFees r [+] maxReferralFees) in
   Ok {| KaminoReserve.newDebt := newDebt;
         KaminoReserve.netNewDebt := netNewDebt;
         KaminoReserve.variableProtocolFee := variableProtocolFee;
         KaminoReserve.fixedHostFee := fixedHostFee;
         KaminoReserve.absoluteReferralFee := absoluteReferralFee;
         KaminoReserve.maxReferralFees := maxReferralFees;
         KaminoReserve.newAccProtocolFees := newAccProtocolFees;
         KaminoReserve.pendingReferralFees := pendingReferralFees |})%result.

(** [getEstimatedDebtAndSupply]: [(totalBorrow, totalSupply)]. *)
Definition getEstimatedDebtAndSupply (r : t) (slot : Z) (referralFeeBps : Z)
  : Result (Decimal * Decimal) :=
  let slotsElapsed := KaminoReserve.slotsElapsedSince r slot in
  if slotsElapsed =? 0 then
    Ok (getBorrowedAmount r, getTotalSupply r)
  else
    (ci <- compoundInterest r slotsElapsed referralFeeBps ;;
     let newTotalSupply :=
       (getLiquidityAvailableAmount r
        [+] KaminoReserve.newDebt ci
        [-] KaminoReserve.newAccProtocolFees ci
        [-] getAccumulatedReferrerFees r
        [-] KaminoReserve.pendingReferralFees ci) in
     Ok (KaminoReserve.newDebt ci, newTotalSupply))%result.

Definition getEstimatedTotalSupply (r : t) (slot : Z) (referralFeeBps : Z)
  : Result Decimal :=
  (estimate <- getEstimatedDebtAndSupply r slot referralFeeBps ;;
   Ok (snd estimate))%result.

(** [calcSimulatedUtilizationRatio]. *)
Definition calcSimulatedUtilizationRatio
           (r : t) (amount : Decimal) (action : string)
           (slot : Z) (referralFeeBps : Z) (outflowAmount : option Decimal)
  : Result (number js) :=
  (estimate <- getEstimatedDebtAndSupply r slot referralFeeBps ;;
   let previousTotalBorrowed := fst estimate in
   let previousTotalSupply := snd estimate in
   if String.eqb action "deposit" then
     let newTotalSupply := (previousTotalSupply [+] amount) in
     Ok (toNumber js (previousTotalBorrowed [/] newTotalSupply))
   else if String.eqb action "withdraw" then
     let newTotalSupply := (previousTotalSupply [-] amount) in
     if Dec.eq newTotalSupply (Dec.ofZ 0) then Ok (ofInteger js 0)
     else Ok (toNumber js (previousTotalBorrowed [/] newTotalSupply))
   else if String.eqb action "borrow" then
     let newTotalBorrowed := (previousTotalBorrowed [+] amount) in
     Ok (toNumber js (newTotalBorrowed [/] previousTotalSupply))
   else if String.eqb action "repay" then
     let newTotalBorrowed := (previousTotalBorrowed [-] amount) in
     Ok (toNumber js (newTotalBorrowed [/] previousTotalSupply))
   else if String.eqb action "depositAndBorrow" then
     let newTotalSupply := (previousTotalSupply [+] amount) in
     outflow <- KaminoReserve.operand outflowAmount ;;
     let newTotalBorrowed := (previousTotalBorrowed [+] outflow) in
     Ok (toNumber js (newTotalBorrowed [/] newTotalSupply))
   else if String.eqb action "repayAndWithdraw" then
     let newTotalBorrowed := (previousTotalBorrowed [-] amount) in
     outflow <- KaminoReserve.operand outflowAmount ;;
     let newTotalSupply := (previousTotalSupply [-] outflow) in
     if Dec.eq newTotalSupply (Dec.ofZ 0) then Ok (ofInteger js 0)
     else Ok (toNumber js (newTotalBorrowed [/] newTotalSupply))
   else if String.eqb action "mint" then
     let newTotalSupply := (previousTotalSupply [+] amount) in
     Ok (toNumber js (previousTotalBorrowed [/] newTotalSupply))
   else if String.eqb action "redeem" then
     let newTotalSupply := (previousTotalSupply [-] amount) in
     Ok (toNumber js (previousTotalBorrowed [/] newTotalSupply))
   else Throw ("Invalid action type " ++ action
               ++ " for simulatedUtilizationRatio"))%result.

End Reserve.

End Rounded.

Coercion Rounded.reserve : Rounded.t >-> KaminoReserve.t.


(** ** Market *)

Module ElevationGroup.

Record t : Type := {
  ltvPct : Z;
  liquidationThresholdPct : Z
}.

End ElevationGroup.

(** [KaminoMarket] ([./market]) is not part of the sources at hand; the two
    lookups the obligation uses stay fields of the market. *)
Record KaminoMarket : Type := {
  getReserveByMint : PublicKey -> option KaminoReserve.t;
  getElevationGroup : Z -> ElevationGroup.t
}.

(** [PubkeyHashMap] ([../utils]) is not part of the sources at hand: a map
    keyed by address, given here by its entries in iteration order, keys
    unique; [set] replaces the value of a key that is present and adds an
    entry otherwise. *)
Definition PubkeyHashMap (V : Type) : Type := list (PublicKey * V).

Module PubkeyHashMap.

Section Ops.

Context {V : Type}.

Fixpoint set (k : PublicKey) (v : V) (m : PubkeyHashMap V)
  : PubkeyHashMap V :=
  match m with
  | [] => [(k, v)]
  | (k', v') :: rest =>
      if PublicKey_equals k' k then (k, v) :: rest
      else (k', v') :: set k v rest
  end.

Fixpoint get (k : PublicKey) (m : PubkeyHashMap V) : option V :=
  match m with
  | [] => None
  | (k', v') :: rest =>
      if PublicKey_equals k' k then Some v' else get k rest
  end.

Definition entries (m : PubkeyHashMap V) : list (PublicKey * V) := m.

Definition values (m : PubkeyHashMap V) : list V := map snd m.

Definition ofEntries (es : list (PublicKey * V)) : PubkeyHashMap V :=
  fold_left (fun m e => set (fst e) (snd e) m) es [].

Definition has (k : PublicKey) (m : PubkeyHashMap V) : bool :=
  match get k m with
  | Some _ => true
  | None => false
  end.

Definition size (m : PubkeyHashMap V) : Z := Z.of_nat (List.length m).

End Ops.

End PubkeyHashMap.

(** Modelled from the spec: [isNotNullPubkey] ([../utils]) is not part of
    the sources at hand.  An unused slot of the deposit and borrow arrays
    refers to the all-zero address, and is told apart by it. *)
Definition isNotNullPubkey (k : PublicKey) : bool :=
  negb (PublicKey_equals k 0).

(** What the obligation reads of the market besides the two lookups above:
    the lookup of a reserve by its address, and of [market.state] the
    elevation groups and the referral fee. *)
Module Market.

Record t : Type := {
  lookups :> KaminoMarket;
  getReserveByAddress : PublicKey -> option KaminoReserve.account;
  elevationGroups : list ElevationGroupFields.t;
  referralFeeBps : Z
}.

End Market.

(** A loop whose body can throw, on a state the body updates in place:
    what was updated before the throw stays updated. *)
Fixpoint forEachM {S B : Type} (body : B -> S -> Result unit * S)
         (items : list B) (s : S) : Result unit * S :=
  match items with
  | [] => (Ok tt, s)
  | item :: rest =>
      match body item s with
      | (Ok _, s') => forEachM body rest s'
      | (Throw message, s') => (Throw message, s')
      end
  end.

(** A loop whose body can throw, on local variables. *)
Fixpoint foldM {A B : Type} (body : A -> B -> Result A)
         (items : list B) (acc : A) : Result A :=
  match items with
  | [] => Ok acc
  | item :: rest => (acc' <- body acc item ;; foldM body rest acc')%result
  end.

(** The elements of an array none of which is [undefined]. *)
Fixpoint allDefined {A : Type} (array : list (option A)) : option (list A) :=
  match array with
  | [] => Some []
  | Some x :: rest =>
      match allDefined rest with
      | Some rest' => Some (x :: rest')
      | None => None
      end
  | None :: _ => None
  end.

(** The last element of a list that satisfies a test, as a loop that
    overwrites a variable at every match leaves it. *)
Definition lastMatch {A : Type} (test : A -> bool) (l : list A) : option A :=
  fold_left (fun found x => if test x then Some x else found) l None.

(** ** Obligation *)

Record Position : Type := {
  reserveAddress : PublicKey;
  mintAddress : PublicKey;
  amount : Decimal;
  marketValueRefreshed : Decimal
}.

Module ObligationStats.

Record t : Type := {
  userTotalDeposit : Decimal;
  userTotalBorrow : Decimal;
  userTotalBorrowBorrowFactorAdjusted : Decimal;
  borrowLimit : Decimal;
  borrowLiquidationLimit : Decimal;
  borrowUtilization : Decimal;
  netAccountValue : Decimal;
  loanToValue : Decimal;
  liquidationLtv : Decimal;
  leverage : Decimal;
  potentialElevationGroupUpdate : list Z
}.

(** Assignments to a field of a copy. *)
Definition set_userTotalDeposit (v : Decimal) (s : t) : t :=
  {| userTotalDeposit := v;
     userTotalBorrow := userTotalBorrow s;
     userTotalBorrowBorrowFactorAdjusted := userTotalBorrowBorrowFactorAdjusted s;
     borrowLimit := borrowLimit s;
     borrowLiquidationLimit := borrowLiquidationLimit s;
     borrowUtilization := borrowUtilization s;
     netAccountValue := netAccountValue s;
     loanToValue := loanToValue s;
     liquidationLtv := liquidationLtv s;
     leverage := leverage s;
     potentialElevationGroupUpdate := potentialElevationGroupUpdate s |}.

Definition set_userTotalBorrow (v : Decimal) (s : t) : t :=
  {| userTotalDeposit := userTotalDeposit s;
     userTotalBorrow := v;
     userTotalBorrowBorrowFactorAdjusted := userTotalBorrowBorrowFactorAdjusted s;
     borrowLimit := borrowLimit s;
     borrowLiquidationLimit := borrowLiquidationLimit s;
     borrowUtilization := borrowUtilization s;
     netAccountValue := netAccountValue s;
     loanToValue := loanToValue s;
     liquidationLtv := liquidationLtv s;
     leverage := leverage s;
     potentialElevationGroupUpdate := potentialElevationGroupUpdate s |}.

Definition set_userTotalBorrowBorrowFactorAdjusted (v : Decimal) (s : t) : t :=
  {| userTotalDeposit := userTotalDeposit s;
     userTotalBorrow := userTotalBorrow s;
     userTotalBorrowBorrowFactorAdjusted := v;
     borrowLimit := borrowLimit s;
     borrowLiquidationLimit := borrowLiquidationLimit s;
     borrowUtilization := borrowUtilization s;
     netAccountValue := netAccountValue s;
     loanToValue := loanToValue s;
     liquidationLtv := liquidationLtv s;
     leverage := leverage s;
     potentialElevationGroupUpdate := potentialElevationGroupUpdate s |}.

Definition set_borrowLimit (v : Decimal) (s : t) : t :=
  {| userTotalDeposit := userTotalDeposit s;
     userTotalBorrow := userTotalBorrow s;
     userTotalBorrowBorrowFactorAdjusted := userTotalBorrowBorrowFactorAdjusted s;
     borrowLimit := v;
     borrowLiquidationLimit := borrowLiquidationLimit s;
     borrowUtilization := borrowUtilization s;
     netAccountValue := netAccountValue s;
     loanToValue := loanToValue s;
     liquidationLtv := liquidationLtv s;
     leverage := leverage s;
     potentialElevationGroupUpdate := potentialElevationGroupUpdate s |}.

Definition set_borrowLiquidationLimit (v : Decimal) (s : t) : t :=
  {| userTotalDeposit := userTotalDeposit s;
     userTotalBorrow := userTotalBorrow s;
     userTotalBorrowBorrowFactorAdjusted := userTotalBorrowBorrowFactorAdjusted s;
     borrowLimit := borrowLimit s;
     borrowLiquidationLimit := v;
     borrowUtilization := borrowUtilization s;
     netAccountValue := netAccountValue s;
     loanToValue := loanToValue s;
     liquidationLtv := liquidationLtv s;
     leverage := leverage s;
     potentialElevationGroupUpdate := potentialElevationGroupUpdate s |}.

Definition set_netAccountValue (v : Decimal) (s : t) : t :=
  {| userTotalDeposit := userTotalDeposit s;
     userTotalBorrow := userTotalBorrow s;
     userTotalBorrowBorrowFactorAdjusted := userTotalBorrowBorrowFactorAdjusted s;
     borrowLimit := borrowLimit s;
     borrowLiquidationLimit := borrowLiquidationLimit s;
     borrowUtilization := borrowUtilization s;
     netAccountValue := v;
     loanToValue := loanToValue s;
     liquidationLtv := liquidationLtv s;
     leverage := leverage s;
     potentialElevationGroupUpdate := potentialElevationGroupUpdate s |}.

Definition set_loanToValue (v : Decimal) (s : t) : t :=
  {| userTotalDeposit := userTotalDeposit s;
     userTotalBorrow := userTotalBorrow s;
     userTotalBorrowBorrowFactorAdjusted := userTotalBorrowBorrowFactorAdjusted s;
     borrowLimit := borrowLimit s;
     borrowLiquidationLimit := borrowLiquidationLimit s;
     borrowUtilization := borrowUtilization s;
     netAccountValue := netAccountValue s;
     loanToValue := v;
     liquidationLtv := liquidationLtv s;
     leverage := leverage s;
     potentialElevationGroupUpdate := potentialElevationGroupUpdate s |}.

Definition set_liquidationLtv (v : Decimal) (s : t) : t :=
  {| userTotalDeposit := userTotalDeposit s;
     userTotalBorrow := userTotalBorrow s;
     userTotalBorrowBorrowFactorAdjusted := userTotalBorrowBorrowFactorAdjusted s;
     borrowLimit := borrowLimit s;
     borrowLiquidationLimit := borrowLiquidationLimit s;
     borrowUtilization := borrowUtilization s;
     netAccountValue := netAccountValue s;
     loanToValue := loanToValue s;
     liquidationLtv := v;
     leverage := leverage s;
     potentialElevationGroupUpdate := potentialElevationGroupUpdate s |}.

Definition set_leverage (v : Decimal) (s : t) : t :=
  {| userTotalDeposit := userTotalDeposit s;
     userTotalBorrow := userTotalBorrow s;
     userTotalBorrowBorrowFactorAdjusted := userTotalBorrowBorrowFactorAdjusted s;
     borrowLimit := borrowLimit s;
     borrowLiquidationLimit := borrowLiquidationLimit s;
     borrowUtilization := borrowUtilization s;
     netAccountValue := netAccountValue s;
     loanToValue := loanToValue s;
     liquidationLtv := liquidationLtv s;
     leverage := v;
     potentialElevationGroupUpdate := potentialElevationGroupUpdate s |}.

End ObligationStats.

Module ObligationLiquidity.

Record t : Type := {
  borrowReserve : PublicKey;
  cumulativeBorrowRateBsf : list N;
  borrowedAmountSf : N
}.

Definition set_cumulativeBorrowRateBsf (v : list N) (b : t) : t :=
  {| borrowReserve := borrowReserve b;
     cumulativeBorrowRateBsf := v;
     borrowedAmountSf := borrowedAmountSf b |}.

End ObligationLiquidity.

Module ObligationCollateral.

Record t : Type := {
  depositReserve : PublicKey;
  depositedAmount : N;
  marketValueSf : N
}.

End ObligationCollateral.

Module Obligation.

Record t : Type := {
  elevationGroup : Z;
  borrows : list ObligationLiquidity.t
}.

(** The decoded obligation with its deposit entries. *)
Record account : Type := {
  obligation :> t;
  deposits : list ObligationCollateral.t
}.

End Obligation.

Coercion Obligation.obligation : Obligation.account >-> Obligation.t.

(** What [calculateObligationDeposits] and [calculateObligationBorrows]
    return. *)
Module DepositStats.

Record t : Type := {
  deposits : PubkeyHashMap Position;
  userTotalDeposit : Decimal;
  userTotalCollateralDeposit : Decimal;
  borrowLimit : Decimal;
  liquidationLtv : Decimal;
  borrowLiquidationLimit : Decimal
}.

End DepositStats.

Module BorrowStats.

Record t : Type := {
  borrows : PubkeyHashMap Position;
  userTotalBorrow : Decimal;
  userTotalBorrowBorrowFactorAdjusted : Decimal;
  positions : Z
}.

End BorrowStats.

(** The JavaScript [Map<number, number>] of [getElevationGroupsForReserves],
    by its entries in insertion order. *)
Module NumberMap.

Fixpoint get (k : Z) (m : list (Z * Z)) : option Z :=
  match m with
  | [] => None
  | (k', v) :: rest => if k' =? k then Some v else get k rest
  end.

Fixpoint set (k v : Z) (m : list (Z * Z)) : list (Z * Z) :=
  match m with
  | [] => [(k, v)]
  | (k', v') :: rest =>
      if k' =? k then (k, v) :: rest else (k', v') :: set k v rest
  end.

End NumberMap.

Module KaminoObligation.

Record t : Type := {
  state : Obligation.t;
  deposits : PubkeyHashMap Position;
  borrows : PubkeyHashMap Position;
  refreshedStats : ObligationStats.t
}.

(** An instance method runs on [this] and leaves the obligation it ends
    with next to what it returns or throws. *)
Definition Method (A : Type) : Type := t -> Result A * t.

Definition ret {A : Type} (a : A) : Method A := fun this => (Ok a, this).

Definition throw {A : Type} (message : string) : Method A :=
  fun this => (Throw message, this).

Definition bind {A B : Type} (m : Method A) (f : A -> Method B) : Method B :=
  fun this =>
    match m this with
    | (Ok a, this') => f a this'
    | (Throw message, this') => (Throw message, this')
    end.

Definition read {A : Type} (f : t -> A) : Method A :=
  fun this => (Ok (f this), this).

Declare Scope method_scope.
Delimit Scope method_scope with method.
Notation "x <- m ;; k" := (bind m (fun x => k))
  (at level 61, m at next level, right associativity) : method_scope.

Definition getDepositByReserve (this : t) (reserve : PublicKey)
  : option Position :=
  PubkeyHashMap.get reserve (deposits this).

(** [getElevationGroupsForReserves] (static). *)
Definition countElevationGroup (counts : list (Z * Z)) (elevationGroup : Z)
  : list (Z * Z) :=
  if negb (elevationGroup =? 0) then
    match NumberMap.get elevationGroup counts with
    | Some count =>
        if negb (count =? 0)
        then NumberMap.set elevationGroup (count + 1) counts
        else NumberMap.set elevationGroup 1 counts
    | None => NumberMap.set elevationGroup 1 counts
    end
  else counts.

Definition elevationGroupsCounts (reserves : list KaminoReserve.t)
  : list (Z * Z) :=
  fold_left
    (fun counts reserve =>
       fold_left countElevationGroup
                 (elevationGroups (config (KaminoReserve.state reserve))) counts)
    reserves [].

Definition getElevationGroupsForReserves (reserves : list KaminoReserve.t)
  : list Z :=
  let counts := elevationGroupsCounts reserves in
  map fst
      (filter (fun entry => snd entry =? Z.of_nat (List.length reserves)) counts).

(** [KaminoObligation.getCumulativeBorrowRate] (static): [reverse()]
    reverses the stored array itself, and the value of [accSf.shrn(64)]
    is dropped ([shrn] returns a new number and leaves [accSf] as it
    is).  The second component is the borrow entry after the call. *)
Definition getCumulativeBorrowRate (borrow : ObligationLiquidity.t)
  : Decimal * ObligationLiquidity.t :=
  let reversed := rev (ObligationLiquidity.cumulativeBorrowRateBsf borrow) in
  let borrow' := ObligationLiquidity.set_cumulativeBorrowRateBsf reversed borrow in
  let accSf :=
    fold_left
      (fun accSf value =>
         let accSf := (accSf + value)%N in
         let _ := N.shiftr accSf 64 in
         accSf)
      reversed 0%N in
  (Fraction_toDecimal accSf, borrow').

(** [calculateSimulatedBorrow]: [(stats, borrows)]. *)
Definition calculateSimulatedBorrow
           (oldStats : ObligationStats.t)
           (oldBorrows : PubkeyHashMap Position)
           (borrowAmount : Decimal)
           (mint : PublicKey)
           (reserves : PubkeyHashMap KaminoReserve.t)
  : Method (ObligationStats.t * PubkeyHashMap Position) :=
  let newStats := oldStats in
  let newBorrows := PubkeyHashMap.ofEntries (PubkeyHashMap.entries oldBorrows) in
  let borrowPosition :=
    lastMatch (fun oldBorrow => PublicKey_equals (mintAddress oldBorrow) mint)
              (PubkeyHashMap.values oldBorrows) in
  let reserve :=
    lastMatch (fun kaminoReserve =>
                 PublicKey_equals (KaminoReserve.getLiquidityMint kaminoReserve) mint)
              (PubkeyHashMap.values reserves) in
  match reserve with
  | None => throw "No reserve found for mint"
  | Some reserve =>
      let borrowPosition :=
        match borrowPosition with
        | Some position => position
        | None =>
            {| reserveAddress := KaminoReserve.address reserve;
               mintAddress := mint;
               amount := Dec.ofZ 0;
               marketValueRefreshed := Dec.ofZ 0 |}
        end in
      (elevationGroup <- read (fun this => Obligation.elevationGroup (state this)) ;;
       if negb (includes (elevationGroups (config (KaminoReserve.state reserve)))
                         elevationGroup)
       then throw "User would have to downgrade the elevation group in order to be able to borrow from this reserve"
       else
         let borrowFactor :=
           if negb (elevationGroup =? 0) then Dec.ofZ 1
           else (KaminoReserve.stats_borrowFactor reserve / Dec.ofZ 100)%dec in
         let borrowValueUSD :=
           (borrowAmount * KaminoReserve.getOracleMarketPrice reserve
            / KaminoReserve.getMintFactor reserve)%dec in
         let borrowValueBorrowFactorAdjustedUSD :=
           (borrowValueUSD * borrowFactor)%dec in
         let newStats :=
           ObligationStats.set_userTotalBorrow
             (positiveOrZero
                (ObligationStats.userTotalBorrow newStats + borrowValueUSD)%dec)
             newStats in
         let newStats :=
           ObligationStats.set_userTotalBorrowBorrowFactorAdjusted
             (positiveOrZero
                (ObligationStats.userTotalBorrowBorrowFactorAdjusted newStats
                 + borrowValueBorrowFactorAdjustedUSD)%dec)
             newStats in
         let borrowPosition :=
           {| reserveAddress := reserveAddress borrowPosition;
              mintAddress := mint;
              amount := positiveOrZero (amount borrowPosition + borrowAmount)%dec;
              marketValueRefreshed :=
                positiveOrZero
                  (marketValueRefreshed borrowPosition + borrowValueUSD)%dec |} in
         let newBorrows :=
           PubkeyHashMap.set (reserveAddress borrowPosition) borrowPosition
                             newBorrows in
         ret (newStats, newBorrows))%method
  end.

(** [calculateSimulatedDeposit]: [(stats, deposits)]. *)
Definition calculateSimulatedDeposit
           (oldStats : ObligationStats.t)
           (oldDeposits : PubkeyHashMap Position)
           (amount' : Decimal)
           (mint : PublicKey)
           (reserves : PubkeyHashMap KaminoReserve.t)
           (market : KaminoMarket)
  : Method (ObligationStats.t * PubkeyHashMap Position) :=
  let newStats := oldStats in
  let newDeposits := PubkeyHashMap.ofEntries (PubkeyHashMap.entries oldDeposits) in
  let depositPosition :=
    lastMatch (fun oldDeposit => PublicKey_equals (mintAddress oldDeposit) mint)
              (PubkeyHashMap.values oldDeposits) in
  let reserve :=
    lastMatch (fun kaminoReserve =>
                 PublicKey_equals (KaminoReserve.getLiquidityMint kaminoReserve) mint)
              (PubkeyHashMap.values reserves) in
  match reserve with
  | None => throw "No reserve found for mint"
  | Some reserve =>
      let depositPosition :=
        match depositPosition with
        | Some position => position
        | None =>
            {| reserveAddress := KaminoReserve.address reserve;
               mintAddress := mint;
               amount := Dec.ofZ 0;
               marketValueRefreshed := Dec.ofZ 0 |}
        end in
      (elevationGroup <- read (fun this => Obligation.elevationGroup (state this)) ;;
       let loanToValue := KaminoReserve.stats_loanToValuePct reserve in
       let liqThreshold := KaminoReserve.stats_liquidationThreshold reserve in
       let loanToValue :=
         if negb (elevationGroup =? 0)
         then (Q2Qc (ElevationGroup.ltvPct (getElevationGroup market elevationGroup) # 1)
               / Q2Qc (100 # 1))%Qc
         else loanToValue in
       let liqThreshold :=
         if negb (elevationGroup =? 0)
         then (Q2Qc (ElevationGroup.liquidationThresholdPct
                       (getElevationGroup market elevationGroup) # 1)
               / Q2Qc (100 # 1))%Qc
         else liqThreshold in
       if negb (includes (elevationGroups (config (KaminoReserve.state reserve)))
                         elevationGroup)
       then throw "User would have to downgrade the elevation group in order to be able to deposit in this reserve"
       else
         let supplyAmount := amount' in
         let supplyAmountMultiplierUSD :=
           (supplyAmount * KaminoReserve.getOracleMarketPrice reserve
            / Dec.ofZ (10 ^ Z.of_N (KaminoReserve.stats_decimals reserve)))%dec in
         let newStats :=
           ObligationStats.set_userTotalDeposit
             (positiveOrZero
                (ObligationStats.userTotalDeposit newStats
                 + supplyAmountMultiplierUSD)%dec)
             newStats in
         let newStats :=
           ObligationStats.set_borrowLimit
             (positiveOrZero
                (ObligationStats.borrowLimit newStats
                 + supplyAmountMultiplierUSD * Fin loanToValue)%dec)
             newStats in
         let newStats :=
           ObligationStats.set_borrowLiquidationLimit
             (positiveOrZero
                (ObligationStats.borrowLiquidationLimit newStats
                 + supplyAmountMultiplierUSD * Fin liqThreshold)%dec)
             newStats in
         let newStats :=
           ObligationStats.set_liquidationLtv
             (valueOrZero
                (ObligationStats.borrowLiquidationLimit newStats
                 / ObligationStats.userTotalDeposit newStats)%dec)
             newStats in
         let depositPosition :=
           {| reserveAddress := reserveAddress depositPosition;
              mintAddress := mint;
              amount := positiveOrZero (amount depositPosition + amount')%dec;
              marketValueRefreshed :=
                positiveOrZero
                  (marketValueRefreshed depositPosition
                   + supplyAmount * KaminoReserve.getOracleMarketPrice reserve
                     / KaminoReserve.getMintFactor reserve)%dec |} in
         let newDeposits :=
           PubkeyHashMap.set (reserveAddress depositPosition) depositPosition
                             newDeposits in
         ret (newStats, newDeposits))%method
  end.

(** [getSimulatedObligationStats]: [(stats, deposits, borrows)]. *)
Definition getSimulatedObligationStats
           (amount' : Decimal)
           (action : string)
           (mint : PublicKey)
           (market : KaminoMarket)
           (reserves : PubkeyHashMap KaminoReserve.t)
  : Method (ObligationStats.t * PubkeyHashMap Position * PubkeyHashMap Position) :=
  (this <- read (fun this => this) ;;
   let newStats := refreshedStats this in
   let newDeposits := PubkeyHashMap.ofEntries (PubkeyHashMap.entries (deposits this)) in
   let newBorrows := PubkeyHashMap.ofEntries (PubkeyHashMap.entries (borrows this)) in
   simulated <-
     (if String.eqb action "deposit" then
        r <- calculateSimulatedDeposit (refreshedStats this) (deposits this)
               amount' mint reserves market ;;
        ret (fst r, snd r, newBorrows)
      else if String.eqb action "borrow" then
        r <- calculateSimulatedBorrow (refreshedStats this) (borrows this)
               amount' mint reserves ;;
        ret (fst r, newDeposits, snd r)
      else if String.eqb action "repay" then
        r <- calculateSimulatedBorrow (refreshedStats this) (borrows this)
               (- amount')%dec mint reserves ;;
        ret (fst r, newDeposits, snd r)
      else if String.eqb action "withdraw" then
        r <- calculateSimulatedDeposit (refreshedStats this) (deposits this)
               (- amount')%dec mint reserves market ;;
        ret (fst r, snd r, newBorrows)
      else if String.eqb action "depositAndBorrow" then
        afterDeposit <- calculateSimulatedDeposit
                          (refreshedStats this) (deposits this)
                          amount' mint reserves market ;;
        r <- calculateSimulatedBorrow (fst afterDeposit) (borrows this)
               amount' mint reserves ;;
        ret (fst r, snd afterDeposit, snd r)
      else if String.eqb action "repayAndWithdraw" then
        afterRepay <- calculateSimulatedBorrow
                        (refreshedStats this) (borrows this)
                        (- amount')%dec mint reserves ;;
        afterWithdraw <- calculateSimulatedDeposit
                           (fst afterRepay) (deposits this)
                           amount' mint reserves market ;;
        ret (fst afterWithdraw, snd afterWithdraw, snd afterRepay)
      else throw "Invalid action type for getSimulatedObligationStats") ;;
   let newStats := fst (fst simulated) in
   let newDeposits := snd (fst simulated) in
   let newBorrows := snd simulated in
   let newStats :=
     ObligationStats.set_netAccountValue
       (ObligationStats.userTotalDeposit newStats
        - ObligationStats.userTotalBorrow newStats)%dec
       newStats in
   let newStats :=
     ObligationStats.set_loanToValue
       (valueOrZero
          (ObligationStats.userTotalBorrowBorrowFactorAdjusted newStats
           / ObligationStats.userTotalDeposit newStats)%dec)
       newStats in
   let newStats :=
     ObligationStats.set_leverage
       (valueOrZero
          (ObligationStats.userTotalDeposit newStats
           / ObligationStats.netAccountValue newStats)%dec)
       newStats in
   ret (newStats, newDeposits, newBorrows))%method.

Section Limits.

(** [SLOTS_PER_DAY] ([../utils]) is not part of the sources at hand. *)
Variable SLOTS_PER_DAY : Z.

(** [getMaxBorrowAmount]. *)
Definition getMaxBorrowAmount
           (market : KaminoMarket) (tokenMint : PublicKey) (slot : Z)
  : Method Decimal :=
  match getReserveByMint market tokenMint with
  | None => throw "Reserve not found"
  | Some reserve =>
      (this <- read (fun this => this) ;;
       let elevationGroupActivated :=
         includes (elevationGroups (config (KaminoReserve.state reserve)))
                  (Obligation.elevationGroup (state this))
         && negb (Obligation.elevationGroup (state this) =? 0) in
       let reserveBorrowFactor := KaminoReserve.getBorrowFactor reserve in
       let borrowFactor :=
         if elevationGroupActivated then Dec.ofZ 1 else reserveBorrowFactor in
       let maxObligationBorrowPower :=
         ((ObligationStats.borrowLimit (refreshedStats this)
           - ObligationStats.userTotalBorrowBorrowFactorAdjusted
               (refreshedStats this))
          / borrowFactor
          / KaminoReserve.getOracleMarketPrice reserve
          * KaminoReserve.getMintFactor reserve)%dec in
       let reserveAvailableAmount :=
         KaminoReserve.getLiquidityAvailableAmount reserve in
       let reserveBorrowCapRemained :=
         (KaminoReserve.stats_reserveBorrowLimit reserve
          - KaminoReserve.getBorrowedAmount reserve)%dec in
       let reserveBorrowCapRemained :=
         if (disableUsageAsCollOutsideEmode (config (KaminoReserve.state reserve)) =? 1)
            && negb elevationGroupActivated
         then Dec.ofZ 0
         else reserveBorrowCapRemained in
       let maxBorrowAmount :=
         Dec.min [maxObligationBorrowPower; reserveAvailableAmount;
                  reserveBorrowCapRemained] in
       let debtWithdrawalCap :=
         (KaminoReserve.getDebtWithdrawalCapCapacity reserve
          - KaminoReserve.getDebtWithdrawalCapCurrent SLOTS_PER_DAY reserve slot)%dec in
       let maxBorrowAmount :=
         if Dec.gt (KaminoReserve.getDebtWithdrawalCapCapacity reserve) (Dec.ofZ 0)
         then Dec.min [maxBorrowAmount; debtWithdrawalCap]
         else maxBorrowAmount in
       let originationFeeRate := KaminoReserve.getBorrowFee reserve in
       let originationFeeRate :=
         (originationFeeRate / (originationFeeRate + Dec.ofZ 1))%dec in
       let borrowFee := (maxBorrowAmount * originationFeeRate)%dec in
       let maxBorrowAmount := (maxBorrowAmount - borrowFee)%dec in
       ret (Dec.max [Dec.ofZ 0; maxBorrowAmount]))%method
  end.

(** [getMaxWithdrawAmount]. *)
Definition getMaxWithdrawAmount
           (market : KaminoMarket) (tokenMint : PublicKey) (slot : Z)
  : Method Decimal :=
  match getReserveByMint market tokenMint with
  | None => throw "Reserve not found"
  | Some reserve =>
      (this <- read (fun this => this) ;;
       match getDepositByReserve this (KaminoReserve.address reserve) with
       | None => throw "Deposit reserve not found"
       | Some userDepositPosition =>
           let userDepositPositionAmount := amount userDepositPosition in
           if Dec.eq (ObligationStats.userTotalBorrowBorrowFactorAdjusted
                        (refreshedStats this))
                     (Dec.ofZ 0)
           then ret userDepositPositionAmount
           else
             let elevationGroupActivated :=
               includes (elevationGroups (config (KaminoReserve.state reserve)))
                        (Obligation.elevationGroup (state this))
               && negb (Obligation.elevationGroup (state this) =? 0) in
             let reserveMaxLtv :=
               if elevationGroupActivated
               then (Q2Qc (ElevationGroup.ltvPct
                             (getElevationGroup
                                market (Obligation.elevationGroup (state this))) # 1)
                     / Q2Qc (100 # 1))%Qc
               else KaminoReserve.stats_loanToValuePct reserve in
             if js_ge (ObligationStats.userTotalBorrowBorrowFactorAdjusted
                         (refreshedStats this))
                      (ObligationStats.borrowLimit (refreshedStats this))
             then ret (Dec.ofZ 0)
             else
               let maxWithdrawValue :=
                 if Qczerob reserveMaxLtv then userDepositPositionAmount
                 else
                   ((ObligationStats.borrowLimit (refreshedStats this)
                     - ObligationStats.userTotalBorrowBorrowFactorAdjusted
                         (refreshedStats this))
                    / Fin reserveMaxLtv
                    * Dec.ofQ (995 # 1000))%dec in
               let maxWithdrawAmount :=
                 (maxWithdrawValue / KaminoReserve.getOracleMarketPrice reserve
                  * KaminoReserve.getMintFactor reserve)%dec in
               let reserveAvailableLiquidity :=
                 KaminoReserve.getLiquidityAvailableAmount reserve in
               let withdrawalCapRemained :=
                 (KaminoReserve.getDepositWithdrawalCapCapacity reserve
                  - KaminoReserve.getDepositWithdrawalCapCurrent
                      SLOTS_PER_DAY reserve slot)%dec in
               ret (Dec.max
                      [Dec.ofZ 0;
                       Dec.min [userDepositPositionAmount; maxWithdrawAmount;
                                reserveAvailableLiquidity;
                                withdrawalCapRemained]])
       end)%method
  end.

End Limits.

(** *** Positions *)

Definition getBorrows (this : t) : list Position :=
  PubkeyHashMap.values (borrows this).

Definition getDeposits (this : t) : list Position :=
  PubkeyHashMap.values (deposits this).

Definition getBorrowByReserve (this : t) (reserve : PublicKey)
  : option Position :=
  PubkeyHashMap.get reserve (borrows this).

Definition getBorrowByMint (this : t) (mint : PublicKey) : option Position :=
  find (fun value => PublicKey_equals (mintAddress value) mint)
       (PubkeyHashMap.values (borrows this)).

Definition getDepositByMint (this : t) (mint : PublicKey) : option Position :=
  find (fun value => PublicKey_equals (mintAddress value) mint)
       (PubkeyHashMap.values (deposits this)).

Definition loanToValue (this : t) : Decimal :=
  if Dec.eq (ObligationStats.userTotalDeposit (refreshedStats this)) (Dec.ofZ 0)
  then Dec.ofZ 0
  else (ObligationStats.userTotalBorrowBorrowFactorAdjusted (refreshedStats this)
        / ObligationStats.userTotalDeposit (refreshedStats this))%dec.

Definition getNumberOfPositions (this : t) : Z :=
  PubkeyHashMap.size (deposits this) + PubkeyHashMap.size (borrows this).

Definition getNetAccountValue (this : t) : Decimal :=
  ObligationStats.netAccountValue (refreshedStats this).

(** [getBorrowAmount] and [getBorrowFactorForReserve] (static). *)
Definition getBorrowAmount (borrow : ObligationLiquidity.t) : Decimal :=
  Fraction_toDecimal (ObligationLiquidity.borrowedAmountSf borrow).

Definition getBorrowFactorForReserve
           (reserve : KaminoReserve.t) (elevationGroup : Z) : Decimal :=
  if negb (elevationGroup =? 0) then Dec.ofZ 1
  else (KaminoReserve.stats_borrowFactor reserve / Dec.ofZ 100)%dec.

(** [getElevationGroups]: of [this] the method reads the decoded state
    only.  A reserve the market does not know enters the map as
    [undefined], and [getElevationGroupsForReserves] throws when its loop
    reads the state of it. *)
Definition collectReserve (kaminoMarket : Market.t)
           (reserves : PubkeyHashMap (option KaminoReserve.account))
           (reserve : PublicKey)
  : PubkeyHashMap (option KaminoReserve.account) :=
  if isNotNullPubkey reserve && negb (PubkeyHashMap.has reserve reserves)
  then PubkeyHashMap.set reserve
                         (Market.getReserveByAddress kaminoMarket reserve)
                         reserves
  else reserves.

Definition getElevationGroups
           (state : Obligation.account) (kaminoMarket : Market.t)
  : Result (list Z) :=
  let reserves : PubkeyHashMap (option KaminoReserve.account) := [] in
  let reserves :=
    fold_left
      (fun reserves deposit =>
         collectReserve kaminoMarket reserves
                        (ObligationCollateral.depositReserve deposit))
      (Obligation.deposits state) reserves in
  let reserves :=
    fold_left
      (fun reserves borrow =>
         collectReserve kaminoMarket reserves
                        (ObligationLiquidity.borrowReserve borrow))
      (Obligation.borrows state) reserves in
  match allDefined (PubkeyHashMap.values reserves) with
  | Some reserves =>
      Ok (getElevationGroupsForReserves (map KaminoReserve.reserve reserves))
  | None => Throw (TypeError_undefined "state")
  end.

Section Positions.

(** [SLOTS_PER_YEAR], [INITIAL_COLLATERAL_RATE] and the borrow rate of a
    reserve, as for the reserve. *)
Variable SLOTS_PER_YEAR : Z.
Variable calculateBorrowAPR : KaminoReserve.t -> Decimal.
Variable INITIAL_COLLATERAL_RATE : Decimal.

(** [estimateObligationInterestRate]: the rate, and the borrow entry after
    the call. *)
Definition estimateObligationInterestRate
           (reserve : KaminoReserve.t) (borrow : ObligationLiquidity.t)
           (currentSlot : Z) : Decimal * ObligationLiquidity.t :=
  let estimatedCumulativeBorrowRate :=
    KaminoReserve.getEstimatedCumulativeBorrowRate
      SLOTS_PER_YEAR calculateBorrowAPR reserve currentSlot in
  let (currentCumulativeBorrowRate, borrow) := getCumulativeBorrowRate borrow in
  if Dec.gt estimatedCumulativeBorrowRate currentCumulativeBorrowRate
  then ((estimatedCumulativeBorrowRate / currentCumulativeBorrowRate)%dec, borrow)
  else (Dec.ofZ 0, borrow).

(** [calculateObligationDeposits] (static): one turn of the loop, and the
    loop. *)
Definition depositsBody
           (market : Market.t) (obligation : Obligation.account)
           (collateralExchangeRates : option (PubkeyHashMap Decimal))
           (getPx : KaminoReserve.t -> Decimal)
           (acc : DepositStats.t) (deposit : ObligationCollateral.t)
  : Result DepositStats.t :=
  if negb (isNotNullPubkey (ObligationCollateral.depositReserve deposit))
  then Ok acc
  else
    match Market.getReserveByAddress
            market (ObligationCollateral.depositReserve deposit) with
    | None =>
        Throw "Obligation contains a deposit belonging to a reserve that was not found on the market"
    | Some reserve =>
        (let loanToValue := KaminoReserve.stats_loanToValuePct reserve in
         let liqThreshold := KaminoReserve.stats_liquidationThreshold reserve in
         thresholds <-
           (if negb (Obligation.elevationGroup obligation =? 0) then
              match element (Market.elevationGroups market)
                            (Obligation.elevationGroup obligation - 1) with
              | Some group =>
                  Ok ((Q2Qc (inject_Z (ElevationGroupFields.ltvPct group))
                       / Q2Qc (inject_Z 100))%Qc,
                      (Q2Qc (inject_Z
                               (ElevationGroupFields.liquidationThresholdPct
                                  group))
                       / Q2Qc (inject_Z 100))%Qc)
              | None => Throw (TypeError_undefined "ltvPct")
              end
            else Ok (loanToValue, liqThreshold)) ;;
         let loanToValue := fst thresholds in
         let liqThreshold := snd thresholds in
         exchangeRate <-
           match collateralExchangeRates with
           | Some rates =>
               KaminoReserve.operand
                 (PubkeyHashMap.get (KaminoReserve.address reserve) rates)
           | None =>
               Ok (KaminoReserve.getCollateralExchangeRate
                     INITIAL_COLLATERAL_RATE reserve)
           end ;;
         let supplyAmount :=
           (Dec.ofN (ObligationCollateral.depositedAmount deposit)
            / exchangeRate)%dec in
         let depositValueUsd :=
           (supplyAmount * getPx reserve
            / KaminoReserve.getMintFactor reserve)%dec in
         let userTotalDeposit :=
           (DepositStats.userTotalDeposit acc + depositValueUsd)%dec in
         let userTotalCollateralDeposit :=
           if negb (Qczerob loanToValue)
           then (DepositStats.userTotalCollateralDeposit acc
                 + depositValueUsd)%dec
           else DepositStats.userTotalCollateralDeposit acc in
         let borrowLimit :=
           (DepositStats.borrowLimit acc
            + depositValueUsd * Fin loanToValue)%dec in
         let borrowLiquidationLimit :=
           (DepositStats.borrowLiquidationLimit acc
            + depositValueUsd * Fin liqThreshold)%dec in
         let position :=
           {| reserveAddress := KaminoReserve.address reserve;
              mintAddress := KaminoReserve.getLiquidityMint reserve;
              amount := supplyAmount;
              marketValueRefreshed := depositValueUsd |} in
         Ok {| DepositStats.deposits :=
                 PubkeyHashMap.set (KaminoReserve.address reserve) position
                                   (DepositStats.deposits acc);
               DepositStats.userTotalDeposit := userTotalDeposit;
               DepositStats.userTotalCollateralDeposit :=
                 userTotalCollateralDeposit;
               DepositStats.borrowLimit := borrowLimit;
               DepositStats.liquidationLtv := DepositStats.liquidationLtv acc;
               DepositStats.borrowLiquidationLimit := borrowLiquidationLimit |})%result
    end.

Definition calculateObligationDeposits
           (market : Market.t) (obligation : Obligation.account)
           (collateralExchangeRates : option (PubkeyHashMap Decimal))
           (getPx : KaminoReserve.t -> Decimal)
  : Result DepositStats.t :=
  (totals <-
     foldM (depositsBody market obligation collateralExchangeRates getPx)
           (Obligation.deposits obligation)
           {| DepositStats.deposits := [];
              DepositStats.userTotalDeposit := Dec.ofZ 0;
              DepositStats.userTotalCollateralDeposit := Dec.ofZ 0;
              DepositStats.borrowLimit := Dec.ofZ 0;
              DepositStats.liquidationLtv := Dec.ofZ 0;
              DepositStats.borrowLiquidationLimit := Dec.ofZ 0 |} ;;
   Ok {| DepositStats.deposits := DepositStats.deposits totals;
         DepositStats.userTotalDeposit := DepositStats.userTotalDeposit totals;
         DepositStats.userTotalCollateralDeposit :=
           DepositStats.userTotalCollateralDeposit totals;
         DepositStats.borrowLimit := DepositStats.borrowLimit totals;
         DepositStats.liquidationLtv :=
           valueOrZero (DepositStats.borrowLiquidationLimit totals
                        / DepositStats.userTotalDeposit totals)%dec;
         DepositStats.borrowLiquidationLimit :=
           DepositStats.borrowLiquidationLimit totals |})%result.

(** [calculateObligationBorrows] (static).  Every turn of the loop goes
    through [getCumulativeBorrowRate], which reverses the limbs of the
    borrow entry in place: the second component is the array of borrow
    entries after the call. *)
Fixpoint borrowsLoop
         (market : Market.t) (elevationGroup : Z)
         (cumulativeBorrowRates : option (PubkeyHashMap Decimal))
         (getPx : KaminoReserve.t -> Decimal)
         (entries : list ObligationLiquidity.t) (acc : BorrowStats.t)
  : Result BorrowStats.t * list ObligationLiquidity.t :=
  match entries with
  | [] => (Ok acc, [])
  | borrow :: rest =>
      if negb (isNotNullPubkey (ObligationLiquidity.borrowReserve borrow))
      then
        let (outcome, rest') :=
          borrowsLoop market elevationGroup cumulativeBorrowRates getPx
                      rest acc in
        (outcome, borrow :: rest')
      else
        match Market.getReserveByAddress
                market (ObligationLiquidity.borrowReserve borrow) with
        | None =>
            (Throw "Obligation contains a borrow belonging to a reserve that was not found on the market",
             borrow :: rest)
        | Some reserve =>
            let (obligationCumulativeBorrowRate, borrow') :=
              getCumulativeBorrowRate borrow in
            match
              match cumulativeBorrowRates with
              | Some rates =>
                  KaminoReserve.operand
                    (PubkeyHashMap.get (KaminoReserve.address reserve) rates)
              | None => Ok (fst (KaminoReserve.getCumulativeBorrowRate reserve))
              end
            with
            | Throw message => (Throw message, borrow' :: rest)
            | Ok cumulativeBorrowRate =>
                let borrowAmount :=
                  (getBorrowAmount borrow' * cumulativeBorrowRate
                   / obligationCumulativeBorrowRate)%dec in
                let borrowValueUsd :=
                  (borrowAmount * getPx reserve
                   / KaminoReserve.getMintFactor reserve)%dec in
                let borrowFactor :=
                  getBorrowFactorForReserve reserve elevationGroup in
                let borrowValueBorrowFactorAdjustedUsd :=
                  (borrowValueUsd * borrowFactor)%dec in
                let positions :=
                  if negb (Dec.eq borrowAmount (Dec.ofZ 0))
                  then BorrowStats.positions acc + 1
                  else BorrowStats.positions acc in
                let position :=
                  {| reserveAddress := KaminoReserve.address reserve;
                     mintAddress := KaminoReserve.getLiquidityMint reserve;
                     amount := borrowAmount;
                     marketValueRefreshed := borrowValueUsd |} in
                let acc' :=
                  {| BorrowStats.borrows :=
                       PubkeyHashMap.set (KaminoReserve.address reserve) position
                                         (BorrowStats.borrows acc);
                     BorrowStats.userTotalBorrow :=
                       (BorrowStats.userTotalBorrow acc + borrowValueUsd)%dec;
                     BorrowStats.userTotalBorrowBorrowFactorAdjusted :=
                       (BorrowStats.userTotalBorrowBorrowFactorAdjusted acc
                        + borrowValueBorrowFactorAdjustedUsd)%dec;
                     BorrowStats.positions := positions |} in
                let (outcome, rest') :=
                  borrowsLoop market elevationGroup cumulativeBorrowRates getPx
                              rest acc' in
                (outcome, borrow' :: rest')
            end
        end
  end.

Definition calculateObligationBorrows
           (market : Market.t) (obligation : Obligation.t)
           (cumulativeBorrowRates : option (PubkeyHashMap Decimal))
           (getPx : KaminoReserve.t -> Decimal)
  : Result BorrowStats.t * Obligation.t :=
  let (outcome, entries) :=
    borrowsLoop market (Obligation.elevationGroup obligation)
                cumulativeBorrowRates getPx (Obligation.borrows obligation)
                {| BorrowStats.borrows := [];
                   BorrowStats.userTotalBorrow := Dec.ofZ 0;
                   BorrowStats.userTotalBorrowBorrowFactorAdjusted := Dec.ofZ 0;
                   BorrowStats.positions := 0 |} in
  (outcome,
   {| Obligation.elevationGroup := Obligation.elevationGroup obligation;
      Obligation.borrows := entries |}).

(** [calculatePositions] and the constructor: the positions and the stats
    of the new instance, and the decoded obligation after the call (the
    instance keeps it as its [state]; its address and its tag are left
    out). *)
Definition calculatePositions
           (market : Market.t) (obligation : Obligation.account)
           (collateralExchangeRates cumulativeBorrowRates : PubkeyHashMap Decimal)
  : Result (PubkeyHashMap Position * PubkeyHashMap Position * ObligationStats.t)
    * Obligation.account :=
  match getElevationGroups obligation market with
  | Throw message => (Throw message, obligation)
  | Ok commonElevationGroups =>
      let getOraclePx := fun reserve => KaminoReserve.getOracleMarketPrice reserve in
      match calculateObligationDeposits
              market obligation (Some collateralExchangeRates) getOraclePx with
      | Throw message => (Throw message, obligation)
      | Ok depositStatsOraclePrice =>
          let (outcome, state) :=
            calculateObligationBorrows
              market obligation (Some cumulativeBorrowRates) getOraclePx in
          let obligation :=
            {| Obligation.obligation := state;
               Obligation.deposits := Obligation.deposits obligation |} in
          match outcome with
          | Throw message => (Throw message, obligation)
          | Ok borrowStatsOraclePrice =>
              let netAccountValueScopeRefreshed :=
                (DepositStats.userTotalDeposit depositStatsOraclePrice
                 - BorrowStats.userTotalBorrow borrowStatsOraclePrice)%dec in
              (Ok (DepositStats.deposits depositStatsOraclePrice,
                   BorrowStats.borrows borrowStatsOraclePrice,
                   {| ObligationStats.userTotalDeposit :=
                        DepositStats.userTotalDeposit depositStatsOraclePrice;
                      ObligationStats.userTotalBorrow :=
                        BorrowStats.userTotalBorrow borrowStatsOraclePrice;
                      ObligationStats.userTotalBorrowBorrowFactorAdjusted :=
                        BorrowStats.userTotalBorrowBorrowFactorAdjusted
                          borrowStatsOraclePrice;
                      ObligationStats.borrowLimit :=
                        DepositStats.borrowLimit depositStatsOraclePrice;
                      ObligationStats.borrowLiquidationLimit :=
                        DepositStats.borrowLiquidationLimit
                          depositStatsOraclePrice;
                      ObligationStats.borrowUtilization :=
                        (BorrowStats.userTotalBorrowBorrowFactorAdjusted
                           borrowStatsOraclePrice
                         / DepositStats.borrowLimit depositStatsOraclePrice)%dec;
                      ObligationStats.netAccountValue :=
                        netAccountValueScopeRefreshed;
                      ObligationStats.loanToValue :=
                        (BorrowStats.userTotalBorrowBorrowFactorAdjusted
                           borrowStatsOraclePrice
                         / DepositStats.userTotalDeposit
                             depositStatsOraclePrice)%dec;
                      ObligationStats.liquidationLtv :=
                        DepositStats.liquidationLtv depositStatsOraclePrice;
                      ObligationStats.leverage :=
                        (DepositStats.userTotalDeposit depositStatsOraclePrice
                         / netAccountValueScopeRefreshed)%dec;
                      ObligationStats.potentialElevationGroupUpdate :=
                        commonElevationGroups |}),
               obligation)
          end
      end
  end.

Definition new
           (market : Market.t) (obligation : Obligation.account)
           (collateralExchangeRates cumulativeBorrowRates : PubkeyHashMap Decimal)
  : Result t * Obligation.account :=
  let (outcome, obligation) :=
    calculatePositions market obligation
                       collateralExchangeRates cumulativeBorrowRates in
  match outcome with
  | Throw message => (Throw message, obligation)
  | Ok (deposits, borrows, refreshedStats) =>
      (Ok {| state := obligation;
             deposits := deposits;
             borrows := borrows;
             refreshedStats := refreshedStats |},
       obligation)
  end.

(** *** Rates for an obligation *)

(** The body of the loops of [getCollateralExchangeRatesForObligation] and
    [addCollateralExchangeRatesForObligation], the same in both, and of
    the two loops for the cumulative borrow rates. *)
Definition collateralExchangeRateBody
           (kaminoMarket : Market.t) (slot : Z)
           (deposit : ObligationCollateral.t)
           (collateralExchangeRates : PubkeyHashMap Decimal)
  : Result unit * PubkeyHashMap Decimal :=
  if isNotNullPubkey (ObligationCollateral.depositReserve deposit)
     && negb (PubkeyHashMap.has (ObligationCollateral.depositReserve deposit)
                                collateralExchangeRates)
  then
    match Market.getReserveByAddress
            kaminoMarket (ObligationCollateral.depositReserve deposit) with
    | None =>
        (Throw (TypeError_undefined "getEstimatedCollateralExchangeRate"),
         collateralExchangeRates)
    | Some reserve =>
        let collateralExchangeRate :=
          KaminoReserve.getEstimatedCollateralExchangeRate
            SLOTS_PER_YEAR calculateBorrowAPR INITIAL_COLLATERAL_RATE
            reserve slot (Market.referralFeeBps kaminoMarket) in
        (Ok tt,
         PubkeyHashMap.set (KaminoReserve.address reserve)
                           collateralExchangeRate collateralExchangeRates)
    end
  else (Ok tt, collateralExchangeRates).

Definition cumulativeBorrowRateBody
           (kaminoMarket : Market.t) (slot : Z)
           (borrow : ObligationLiquidity.t)
           (cumulativeBorrowRates : PubkeyHashMap Decimal)
  : Result unit * PubkeyHashMap Decimal :=
  if isNotNullPubkey (ObligationLiquidity.borrowReserve borrow)
     && negb (PubkeyHashMap.has (ObligationLiquidity.borrowReserve borrow)
                                cumulativeBorrowRates)
  then
    match Market.getReserveByAddress
            kaminoMarket (ObligationLiquidity.borrowReserve borrow) with
    | None =>
        (Throw (TypeError_undefined "getEstimatedCumulativeBorrowRate"),
         cumulativeBorrowRates)
    | Some reserve =>
        let cumulativeBorrowRate :=
          KaminoReserve.getEstimatedCumulativeBorrowRate
            SLOTS_PER_YEAR calculateBorrowAPR reserve slot in
        (Ok tt,
         PubkeyHashMap.set (KaminoReserve.address reserve)
                           cumulativeBorrowRate cumulativeBorrowRates)
    end
  else (Ok tt, cumulativeBorrowRates).

(** The [add] functions update the map they are given: the second
    component is the map after the call. *)
Definition addCollateralExchangeRatesForObligation
           (kaminoMarket : Market.t)
           (collateralExchangeRates : PubkeyHashMap Decimal)
           (obligation : Obligation.account) (slot : Z)
  : Result unit * PubkeyHashMap Decimal :=
  forEachM (collateralExchangeRateBody kaminoMarket slot)
           (Obligation.deposits obligation) collateralExchangeRates.

Definition addCumulativeBorrowRatesForObligation
           (kaminoMarket : Market.t)
           (cumulativeBorrowRates : PubkeyHashMap Decimal)
           (obligation : Obligation.t) (slot : Z)
  : Result unit * PubkeyHashMap Decimal :=
  forEachM (cumulativeBorrowRateBody kaminoMarket slot)
           (Obligation.borrows obligation) cumulativeBorrowRates.

Definition getCollateralExchangeRatesForObligation
           (kaminoMarket : Market.t) (obligation : Obligation.account)
           (slot : Z) : Result (PubkeyHashMap Decimal) :=
  let collateralExchangeRates : PubkeyHashMap Decimal := [] in
  match forEachM (collateralExchangeRateBody kaminoMarket slot)
                 (Obligation.deposits obligation) collateralExchangeRates with
  | (Ok _, collateralExchangeRates) => Ok collateralExchangeRates
  | (Throw message, _) => Throw message
  end.

Definition getCumulativeBorrowRatesForObligation
           (kaminoMarket : Market.t) (obligation : Obligation.t)
           (slot : Z) : Result (PubkeyHashMap Decimal) :=
  let cumulativeBorrowRates : PubkeyHashMap Decimal := [] in
  match forEachM (cumulativeBorrowRateBody kaminoMarket slot)
                 (Obligation.borrows obligation) cumulativeBorrowRates with
  | (Ok _, cumulativeBorrowRates) => Ok cumulativeBorrowRates
  | (Throw message, _) => Throw message
  end.

(** [getRatesForObligation]:
    [(collateralExchangeRates, cumulativeBorrowRates)]. *)
Definition getRatesForObligation
           (kaminoMarket : Market.t) (obligation : Obligation.account)
           (slot : Z)
  : Result (PubkeyHashMap Decimal * PubkeyHashMap Decimal) :=
  (collateralExchangeRates <-
     getCollateralExchangeRatesForObligation kaminoMarket obligation slot ;;
   cumulativeBorrowRates <-
     getCumulativeBorrowRatesForObligation kaminoMarket obligation slot ;;
   Ok (collateralExchangeRates, cumulativeBorrowRates))%result.

(** [addRatesForObligation]: the outcome and the two maps after the
    call. *)
Definition addRatesForObligation
           (kaminoMarket : Market.t) (obligation : Obligation.account)
           (collateralExchangeRates cumulativeBorrowRates : PubkeyHashMap Decimal)
           (slot : Z)
  : Result unit * (PubkeyHashMap Decimal * PubkeyHashMap Decimal) :=
  match addCollateralExchangeRatesForObligation
          kaminoMarket collateralExchangeRates obligation slot with
  | (Throw message, collateralExchangeRates) =>
      (Throw message, (collateralExchangeRates, cumulativeBorrowRates))
  | (Ok _, collateralExchangeRates) =>
      let (outcome, cumulativeBorrowRates) :=
        addCumulativeBorrowRatesForObligation
          kaminoMarket cumulativeBorrowRates obligation slot in
      (outcome, (collateralExchangeRates, cumulativeBorrowRates))
  end.

End Positions.

End KaminoObligation.

(** ** Notions of the specification *)

(** The third-order expansion
    [1 + n*base + n*(n-1)/2*base^2 + n*(n-1)*(n-2)/6*base^3]. *)
Definition taylorExpansion3 (base : Decimal) (n : Z) : Decimal :=
  (Dec.one
   + Dec.ofZ n * base
   + Dec.ofZ n * Dec.ofZ (n - 1) / Dec.ofZ 2 * Dec.pow base 2
   + Dec.ofZ n * Dec.ofZ (n - 1) * Dec.ofZ (n - 2) / Dec.ofZ 6
     * Dec.pow base 3)%dec.

(** A call threw. *)
Definition threw {A : Type} (r : Result A) : Prop :=
  exists message, r = Throw message.

(** No reserve of the map has the requested liquidity mint. *)
Definition noReserveForMint
           (reserves : PubkeyHashMap KaminoReserve.t) (mint : PublicKey) : Prop :=
  Forall (fun r => KaminoReserve.getLiquidityMint r <> mint)
         (PubkeyHashMap.values reserves).

(** The reserve the simulation works on (the one the loop over the map ends
    with) does not list the elevation group among its own. *)
Definition elevationGroupExcluded
           (reserves : PubkeyHashMap KaminoReserve.t) (mint : PublicKey)
           (elevationGroup : Z) : Prop :=
  exists reserve,
    lastMatch (fun r => PublicKey_equals (KaminoReserve.getLiquidityMint r) mint)
              (PubkeyHashMap.values reserves) = Some reserve
    /\ ~ In elevationGroup (elevationGroups (config (KaminoReserve.state reserve))).

Definition simulatedActions : list string :=
  ["deposit"; "withdraw"; "borrow"; "repay"; "depositAndBorrow";
   "repayAndWithdraw"]%string.

(** The number of times a group id occurs in the [elevationGroups] arrays
    of a list of reserves, taken together. *)
Definition elevationGroupOccurrences
           (reserves : list KaminoReserve.t) (group : Z) : nat :=
  count_occ Z.eq_dec
            (flat_map (fun r => elevationGroups (config (KaminoReserve.state r)))
                      reserves)
            group.

(** No reserve of the list repeats a non-zero group id. *)
Definition noRepeatedGroup (reserves : list KaminoReserve.t) : Prop :=
  Forall (fun r =>
            NoDup (filter (fun g => negb (g =? 0))
                          (elevationGroups (config (KaminoReserve.state r)))))
         reserves.

(** A reserve with another [config.borrowLimit], and with another
    [config.borrowFactorPct]; everything else is kept. *)
Definition withConfig (c : ReserveConfig) (r : KaminoReserve.t) : KaminoReserve.t :=
  {| KaminoReserve.state :=
       {| liquidity := liquidity (KaminoReserve.state r);
          config := c;
          lastUpdateSlot := lastUpdateSlot (KaminoReserve.state r) |};
     KaminoReserve.address := KaminoReserve.address r;
     KaminoReserve.tokenOraclePrice := KaminoReserve.tokenOraclePrice r |}.

Definition withBorrowLimit (v : N) (r : KaminoReserve.t) : KaminoReserve.t :=
  let c := config (KaminoReserve.state r) in
  withConfig
    {| elevationGroups := elevationGroups c;
       borrowFactorPct := borrowFactorPct c;
       borrowLimit := v;
       borrowRateCurve := borrowRateCurve c;
       protocolTakeRatePct := protocolTakeRatePct c;
       hostFixedInterestRateBps := hostFixedInterestRateBps c;
       loanToValuePct := loanToValuePct c;
       liquidationThresholdPct := liquidationThresholdPct c;
       disableUsageAsCollOutsideEmode := disableUsageAsCollOutsideEmode c;
       borrowFeeSf := borrowFeeSf c;
       debtWithdrawalCap := debtWithdrawalCap c;
       depositWithdrawalCap := depositWithdrawalCap c |}
    r.

Definition withBorrowFactorPct (v : N) (r : KaminoReserve.t) : KaminoReserve.t :=
  let c := config (KaminoReserve.state r) in
  withConfig
    {| elevationGroups := elevationGroups c;
       borrowFactorPct := v;
       borrowLimit := borrowLimit c;
       borrowRateCurve := borrowRateCurve c;
       protocolTakeRatePct := protocolTakeRatePct c;
       hostFixedInterestRateBps := hostFixedInterestRateBps c;
       loanToValuePct := loanToValuePct c;
       liquidationThresholdPct := liquidationThresholdPct c;
       disableUsageAsCollOutsideEmode := disableUsageAsCollOutsideEmode c;
       borrowFeeSf := borrowFeeSf c;
       debtWithdrawalCap := debtWithdrawalCap c;
       depositWithdrawalCap := depositWithdrawalCap c |}
    r.

(** The number of input reserves that list a group, and the membership
    test of the specification: a group is in the result exactly when every
    input reserve lists it. *)
Definition listedBy (reserves : list KaminoReserve.t) (group : Z) : nat :=
  List.length
    (filter (fun r => includes (elevationGroups (config (KaminoReserve.state r)))
                               group)
            reserves).

Definition everyReserveLists (reserves : list KaminoReserve.t) (group : Z) : Prop :=
  In group (KaminoObligation.getElevationGroupsForReserves reserves) <->
  group <> 0 /\ listedBy reserves group = List.length reserves.

(** The largest withdrawal of the specification: the whole deposit without
    debt, nothing at or over the borrow limit, and otherwise the value left
    under the limit, with the haircut, in tokens, clamped from above by the
    deposit, the available liquidity and what is left of the withdrawal
    cap, and floored at zero. *)
Definition maxWithdrawAmountOfSpec
           (debt limit maxLtv depositAmount price mintFactor liquidity
                 capRemained : Decimal) : Decimal :=
  if Dec.eq debt (Dec.ofZ 0) then depositAmount
  else if Dec.gte debt limit then Dec.ofZ 0
  else
    Dec.max
      [Dec.ofZ 0;
       Dec.min [depositAmount;
                ((limit - debt) / maxLtv * Dec.ofQ (995 # 1000)
                 / price * mintFactor)%dec;
                liquidity;
                capRemained]].

(** The sum of the limbs of a scaled fraction. *)
Definition sumOfLimbs (limbs : list N) : N := fold_right N.add 0%N limbs.

(** ** Notions of the further properties *)

(** The addresses the used deposit and borrow entries of an obligation
    refer to, deposits first. *)
Definition referencedReserves (state : Obligation.account) : list PublicKey :=
  filter isNotNullPubkey
         (map ObligationCollateral.depositReserve (Obligation.deposits state)
          ++ map ObligationLiquidity.borrowReserve (Obligation.borrows state)).

(** The market hands out, for an address, the reserve at that address. *)
Definition reservesByAddress (market : Market.t) : Prop :=
  forall address reserve,
    Market.getReserveByAddress market address = Some reserve ->
    KaminoReserve.address reserve = address.

(** The sum of a list of values, added from the first one on. *)
Definition sumOf (values : list Decimal) : Decimal :=
  fold_left Dec.add values (Dec.ofZ 0).

(** A borrow entry after a call of [getCumulativeBorrowRate] on it, for an
    entry that is used. *)
Definition reversedWhenUsed (borrow : ObligationLiquidity.t)
  : ObligationLiquidity.t :=
  if isNotNullPubkey (ObligationLiquidity.borrowReserve borrow)
  then ObligationLiquidity.set_cumulativeBorrowRateBsf
         (rev (ObligationLiquidity.cumulativeBorrowRateBsf borrow)) borrow
  else borrow.

(** The actions [calcSimulatedUtilizationRatio] knows, and the two of them
    that take an outflow amount. *)
Definition utilizationActions : list string :=
  ["deposit"; "withdraw"; "borrow"; "repay"; "depositAndBorrow";
   "repayAndWithdraw"; "mint"; "redeem"]%string.

Definition combinedActions : list string :=
  ["depositAndBorrow"; "repayAndWithdraw"]%string.

(** ** Notions the proofs use *)

(** The body the four loops over the rates of an obligation share: for an
    entry that is used and whose reserve has no rate yet, the rate of the
    reserve the market knows at that address is stored under the address
    of this reserve. *)
Definition ratesBody {B : Type} (kaminoMarket : Market.t)
           (key : B -> PublicKey) (rate : KaminoReserve.account -> Decimal)
           (message : string) (item : B) (rates : PubkeyHashMap Decimal)
  : Result unit * PubkeyHashMap Decimal :=
  if isNotNullPubkey (key item) && negb (PubkeyHashMap.has (key item) rates)
  then
    match Market.getReserveByAddress kaminoMarket (key item) with
    | None => (Throw message, rates)
    | Some reserve =>
        (Ok tt, PubkeyHashMap.set (KaminoReserve.address reserve)
                                  (rate reserve) rates)
    end
  else (Ok tt, rates).

(** The three ways a leg of the simulation can end. *)
Inductive LegOutcome (reserves : PubkeyHashMap KaminoReserve.t)
          (mint : PublicKey) (elevationGroup : Z) : Prop :=
| LegNoReserve :
    noReserveForMint reserves mint ->
    ~ elevationGroupExcluded reserves mint elevationGroup ->
    LegOutcome reserves mint elevationGroup
| LegExcluded :
    ~ noReserveForMint reserves mint ->
    elevationGroupExcluded reserves mint elevationGroup ->
    LegOutcome reserves mint elevationGroup
| LegRuns reserve :
    ~ noReserveForMint reserves mint ->
    ~ elevationGroupExcluded reserves mint elevationGroup ->
    lastMatch (fun r => PublicKey_equals (KaminoReserve.getLiquidityMint r) mint)
              (PubkeyHashMap.values reserves) = Some reserve ->
    includes (elevationGroups (config (KaminoReserve.state reserve)))
             elevationGroup = true ->
    LegOutcome reserves mint elevationGroup.

(** The count a map holds for a group, [0] when it holds none. *)
Definition countOf (m : list (Z * Z)) (g : Z) : Z :=
  match NumberMap.get g m with Some v => v | None => 0 end.

Definition countsInvariant (m : list (Z * Z)) : Prop :=
  NoDup (map fst m) /\ Forall (fun e => fst e <> 0 /\ 1 <= snd e) m.

(** The smaller and the larger of two rationals, as [Decimal.min] and
    [Decimal.max] pick them. *)
Definition qmin (a b : Qc) : Qc :=
  match (a ?= b)%Qc with Gt => b | _ => a end.

Definition qmax (a b : Qc) : Qc :=
  match (a ?= b)%Qc with Lt => b | _ => a end.

(** What [getMaxBorrowAmount] does once the borrow power of the obligation
    and the remaining borrow cap of the reserve are known. *)
Definition borrowSizing (available debtCap feeRate : Decimal) (capActive : bool)
           (power capRemained : Decimal) : Decimal :=
  let maxBorrowAmount := Dec.min [power; available; capRemained] in
  let maxBorrowAmount :=
    if capActive then Dec.min [maxBorrowAmount; debtCap] else maxBorrowAmount in
  let borrowFee := (maxBorrowAmount * feeRate)%dec in
  Dec.max [Dec.ofZ 0; (maxBorrowAmount - borrowFee)%dec].

(** The same on rationals, from the smallest of the borrow power, the
    available amount and the remaining cap on. *)
Definition qsizing (a d f : Qc) (capActive : bool) (m : Qc) : Qc :=
  let m := if capActive then qmin m d else m in
  qmax 0 (m + - (m * f))%Qc.

(** [x.lte(y)] holds. *)
Definition Dle (x y : Decimal) : Prop := Dec.lte x y = true.

(** [u'] lies between zero and [u]. *)
Definition between0 (u u' : Decimal) : Prop :=
  (Dle (Fin 0) u' /\ Dle u' u) \/ (Dle u u' /\ Dle u' (Fin 0)).

(** What a larger divisor does to a quotient: it stays as it is or moves
    towards zero, unless one of the two is not a number. *)
Definition shrunk (u u' : Decimal) : Prop :=
  u = NaN \/ u' = NaN \/ u = u' \/ between0 u u'.

(** The parts of [getMaxBorrowAmount], by the names the source gives them:
    [elevationGroupActivated], [maxObligationBorrowPower] for a borrow
    factor, the inclusive [originationFeeRate], [debtWithdrawalCap] and
    [reserveBorrowCapRemained]. *)
Definition elevationGroupActivated
           (this : KaminoObligation.t) (reserve : KaminoReserve.t) : bool :=
  includes (elevationGroups (config (KaminoReserve.state reserve)))
           (Obligation.elevationGroup (KaminoObligation.state this))
  && negb (Obligation.elevationGroup (KaminoObligation.state this) =? 0).

Definition borrowPower (this : KaminoObligation.t) (reserve : KaminoReserve.t)
           (borrowFactor : Decimal) : Decimal :=
  ((ObligationStats.borrowLimit (KaminoObligation.refreshedStats this)
    - ObligationStats.userTotalBorrowBorrowFactorAdjusted
        (KaminoObligation.refreshedStats this))
   / borrowFactor
   / KaminoReserve.getOracleMarketPrice reserve
   * KaminoReserve.getMintFactor reserve)%dec.

Definition originationFeeShare (reserve : KaminoReserve.t) : Decimal :=
  (KaminoReserve.getBorrowFee reserve
   / (KaminoReserve.getBorrowFee reserve + Dec.ofZ 1))%dec.

Definition debtWithdrawalCapRemained
           (SLOTS_PER_DAY : Z) (reserve : KaminoReserve.t) (slot : Z)
  : Decimal :=
  (KaminoReserve.getDebtWithdrawalCapCapacity reserve
   - KaminoReserve.getDebtWithdrawalCapCurrent SLOTS_PER_DAY reserve slot)%dec.

Definition borrowCapRemained (this : KaminoObligation.t)
           (reserve : KaminoReserve.t) : Decimal :=
  if (disableUsageAsCollOutsideEmode (config (KaminoReserve.state reserve)) =? 1)
     && negb (elevationGroupActivated this reserve)
  then Dec.ofZ 0
  else (KaminoReserve.stats_reserveBorrowLimit reserve
        - KaminoReserve.getBorrowedAmount reserve)%dec.

(** ** Sample data *)

Module Sample.

Definition SLOTS_PER_YEAR : Z := 63072000.
Definition SLOTS_PER_DAY : Z := 172800.

Definition curve : list CurvePointFields :=
  [ {| utilizationRateBps := 0; borrowRateBps := 1 |};
    {| utilizationRateBps := 8000; borrowRateBps := 300 |};
    {| utilizationRateBps := 10000; borrowRateBps := 7500 |};
    {| utilizationRateBps := 10000; borrowRateBps := 9000 |} ].

Definition reserveConfig (groups : list Z) : ReserveConfig :=
  {| elevationGroups := groups;
     borrowFactorPct := 100;
     borrowLimit := 1000000;
     borrowRateCurve := curve;
     protocolTakeRatePct := 15;
     hostFixedInterestRateBps := 1000;
     loanToValuePct := 50;
     liquidationThresholdPct := 60;
     disableUsageAsCollOutsideEmode := 0;
     borrowFeeSf := 0;
     debtWithdrawalCap := {| configCapacity := 0; currentTotal := 0 |};
     depositWithdrawalCap := {| configCapacity := 1000000; currentTotal := 0 |} |}.

Definition reserveLiquidity (mint : PublicKey) : ReserveLiquidity :=
  {| mintPubkey := mint;
     mintDecimals := 0;
     availableAmount := 1000;
     borrowedAmountSf := 100 * 2 ^ 60;
     accumulatedProtocolFeesSf := 0;
     accumulatedReferrerFeesSf := 0;
     pendingReferrerFeesSf := 0;
     cumulativeBorrowRateBsf := [2 ^ 60; 0; 0; 0]%N |}.

Definition reserveOf (address mint : PublicKey) (groups : list Z)
  : KaminoReserve.t :=
  {| KaminoReserve.state :=
       {| liquidity := reserveLiquidity mint;
          config := reserveConfig groups;
          lastUpdateSlot := 100 |};
     KaminoReserve.address := address;
     KaminoReserve.tokenOraclePrice := Dec.ofZ 1 |}.

(** Reserve A (address 10, mint 1) lists group 7; reserve B (address 20,
    mint 2) lists no group. *)
Definition reserveA : KaminoReserve.t := reserveOf 10 1 [7; 0; 0].
Definition reserveB : KaminoReserve.t := reserveOf 20 2 [0; 0; 0].

(** A reserve that lists group 7 twice, and one that lists nothing. *)
Definition reserveTwice : KaminoReserve.t := reserveOf 30 3 [7; 7].
Definition reserveNone : KaminoReserve.t := reserveOf 40 4 [].

Definition reserves : PubkeyHashMap KaminoReserve.t :=
  [(10%N, reserveA); (20%N, reserveB)].

Definition marketOf (a : KaminoReserve.t) : KaminoMarket :=
  {| getReserveByMint :=
       fun mint =>
         if PublicKey_equals mint 1 then Some a
         else if PublicKey_equals mint 2 then Some reserveB
         else None;
     getElevationGroup :=
       fun _ => {| ElevationGroup.ltvPct := 90;
                   ElevationGroup.liquidationThresholdPct := 95 |} |}.

Definition market : KaminoMarket := marketOf reserveA.

(** An obligation outside any elevation group: 20 tokens deposited in
    reserve A (price 1, loan-to-value 50%: a borrow limit of 10) and 9
    tokens borrowed from reserve B. *)
Definition stats : ObligationStats.t :=
  {| ObligationStats.userTotalDeposit := Dec.ofZ 20;
     ObligationStats.userTotalBorrow := Dec.ofZ 9;
     ObligationStats.userTotalBorrowBorrowFactorAdjusted := Dec.ofZ 9;
     ObligationStats.borrowLimit := Dec.ofZ 10;
     ObligationStats.borrowLiquidationLimit := Dec.ofZ 12;
     ObligationStats.borrowUtilization := Dec.ofQ (9 # 10);
     ObligationStats.netAccountValue := Dec.ofZ 11;
     ObligationStats.loanToValue := Dec.ofQ (9 # 20);
     ObligationStats.liquidationLtv := Dec.ofQ (12 # 20);
     ObligationStats.leverage := Dec.ofQ (20 # 11);
     ObligationStats.potentialElevationGroupUpdate := [] |}.

Definition borrowB : ObligationLiquidity.t :=
  {| ObligationLiquidity.borrowReserve := 20;
     ObligationLiquidity.cumulativeBorrowRateBsf := [2 ^ 60; 0; 0; 0]%N;
     ObligationLiquidity.borrowedAmountSf := 9 * 2 ^ 60 |}.

Definition obligationWith (s : ObligationStats.t) : KaminoObligation.t :=
  {| KaminoObligation.state :=
       {| Obligation.elevationGroup := 0;
          Obligation.borrows := [borrowB] |};
     KaminoObligation.deposits :=
       [(10%N, {| reserveAddress := 10; mintAddress := 1;
                  amount := Dec.ofZ 20; marketValueRefreshed := Dec.ofZ 20 |})];
     KaminoObligation.borrows :=
       [(20%N, {| reserveAddress := 20; mintAddress := 2;
                  amount := Dec.ofZ 9; marketValueRefreshed := Dec.ofZ 9 |})];
     KaminoObligation.refreshedStats := s |}.

Definition obligation : KaminoObligation.t := obligationWith stats.

(** The same obligation with another debt. *)
Definition obligationOwing (debt : Z) : KaminoObligation.t :=
  obligationWith
    (ObligationStats.set_userTotalBorrowBorrowFactorAdjusted
       (Dec.ofZ debt) (ObligationStats.set_userTotalBorrow (Dec.ofZ debt) stats)).

Definition borrowAPR (r : KaminoReserve.t) : Decimal := Dec.ofQ (3 # 100).

Definition INITIAL_COLLATERAL_RATE : Decimal := Dec.ofZ 1.
Definition U64_MAX : N := 18446744073709551615.

(** The accounts of the reserves: 2200 collateral tokens minted (against a
    supply of 1100), borrowing blocked above 80% utilization, 400 tokens
    left to borrow outside elevation groups and 250 in group 7. *)
Definition accountOf (r : KaminoReserve.t) : KaminoReserve.account :=
  {| KaminoReserve.reserve := r;
     KaminoReserve.mintTotalSupply := 2200;
     KaminoReserve.depositLimit := 1000000;
     KaminoReserve.utilizationLimitBlockBorrowingAbove := 80;
     KaminoReserve.borrowLimitOutsideElevationGroup := 500;
     KaminoReserve.borrowedAmountOutsideElevationGroup := 100;
     KaminoReserve.borrowLimitAgainstThisCollateralInElevationGroup :=
       [0; 0; 0; 0; 0; 0; 300]%N;
     KaminoReserve.borrowedAmountsAgainstThisReserveInElevationGroups :=
       [0; 0; 0; 0; 0; 0; 50]%N |}.

Definition accountA : KaminoReserve.account := accountOf reserveA.
Definition accountB : KaminoReserve.account := accountOf reserveB.

(** The seven elevation groups of the market; reserve A is the debt
    reserve of group 7. *)
Definition groupOf (id : Z) (debtReserve : PublicKey) : ElevationGroupFields.t :=
  {| ElevationGroupFields.id := id;
     ElevationGroupFields.ltvPct := 90;
     ElevationGroupFields.liquidationThresholdPct := 95;
     ElevationGroupFields.debtReserve := debtReserve |}.

Definition groups : list ElevationGroupFields.t :=
  [groupOf 1 0; groupOf 2 0; groupOf 3 0; groupOf 4 0; groupOf 5 0;
   groupOf 6 0; groupOf 7 10].

Definition marketAccount : Market.t :=
  {| Market.lookups := market;
     Market.getReserveByAddress :=
       fun address =>
         if PublicKey_equals address 10 then Some accountA
         else if PublicKey_equals address 20 then Some accountB
         else None;
     Market.elevationGroups := groups;
     Market.referralFeeBps := 0 |}.

(** The decoded obligation: 40 collateral tokens of reserve A deposited,
    the borrow from reserve B, and an unused entry of each kind. *)
Definition depositA : ObligationCollateral.t :=
  {| ObligationCollateral.depositReserve := 10;
     ObligationCollateral.depositedAmount := 40;
     ObligationCollateral.marketValueSf := 20 * 2 ^ 60 |}.

Definition unusedDeposit : ObligationCollateral.t :=
  {| ObligationCollateral.depositReserve := 0;
     ObligationCollateral.depositedAmount := 0;
     ObligationCollateral.marketValueSf := 0 |}.

Definition unusedBorrow : ObligationLiquidity.t :=
  {| ObligationLiquidity.borrowReserve := 0;
     ObligationLiquidity.cumulativeBorrowRateBsf := [0; 0; 0; 0]%N;
     ObligationLiquidity.borrowedAmountSf := 0 |}.

Definition obligationAccount : Obligation.account :=
  {| Obligation.obligation :=
       {| Obligation.elevationGroup := 0;
          Obligation.borrows := [borrowB; unusedBorrow] |};
     Obligation.deposits := [depositA; unusedDeposit] |}.

Definition unusedAccount : Obligation.account :=
  {| Obligation.obligation :=
       {| Obligation.elevationGroup := 0;
          Obligation.borrows := [unusedBorrow] |};
     Obligation.deposits := [unusedDeposit; unusedDeposit] |}.

(** *** The reserve of [reserve_calcs.test.ts] *)

(** Modelled from the spec: [Fraction.toDecimal] divides the raw integer
    by the scale factor.  The specification gives [2^60] for it; the values
    that the tests of the repository expect are the quotients by
    1152921504606847000, the digits JavaScript prints for the number
    [2 ** 60], and that is the factor taken here. *)
Definition Fraction_MULTIPLIER : Z := 1152921504606847000.

Definition Fraction_toDecimal (round : Qc -> Qc) (valueSf : N) : Decimal :=
  Rounded.div round (Dec.ofN valueSf) (Dec.ofZ Fraction_MULTIPLIER).

Definition SLOTS_PER_SECOND : Z := 2.

(** [testCurve()]. *)
Definition testCurve : list CurvePointFields :=
  [ {| utilizationRateBps := 0; borrowRateBps := 1 |};
    {| utilizationRateBps := 8000; borrowRateBps := 300 |};
    {| utilizationRateBps := 8500; borrowRateBps := 670 |};
    {| utilizationRateBps := 9000; borrowRateBps := 1500 |};
    {| utilizationRateBps := 9500; borrowRateBps := 3354 |};
    {| utilizationRateBps := 10000; borrowRateBps := 7500 |} ].

(** [testKaminoReserve] with 1000000 tokens available, a borrowed amount
    of 100000000 (raw), a protocol take rate of 15% and the given fixed
    host interest rate; every other amount is zero. *)
Definition testReserve (hostFixedInterestRateBps : Z) (curve : list CurvePointFields)
  : KaminoReserve.t :=
  {| KaminoReserve.state :=
       {| liquidity :=
            {| mintPubkey := 0;
               mintDecimals := 6;
               availableAmount := 1000000;
               borrowedAmountSf := 100000000;
               accumulatedProtocolFeesSf := 0;
               accumulatedReferrerFeesSf := 0;
               pendingReferrerFeesSf := 0;
               cumulativeBorrowRateBsf := [] |};
          config :=
            {| elevationGroups := [];
               borrowFactorPct := 0;
               borrowLimit := 0;
               borrowRateCurve := curve;
               protocolTakeRatePct := 15;
               hostFixedInterestRateBps := hostFixedInterestRateBps;
               loanToValuePct := 0;
               liquidationThresholdPct := 0;
               disableUsageAsCollOutsideEmode := 0;
               borrowFeeSf := 0;
               debtWithdrawalCap := {| configCapacity := 0; currentTotal := 0 |};
               depositWithdrawalCap :=
                 {| configCapacity := 0; currentTotal := 0 |} |};
          lastUpdateSlot := 0 |};
     KaminoReserve.address := 0;
     KaminoReserve.tokenOraclePrice := Dec.ofZ 1 |}.

(** An interpretation of numbers for the examples: rationals, without
    the rounding of doubles. *)
Definition rationals : Rounded.Numbers :=
  {| Rounded.number := Qc;
     Rounded.ofInteger := fun z => Q2Qc (inject_Z z);
     Rounded.times := Qcmult;
     Rounded.over := Qcdiv;
     Rounded.toNumber :=
       fun d => match d with Fin q => q | _ => 0%Qc end;
     Rounded.ofNumber := Fin |}.

(** Modelled from the spec: [getBorrowRate] fails on an empty curve,
    returns the rate of the first point at or before it and the rate of
    the last point at or after it, and between two points interpolates
    linearly (the rate of the first of the two when they have the same
    utilization). *)
Fixpoint interpolate (utilization : Qc) (prev : Qc * Qc)
         (rest : list (Qc * Qc)) : Qc :=
  match rest with
  | [] => snd prev
  | next :: rest' =>
      if Qcleb utilization (fst next) then
        if Qc_eq_bool (fst next) (fst prev) then snd prev
        else (snd prev
              + (snd next - snd prev) * (utilization - fst prev)
                / (fst next - fst prev))%Qc
      else interpolate utilization next rest'
  end.

Definition getBorrowRate (utilization : Qc) (curve : list (Qc * Qc))
  : Result Qc :=
  match curve with
  | [] => Throw "Invalid borrow rate curve"
  | first :: rest =>
      if Qcleb utilization (fst first) then Ok (snd first)
      else Ok (interpolate utilization first rest)
  end.

(** The reserve object of the tests: the default slot duration is 450
    milliseconds. *)
Definition testKaminoReserve (hostFixedInterestRateBps : Z)
           (curve : list CurvePointFields) : Rounded.t rationals :=
  Rounded.Build_t rationals (testReserve hostFixedInterestRateBps curve)
                  (Q2Qc (inject_Z 450)).

End Sample.

(** * Properties *)

(** ** Arithmetic of [Decimal] *)

Ltac qc2q :=
  unfold Qcle, Qclt, Qcdiv, Qcminus, Qcplus, Qcmult, Qcopp, Qcinv in *;
  cbn [this Q2Qc] in *;
  rewrite ?Qred_correct in *.

Lemma Qczerob_true a : Qczerob a = true <-> a = 0%Qc.
Proof.
  unfold Qczerob. split.
  - apply Qc_eq_bool_correct.
  - intros ->. reflexivity.
Qed.

Lemma Qczerob_false a : Qczerob a = false <-> a <> 0%Qc.
Proof.
  rewrite <- Qczerob_true. destruct (Qczerob a); intuition congruence.
Qed.

Lemma Qcnegb_true a : Qcnegb a = true <-> (a < 0)%Qc.
Proof.
  unfold Qcnegb, Qcltb. rewrite Qclt_alt.
  destruct (a ?= 0)%Qc; intuition congruence.
Qed.

Lemma Qcnegb_false a : Qcnegb a = false <-> (0 <= a)%Qc.
Proof.
  unfold Qcnegb, Qcltb.
  assert (H : (0 <= a)%Qc <-> (a ?= 0)%Qc <> Lt) by apply Qcge_alt.
  rewrite H. destruct (a ?= 0)%Qc; intuition congruence.
Qed.

Lemma Qc_neq_0 (a : Qc) : a <> 0%Qc <-> ~ (a == 0)%Q.
Proof.
  split; intros H E; apply H.
  - apply Qc_is_canon. exact E.
  - rewrite E. reflexivity.
Qed.

Lemma Qczerob_mul a b : Qczerob (a * b) = Qczerob a || Qczerob b.
Proof.
  destruct (Qczerob a) eqn:Ha;
    [apply Qczerob_true in Ha; subst; now rewrite Qcmult_0_l|].
  destruct (Qczerob b) eqn:Hb;
    [apply Qczerob_true in Hb; subst; now rewrite Qcmult_0_r|].
  apply Qczerob_false in Ha, Hb. apply Qczerob_false. intros E.
  destruct (Qcmult_integral _ _ E); contradiction.
Qed.

Lemma Qcnegb_mul a b :
  a <> 0%Qc -> b <> 0%Qc -> Qcnegb (a * b) = xorb (Qcnegb a) (Qcnegb b).
Proof.
  intros Ha Hb. apply Qc_neq_0 in Ha, Hb.
  destruct (Qcnegb a) eqn:Sa, (Qcnegb b) eqn:Sb; cbn [xorb];
    rewrite ?Qcnegb_true, ?Qcnegb_false in *; qc2q; nra.
Qed.

Lemma Qczerob_inv a : Qczerob (/ a) = Qczerob a.
Proof.
  destruct (Qczerob a) eqn:Ha.
  - apply Qczerob_true in Ha. subst. reflexivity.
  - apply Qczerob_false in Ha. apply Qczerob_false. intros E.
    apply (Qcmult_inv_r a) in Ha. rewrite E, Qcmult_0_r in Ha. discriminate.
Qed.

Lemma Qcnegb_inv a : Qcnegb (/ a) = Qcnegb a.
Proof.
  destruct (Qczerob a) eqn:Za.
  - apply Qczerob_true in Za. subst. reflexivity.
  - apply Qczerob_false in Za.
    assert (Hi : (a * / a)%Qc = 1%Qc) by (apply Qcmult_inv_r; exact Za).
    assert (Zi : (/ a)%Qc <> 0%Qc)
      by (apply Qczerob_false; rewrite Qczerob_inv; now apply Qczerob_false).
    pose proof (Qcnegb_mul a (/ a) Za Zi) as H. rewrite Hi in H.
    change (Qcnegb 1) with false in H.
    destruct (Qcnegb a), (Qcnegb (/ a)); simpl in H; congruence.
Qed.

Module DecFacts.

Lemma add_comm (x y : Decimal) : (x + y = y + x)%dec.
Proof.
  destruct x as [a|s|], y as [b|s'|]; cbn; try reflexivity.
  - now rewrite Qcplus_comm.
  - destruct s, s'; reflexivity.
Qed.

Lemma mul_comm (x y : Decimal) : (x * y = y * x)%dec.
Proof.
  destruct x as [a|s|], y as [b|s'|]; cbn; try reflexivity.
  - now rewrite Qcmult_comm.
  - destruct s, s'; reflexivity.
Qed.

Lemma mul_assoc (x y z : Decimal) : (x * (y * z) = x * y * z)%dec.
Proof.
  destruct x as [a|s|], y as [b|s'|], z as [c|s''|]; cbn;
    rewrite ?Qczerob_mul;
    try (destruct (Qczerob a) eqn:Za); try (destruct (Qczerob b) eqn:Zb);
    try (destruct (Qczerob c) eqn:Zc); cbn;
    rewrite ?Za, ?Zb, ?Zc; cbn; try reflexivity;
    rewrite ?Qczerob_false in *;
    rewrite ?Qcnegb_mul by assumption;
    try (now rewrite Qcmult_assoc);
    repeat match goal with |- context [Qcnegb ?q] => destruct (Qcnegb q) end;
    repeat match goal with b : bool |- _ => destruct b end; reflexivity.
Qed.

Lemma mul_one_r (x : Decimal) : (x * Dec.one = x)%dec.
Proof.
  destruct x as [a|s|]; cbn; try reflexivity.
  - f_equal. apply Qcmult_1_r.
  - now destruct s.
Qed.

Lemma mul_one_l (x : Decimal) : (Dec.one * x = x)%dec.
Proof. rewrite mul_comm. apply mul_one_r. Qed.

(** Dividing by a non-zero finite value multiplies by its inverse. *)
Lemma div_fin (x : Decimal) (d : Qc) :
  d <> 0%Qc -> (x / Fin d = x * Fin (/ d))%dec.
Proof.
  intros Hd. destruct x as [a|s|]; cbn; try reflexivity.
  - apply Qczerob_false in Hd. now rewrite Hd.
  - rewrite Qczerob_inv, Qcnegb_inv.
    apply Qczerob_false in Hd. now rewrite Hd.
Qed.

End DecFacts.
(** ** Compounded interest *)

Lemma two_nonzero : Q2Qc (inject_Z 2) <> 0%Qc.
Proof. discriminate. Qed.

Lemma six_nonzero : Q2Qc (inject_Z 6) <> 0%Qc.
Proof. discriminate. Qed.

(** Two values that the test tells apart are not the same value. *)
Lemma same_refl (x : Decimal) : Dec.same x x = true.
Proof.
  destruct x as [a|s|]; cbn.
  - unfold Qc_eq_bool. destruct (Qc_eq_dec a a); [reflexivity | congruence].
  - apply Bool.eqb_reflx.
  - reflexivity.
Qed.

Lemma same_neq (x y : Decimal) : Dec.same x y = false -> x <> y.
Proof.
  intros H E. subst y. rewrite same_refl in H. discriminate.
Qed.

(** Rounding the result leaves [plus] and [times] commutative. *)
Lemma rounded_add_comm (round : Qc -> Qc) (x y : Decimal) :
  Rounded.add round x y = Rounded.add round y x.
Proof.
  unfold Rounded.add. now rewrite DecFacts.add_comm.
Qed.

Lemma rounded_mul_comm (round : Qc -> Qc) (x y : Decimal) :
  Rounded.mul round x y = Rounded.mul round y x.
Proof.
  unfold Rounded.mul. now rewrite DecFacts.mul_comm.
Qed.

(** Without rounding the operations are the exact ones, and the
    approximation is the one of [KaminoReserve]. *)
Lemma finalise_exact (x : Decimal) : Rounded.finalise (fun q => q) x = x.
Proof. destruct x; reflexivity. Qed.

Lemma approximateCompoundedInterest_exact
      (SLOTS_PER_YEAR : Z) (rate : Decimal) (elapsedSlots : Z) :
  Rounded.approximateCompoundedInterest (fun q => q) SLOTS_PER_YEAR
                                        rate elapsedSlots
  = KaminoReserve.approximateCompoundedInterest SLOTS_PER_YEAR
                                                rate elapsedSlots.
Proof.
  unfold Rounded.approximateCompoundedInterest,
    KaminoReserve.approximateCompoundedInterest,
    Rounded.add, Rounded.mul, Rounded.div.
  now rewrite !finalise_exact.
Qed.

Section CompoundingFacts.

Variable round : Qc -> Qc.
Variable SLOTS_PER_YEAR : Z.

Local Notation "x [+] y" := (Rounded.add round x y)
  (at level 50, left associativity).
Local Notation "x [*] y" := (Rounded.mul round x y)
  (at level 40, left associativity).
Local Notation "x [/] y" := (Rounded.div round x y)
  (at level 40, left associativity).

Let approx := Rounded.approximateCompoundedInterest round SLOTS_PER_YEAR.

(** C1, as the code has it.  Every operation rounds its result.  With
    [base = rate / SLOTS_PER_YEAR] and [u = 1 + base],
    [approximateCompoundedInterest(rate, elapsedSlots)] is [1] at 0
    slots, [u] at 1, [u * u] at 2, [(u * u) * u] at 3 and the square of
    [u * u] at 4; at any other number of slots, so from 5 slots on, it
    is the sum of [1], [elapsedSlots * base] and the second and third
    terms as the code forms them: the square and the cube of [base],
    multiplied by [elapsedSlots], by [elapsedSlots - 1] (and by
    [elapsedSlots - 2]) and divided by 2 (by 6) last. *)
Theorem approximateCompoundedInterest_spec (rate : Decimal) :
  let base := rate [/] Dec.ofZ SLOTS_PER_YEAR in
  let u := Dec.ofZ 1 [+] base in
  approx rate 0 = Dec.ofZ 1
  /\ approx rate 1 = u
  /\ approx rate 2 = u [*] u
  /\ approx rate 3 = (u [*] u) [*] u
  /\ approx rate 4 = (u [*] u) [*] (u [*] u)
  /\ (forall n, n < 0 \/ 5 <= n ->
      approx rate n
      = Dec.ofZ 1
        [+] Dec.ofZ n [*] base
        [+] base [*] base [*] Dec.ofZ n [*] Dec.ofZ (n - 1) [/] Dec.ofZ 2
        [+] base [*] base [*] base [*] Dec.ofZ n [*] Dec.ofZ (n - 1)
            [*] Dec.ofZ (n - 2) [/] Dec.ofZ 6).
Proof.
  intros base u. subst u approx.
  assert (E : base [+] Dec.ofZ 1 = Dec.ofZ 1 [+] base)
    by apply rounded_add_comm.
  unfold Rounded.approximateCompoundedInterest. fold base.
  repeat split; cbv zeta; rewrite ?E; try reflexivity.
  intros n Hn. rewrite (rounded_mul_comm round (Dec.ofZ n) base).
  destruct n as [|p|p]; [lia| |reflexivity].
  do 3 (destruct p as [p|p|]; try lia; try reflexivity).
Qed.

End CompoundingFacts.

(** ** Interest accrual and total supply *)

Lemma Fraction_toDecimal_fin (valueSf : N) :
  Fraction_toDecimal valueSf =
  Fin (Q2Qc (inject_Z (Z.of_N valueSf))
       / Q2Qc (inject_Z (Z.of_N (2 ^ Fraction_FRACTIONS))))%Qc.
Proof.
  unfold Fraction_toDecimal, Dec.ofN, Dec.ofZ. cbn [Dec.div].
  replace (Qczerob (Q2Qc (inject_Z (Z.of_N (2 ^ Fraction_FRACTIONS)))))
    with false by (vm_compute; reflexivity).
  reflexivity.
Qed.

Section AccrualFacts.

Variable SLOTS_PER_YEAR : Z.
Variable calculateBorrowAPR : KaminoReserve.t -> Decimal.

(** C6.  When no slot has elapsed since the reserve's last update
    ([currentSlot] at or before the last-update slot),
    [KaminoReserve.getEstimatedTotalSupply(currentSlot, referralFeeBps)] is
    [KaminoReserve.getTotalSupply()], whatever [referralFeeBps] is. *)
Theorem getEstimatedTotalSupply_no_elapsed_slot
        (r : KaminoReserve.t) (currentSlot referralFeeBps : Z) :
  currentSlot <= Z.of_N (lastUpdateSlot (KaminoReserve.state r)) ->
  KaminoReserve.getEstimatedTotalSupply SLOTS_PER_YEAR calculateBorrowAPR
                          r currentSlot referralFeeBps
  = KaminoReserve.getTotalSupply r.
Proof.
  intros Hs.
  unfold KaminoReserve.getEstimatedTotalSupply, KaminoReserve.getEstimatedDebtAndSupply, KaminoReserve.slotsElapsedSince.
  replace (Z.max (currentSlot - Z.of_N (lastUpdateSlot (KaminoReserve.state r))) 0)
    with 0 by lia.
  reflexivity.
Qed.

End AccrualFacts.

Section RoundedAccrualFacts.

Variable round : Qc -> Qc.
Variable js : Rounded.Numbers.
Variable SLOTS_PER_YEAR : Z.
Variable SLOTS_PER_SECOND : Z.
Variable Fraction_toDecimal : N -> Decimal.
Variable getBorrowRate :
  Rounded.number js -> list (Rounded.number js * Rounded.number js)
  -> Result (Rounded.number js).

Local Notation "x [+] y" := (Rounded.add round x y)
  (at level 50, left associativity).
Local Notation "x [-] y" := (Rounded.sub round x y)
  (at level 50, left associativity).
Local Notation "x [*] y" := (Rounded.mul round x y)
  (at level 40, left associativity).
Local Notation "x [/] y" := (Rounded.div round x y)
  (at level 40, left associativity).

Let approx := Rounded.approximateCompoundedInterest round SLOTS_PER_YEAR.
Let borrowAPR :=
  Rounded.calculateBorrowAPR
    round js SLOTS_PER_SECOND Fraction_toDecimal getBorrowRate.
Let compound :=
  Rounded.compoundInterest
    round js SLOTS_PER_YEAR SLOTS_PER_SECOND Fraction_toDecimal getBorrowRate.
Let estimated :=
  Rounded.getEstimatedDebtAndSupply
    round js SLOTS_PER_YEAR SLOTS_PER_SECOND Fraction_toDecimal getBorrowRate.

(** C2, as the code has it.  Every operation rounds its result.  When
    [calculateBorrowAPR] throws, so do [compoundInterest] and, once a
    slot has elapsed, [getEstimatedDebtAndSupply].  When it returns a
    rate, [compoundInterest] returns the new debt, the fixed host fee
    (the product of the previous debt and the fixed multiplier, less the
    previous debt), the net new debt, the variable protocol fee, the
    referral fee (the net new debt times the product of the take rate and
    the referral rate), the new accumulated protocol fees and the pending
    referral fees; and once a slot has elapsed [getEstimatedDebtAndSupply]
    returns the new debt and the total supply formed from them. *)
Theorem compoundInterest_spec
        (r : Rounded.t js) (slotsElapsed slot referralFeeBps : Z) :
  (forall message,
      borrowAPR r = Throw message ->
      compound r slotsElapsed referralFeeBps = Throw message
      /\ (1 <= KaminoReserve.slotsElapsedSince r slot ->
          estimated r slot referralFeeBps = Throw message))
  /\ (forall currentBorrowRate,
      borrowAPR r = Ok currentBorrowRate ->
      let previousDebt := Rounded.getBorrowedAmount js Fraction_toDecimal r in
      let fixedRate := Rounded.getFixedHostInterestRate round js r in
      let combinedMultiplier :=
        approx (Rounded.ofNumber js currentBorrowRate [+] fixedRate)
               slotsElapsed in
      let fixedMultiplier := approx fixedRate slotsElapsed in
      let protocolTakeRate :=
        Dec.ofZ (protocolTakeRatePct (config (KaminoReserve.state r)))
        [/] Dec.ofZ 100 in
      let referralRate := Dec.ofZ referralFeeBps [/] Dec.ofZ 10000 in
      exists ci,
        compound r slotsElapsed referralFeeBps = Ok ci
        /\ KaminoReserve.newDebt ci = previousDebt [*] combinedMultiplier
        /\ KaminoReserve.fixedHostFee ci
           = previousDebt [*] fixedMultiplier [-] previousDebt
        /\ KaminoReserve.netNewDebt ci
           = KaminoReserve.newDebt ci [-] previousDebt
             [-] KaminoReserve.fixedHostFee ci
        /\ KaminoReserve.variableProtocolFee ci
           = KaminoReserve.netNewDebt ci [*] protocolTakeRate
        /\ KaminoReserve.maxReferralFees ci
           = KaminoReserve.netNewDebt ci [*] (protocolTakeRate [*] referralRate)
        /\ KaminoReserve.newAccProtocolFees ci
           = KaminoReserve.variableProtocolFee ci
             [+] KaminoReserve.fixedHostFee ci
             [-] KaminoReserve.maxReferralFees ci
             [+] Rounded.getAccumulatedProtocolFees js Fraction_toDecimal r
        /\ KaminoReserve.pendingReferralFees ci
           = Rounded.getPendingReferrerFees js Fraction_toDecimal r
             [+] KaminoReserve.maxReferralFees ci
        /\ (KaminoReserve.slotsElapsedSince r slot = slotsElapsed ->
            1 <= slotsElapsed ->
            estimated r slot referralFeeBps
            = Ok (KaminoReserve.newDebt ci,
                  Rounded.getLiquidityAvailableAmount js r
                  [+] KaminoReserve.newDebt ci
                  [-] KaminoReserve.newAccProtocolFees ci
                  [-] Rounded.getAccumulatedReferrerFees js Fraction_toDecimal r
                  [-] KaminoReserve.pendingReferralFees ci))).
Proof.
  subst approx borrowAPR compound estimated. split.
  - intros message H. split.
    + unfold Rounded.compoundInterest. now rewrite H.
    + intros Hs. unfold Rounded.getEstimatedDebtAndSupply.
      destruct (KaminoReserve.slotsElapsedSince r slot =? 0) eqn:E;
        [apply Z.eqb_eq in E; lia|].
      unfold Rounded.compoundInterest. now rewrite H.
  - intros currentBorrowRate H. cbv zeta.
    eexists. split; [unfold Rounded.compoundInterest; rewrite H; reflexivity|].
    cbn [KaminoReserve.newDebt KaminoReserve.fixedHostFee
         KaminoReserve.netNewDebt KaminoReserve.variableProtocolFee
         KaminoReserve.maxReferralFees KaminoReserve.newAccProtocolFees
         KaminoReserve.pendingReferralFees].
    repeat (split; [reflexivity|]).
    intros Hs H1. unfold Rounded.getEstimatedDebtAndSupply. rewrite Hs.
    destruct (slotsElapsed =? 0) eqn:E; [apply Z.eqb_eq in E; lia|].
    unfold Rounded.compoundInterest. rewrite H. reflexivity.
Qed.

End RoundedAccrualFacts.

(** ** Borrow curve *)

Lemma truncateBorrowCurve_all (points : list CurvePointFields) :
  Forall (fun q => utilizationRateBps q <> ONE_HUNDRED_PCT_IN_BPS) points ->
  truncateBorrowCurve points = map curvePoint points.
Proof.
  induction 1 as [|p rest Hp _ IH]; cbn [truncateBorrowCurve map].
  - reflexivity.
  - apply Z.eqb_neq in Hp. now rewrite Hp, IH.
Qed.

Lemma truncateBorrowCurve_first (pre post : list CurvePointFields) p :
  Forall (fun q => utilizationRateBps q <> ONE_HUNDRED_PCT_IN_BPS) pre ->
  utilizationRateBps p = ONE_HUNDRED_PCT_IN_BPS ->
  truncateBorrowCurve (pre ++ p :: post) = map curvePoint (pre ++ [p]).
Proof.
  intros Hpre Hp.
  induction Hpre as [|q rest Hq _ IH]; cbn [truncateBorrowCurve map app].
  - apply Z.eqb_eq in Hp. now rewrite Hp.
  - apply Z.eqb_neq in Hq. now rewrite Hq, IH.
Qed.

(** C9.  [truncateBorrowCurve] returns the prefix of the list that ends at
    the first point whose [utilizationRateBps] is 10000 (the points before
    it are kept, the points after it are dropped), each kept point mapped to
    [(utilizationRateBps/10000, borrowRateBps/10000)]; a list with no such
    point is kept whole. *)
Theorem truncateBorrowCurve_spec (points : list CurvePointFields) :
  (forall p,
      curvePoint p =
      (Q2Qc (utilizationRateBps p # 1) / Q2Qc (10000 # 1),
       Q2Qc (borrowRateBps p # 1) / Q2Qc (10000 # 1))%Qc)
  /\ (forall pre p post,
         points = pre ++ p :: post ->
         Forall (fun q => utilizationRateBps q <> 10000) pre ->
         utilizationRateBps p = 10000 ->
         truncateBorrowCurve points = map curvePoint (pre ++ [p]))
  /\ (Forall (fun q => utilizationRateBps q <> 10000) points ->
      truncateBorrowCurve points = map curvePoint points).
Proof.
  split; [reflexivity|]. split.
  - intros pre p post -> Hpre Hp. now apply truncateBorrowCurve_first.
  - apply truncateBorrowCurve_all.
Qed.

(** ** Errors of the simulation *)

Lemma lastMatch_app {A} (test : A -> bool) (l : list A) (x : A) :
  lastMatch test (l ++ [x]) =
  if test x then Some x else lastMatch test l.
Proof.
  unfold lastMatch. rewrite fold_left_app. reflexivity.
Qed.

Lemma lastMatch_None {A} (test : A -> bool) (l : list A) :
  lastMatch test l = None <-> Forall (fun x => test x = false) l.
Proof.
  induction l as [|x l IH] using rev_ind.
  - split; [constructor | reflexivity].
  - rewrite lastMatch_app, Forall_app. destruct (test x) eqn:E.
    + split; [discriminate|]. intros [_ H]. inversion H; congruence.
    + rewrite IH. split; [intros H; split; [exact H | now repeat constructor]
                         | tauto].
Qed.

Lemma includes_true (l : list Z) (x : Z) : includes l x = true <-> In x l.
Proof.
  unfold includes. rewrite existsb_exists. split.
  - intros [y [Hin Hy]]. apply Z.eqb_eq in Hy. now subst.
  - intros Hin. exists x. split; [exact Hin | apply Z.eqb_refl].
Qed.

Lemma includes_false (l : list Z) (x : Z) : includes l x = false <-> ~ In x l.
Proof.
  rewrite <- includes_true. destruct (includes l x); intuition congruence.
Qed.

Lemma noReserveForMint_lastMatch reserves mint :
  noReserveForMint reserves mint <->
  lastMatch (fun r => PublicKey_equals (KaminoReserve.getLiquidityMint r) mint)
            (PubkeyHashMap.values reserves) = None.
Proof.
  rewrite lastMatch_None. unfold noReserveForMint. rewrite !Forall_forall.
  split; intros H r Hr; specialize (H r Hr); unfold PublicKey_equals in *.
  - now apply N.eqb_neq.
  - now apply N.eqb_neq in H.
Qed.

Lemma leg_outcome reserves mint elevationGroup :
  LegOutcome reserves mint elevationGroup.
Proof.
  destruct (lastMatch
              (fun r => PublicKey_equals (KaminoReserve.getLiquidityMint r) mint)
              (PubkeyHashMap.values reserves)) as [reserve|] eqn:E.
  - assert (Hn : ~ noReserveForMint reserves mint)
      by (rewrite noReserveForMint_lastMatch; congruence).
    destruct (includes (elevationGroups (config (KaminoReserve.state reserve)))
                       elevationGroup) eqn:I.
    + apply (LegRuns _ _ _ reserve); auto.
      intros [r [Hr Hx]]. rewrite E in Hr. injection Hr as <-.
      apply includes_false in Hx. congruence.
    + apply LegExcluded; auto. exists reserve. split; [exact E|].
      now apply includes_false.
  - apply LegNoReserve.
    + now apply noReserveForMint_lastMatch.
    + intros [r [Hr _]]. congruence.
Qed.

Lemma calculateSimulatedBorrow_run
      this oldStats oldBorrows borrowAmount mint reserves :
  let elevationGroup := Obligation.elevationGroup (KaminoObligation.state this) in
  let call :=
    KaminoObligation.calculateSimulatedBorrow
      oldStats oldBorrows borrowAmount mint reserves this in
  (noReserveForMint reserves mint
   \/ elevationGroupExcluded reserves mint elevationGroup ->
   exists message, call = (Throw message, this))
  /\ (~ noReserveForMint reserves mint ->
      ~ elevationGroupExcluded reserves mint elevationGroup ->
      exists r, call = (Ok r, this)).
Proof.
  intros elevationGroup call. subst call.
  unfold KaminoObligation.calculateSimulatedBorrow.
  destruct (leg_outcome reserves mint elevationGroup)
    as [Hn Hx | Hn Hx | reserve Hn Hx E I].
  - apply noReserveForMint_lastMatch in Hn as E. rewrite E. cbn.
    split; [intros _; eexists; reflexivity | tauto].
  - destruct Hx as [reserve [E Hx]]. rewrite E.
    apply includes_false in Hx.
    unfold KaminoObligation.bind, KaminoObligation.read. cbn.
    fold elevationGroup. rewrite Hx. cbn.
    split; [intros _; eexists; reflexivity|].
    intros _ H. exfalso. apply H. exists reserve.
    split; [exact E | now apply includes_false].
  - rewrite E.
    unfold KaminoObligation.bind, KaminoObligation.read. cbn.
    fold elevationGroup. rewrite I. cbn.
    split; [tauto | intros _ _; eexists; reflexivity].
Qed.

Lemma calculateSimulatedDeposit_run
      this oldStats oldDeposits amount mint reserves market :
  let elevationGroup := Obligation.elevationGroup (KaminoObligation.state this) in
  let call :=
    KaminoObligation.calculateSimulatedDeposit
      oldStats oldDeposits amount mint reserves market this in
  (noReserveForMint reserves mint
   \/ elevationGroupExcluded reserves mint elevationGroup ->
   exists message, call = (Throw message, this))
  /\ (~ noReserveForMint reserves mint ->
      ~ elevationGroupExcluded reserves mint elevationGroup ->
      exists r, call = (Ok r, this)).
Proof.
  intros elevationGroup call. subst call.
  unfold KaminoObligation.calculateSimulatedDeposit.
  destruct (leg_outcome reserves mint elevationGroup)
    as [Hn Hx | Hn Hx | reserve Hn Hx E I].
  - apply noReserveForMint_lastMatch in Hn as E. rewrite E. cbn.
    split; [intros _; eexists; reflexivity | tauto].
  - destruct Hx as [reserve [E Hx]]. rewrite E.
    apply includes_false in Hx.
    unfold KaminoObligation.bind, KaminoObligation.read. cbn.
    fold elevationGroup. rewrite Hx. cbn.
    split; [intros _; eexists; reflexivity|].
    intros _ H. exfalso. apply H. exists reserve.
    split; [exact E | now apply includes_false].
  - rewrite E.
    unfold KaminoObligation.bind, KaminoObligation.read. cbn.
    fold elevationGroup. rewrite I. cbn.
    split; [tauto | intros _ _; eexists; reflexivity].
Qed.

(** What a call that either throws with the obligation untouched or returns
    with the obligation untouched tells about [threw]. *)
Lemma threw_iff {A} (call : Result A * KaminoObligation.t) this (C : Prop) :
  (C -> exists message, call = (Throw message, this)) ->
  (~ C -> exists r, call = (Ok r, this)) ->
  (C \/ ~ C) ->
  snd call = this /\ (threw (fst call) <-> C).
Proof.
  intros Ht Ho [HC | HC].
  - destruct (Ht HC) as [m ->]. cbn. split; [reflexivity|].
    split; [tauto | intros _; now exists m].
  - destruct (Ho HC) as [r ->]. cbn. split; [reflexivity|].
    split; [intros [m Hm]; discriminate | tauto].
Qed.

Lemma leg_condition_dec reserves mint elevationGroup :
  let C := noReserveForMint reserves mint
           \/ elevationGroupExcluded reserves mint elevationGroup in
  C \/ ~ C.
Proof.
  destruct (leg_outcome reserves mint elevationGroup); cbn; tauto.
Qed.

Lemma simulatedActions_dec (action : string) :
  In action simulatedActions \/ ~ In action simulatedActions.
Proof.
  destruct (in_dec string_dec action simulatedActions); tauto.
Qed.

Lemma getSimulatedObligationStats_result
      this amount action mint market reserves :
  let elevationGroup := Obligation.elevationGroup (KaminoObligation.state this) in
  let call :=
    KaminoObligation.getSimulatedObligationStats
      amount action mint market reserves this in
  let legFails := noReserveForMint reserves mint
                  \/ elevationGroupExcluded reserves mint elevationGroup in
  (In action simulatedActions /\ ~ legFails /\ exists r, call = (Ok r, this))
  \/ ((~ In action simulatedActions \/ legFails)
      /\ exists message, call = (Throw message, this)).
Proof.
  intros elevationGroup call legFails. subst call.
  pose proof (fun s b => calculateSimulatedBorrow_run this s b) as HB.
  pose proof (fun s d => calculateSimulatedDeposit_run this s d) as HD.
  cbn zeta in HB, HD. fold elevationGroup in HB, HD.
  unfold KaminoObligation.getSimulatedObligationStats.
  unfold KaminoObligation.bind, KaminoObligation.read.
  cbn iota beta.
  destruct (leg_condition_dec reserves mint elevationGroup) as [HC | HC];
    cbn zeta in HC; fold legFails in HC.
  - (* every leg throws *)
    assert (HB' := fun s b a => proj1 (HB s b a mint reserves) HC).
    assert (HD' := fun s d a => proj1 (HD s d a mint reserves market) HC).
    right. split; [now right|].
    repeat match goal with
           | |- context [String.eqb action ?s] => destruct (String.eqb action s)
           end;
      repeat match goal with
             | |- context [KaminoObligation.calculateSimulatedBorrow ?s ?b ?a _ _ this] =>
                 destruct (HB' s b a) as [? ->]
             | |- context [KaminoObligation.calculateSimulatedDeposit ?s ?d ?a _ _ _ this] =>
                 destruct (HD' s d a) as [? ->]
             end;
      eexists; reflexivity.
  - assert (HB' := fun s b a =>
                     proj2 (HB s b a mint reserves)
                           (fun H => HC (or_introl H)) (fun H => HC (or_intror H))).
    assert (HD' := fun s d a =>
                     proj2 (HD s d a mint reserves market)
                           (fun H => HC (or_introl H)) (fun H => HC (or_intror H))).
    unfold simulatedActions. cbn [In].
    destruct (String.eqb_spec action "deposit");
      [|destruct (String.eqb_spec action "borrow");
        [|destruct (String.eqb_spec action "repay");
          [|destruct (String.eqb_spec action "withdraw");
            [|destruct (String.eqb_spec action "depositAndBorrow");
              [|destruct (String.eqb_spec action "repayAndWithdraw")]]]]];
      repeat match goal with
             | |- context [KaminoObligation.calculateSimulatedBorrow ?s ?b ?a _ _ this] =>
                 destruct (HB' s b a) as [? ->]; cbn iota beta
             | |- context [KaminoObligation.calculateSimulatedDeposit ?s ?d ?a _ _ _ this] =>
                 destruct (HD' s d a) as [? ->]; cbn iota beta
             end;
      try (left; split; [subst; tauto | split; [exact HC | eexists; reflexivity]]).
    right. split; [left; intuition congruence | eexists; reflexivity].
Qed.

Lemma getSimulatedObligationStats_run this amount action mint market reserves :
  let elevationGroup := Obligation.elevationGroup (KaminoObligation.state this) in
  let call :=
    KaminoObligation.getSimulatedObligationStats
      amount action mint market reserves this in
  let C := ~ In action simulatedActions
           \/ noReserveForMint reserves mint
           \/ elevationGroupExcluded reserves mint elevationGroup in
  (C -> exists message, call = (Throw message, this))
  /\ (~ C -> exists r, call = (Ok r, this)).
Proof.
  intros elevationGroup call C.
  destruct (getSimulatedObligationStats_result
              this amount action mint market reserves)
    as [(Hin & Hleg & Hok) | (Hc & Hthrow)].
  - split; [intros HC; exfalso; unfold C in HC; tauto | intros _; exact Hok].
  - split; [intros _; exact Hthrow | intros HC; exfalso; unfold C in HC; tauto].
Qed.

(** C8.  [calculateSimulatedBorrow] and [calculateSimulatedDeposit] throw
    exactly when no reserve of the supplied map has the requested liquidity
    mint or when the reserve they work on does not list the obligation's
    elevation group; [getSimulatedObligationStats] throws exactly then, or
    when the action is none of deposit, withdraw, borrow, repay,
    depositAndBorrow and repayAndWithdraw.  A call that throws produces no
    result, and every call leaves the obligation as it was. *)
Theorem simulation_throws_exactly (this : KaminoObligation.t) :
  let elevationGroup := Obligation.elevationGroup (KaminoObligation.state this) in
  (forall oldStats oldBorrows borrowAmount mint reserves,
      let call :=
        KaminoObligation.calculateSimulatedBorrow
          oldStats oldBorrows borrowAmount mint reserves this in
      snd call = this
      /\ (threw (fst call) <->
          noReserveForMint reserves mint
          \/ elevationGroupExcluded reserves mint elevationGroup))
  /\ (forall oldStats oldDeposits amount mint reserves market,
         let call :=
           KaminoObligation.calculateSimulatedDeposit
             oldStats oldDeposits amount mint reserves market this in
         snd call = this
         /\ (threw (fst call) <->
             noReserveForMint reserves mint
             \/ elevationGroupExcluded reserves mint elevationGroup))
  /\ (forall amount action mint market reserves,
         let call :=
           KaminoObligation.getSimulatedObligationStats
             amount action mint market reserves this in
         snd call = this
         /\ (threw (fst call) <->
             ~ In action simulatedActions
             \/ noReserveForMint reserves mint
             \/ elevationGroupExcluded reserves mint elevationGroup)).
Proof.
  intros elevationGroup. split; [|split].
  - intros oldStats oldBorrows borrowAmount mint reserves call.
    destruct (calculateSimulatedBorrow_run
                this oldStats oldBorrows borrowAmount mint reserves) as [Ht Ho].
    apply threw_iff; [exact Ht | intros H; apply Ho; tauto
                      | apply leg_condition_dec].
  - intros oldStats oldDeposits amount mint reserves market call.
    destruct (calculateSimulatedDeposit_run
                this oldStats oldDeposits amount mint reserves market) as [Ht Ho].
    apply threw_iff; [exact Ht | intros H; apply Ho; tauto
                      | apply leg_condition_dec].
  - intros amount action mint market reserves call.
    destruct (getSimulatedObligationStats_run
                this amount action mint market reserves) as [Ht Ho].
    apply threw_iff; [exact Ht | exact Ho |].
    destruct (simulatedActions_dec action);
      destruct (leg_condition_dec reserves mint elevationGroup) as [H1 | H1];
      cbn zeta in H1; tauto.
Qed.

(** ** Elevation groups of a list of reserves *)

Module NumberMapFacts.

Lemma get_set (k k' v : Z) (m : list (Z * Z)) :
  NumberMap.get k' (NumberMap.set k v m) =
  if k =? k' then Some v else NumberMap.get k' m.
Proof.
  induction m as [|[k0 v0] m IH]; cbn.
  - reflexivity.
  - destruct (k0 =? k) eqn:E0; cbn.
    + apply Z.eqb_eq in E0. subst k0. destruct (k =? k'); reflexivity.
    + rewrite IH. destruct (k0 =? k') eqn:E1; [|reflexivity].
      apply Z.eqb_eq in E1. subst k0. now rewrite Z.eqb_sym, E0.
Qed.

Lemma keys_set (k v : Z) (m : list (Z * Z)) :
  forall x, In x (map fst (NumberMap.set k v m)) <-> x = k \/ In x (map fst m).
Proof.
  induction m as [|[k0 v0] m IH]; intros x; cbn.
  - intuition.
  - destruct (k0 =? k) eqn:E0; cbn.
    + apply Z.eqb_eq in E0. subst k0. intuition.
    + rewrite IH. intuition.
Qed.

Lemma NoDup_set (k v : Z) (m : list (Z * Z)) :
  NoDup (map fst m) -> NoDup (map fst (NumberMap.set k v m)).
Proof.
  induction m as [|[k0 v0] m IH]; cbn; intros H.
  - repeat constructor. intros [].
  - inversion H as [|? ? Hn Hm]; subst.
    destruct (k0 =? k) eqn:E0; cbn.
    + apply Z.eqb_eq in E0. subst k0. now constructor.
    + constructor; [|now apply IH].
      rewrite keys_set. intros [-> | Hin]; [|contradiction].
      now rewrite Z.eqb_refl in E0.
Qed.

Lemma values_set (P : Z -> Z -> Prop) (k v : Z) (m : list (Z * Z)) :
  P k v ->
  Forall (fun e => P (fst e) (snd e)) m ->
  Forall (fun e => P (fst e) (snd e)) (NumberMap.set k v m).
Proof.
  intros Hv. induction 1 as [|[k0 v0] m H0 Hm IH]; cbn.
  - now repeat constructor.
  - destruct (k0 =? k); constructor; auto.
Qed.

Lemma In_get (m : list (Z * Z)) (k v : Z) :
  NoDup (map fst m) -> (In (k, v) m <-> NumberMap.get k m = Some v).
Proof.
  induction m as [|[k0 v0] m IH]; cbn; intros H.
  - split; [intros [] | discriminate].
  - inversion H as [|? ? Hn Hm]; subst.
    destruct (k0 =? k) eqn:E0.
    + apply Z.eqb_eq in E0. subst k0. split.
      * intros [[= ->] | Hin]; [reflexivity|].
        exfalso. apply Hn. apply in_map_iff. now exists (k, v).
      * intros [= ->]. now left.
    + rewrite <- (IH Hm). split; [|tauto].
      intros [[= -> ->] | Hin]; [now rewrite Z.eqb_refl in E0 | exact Hin].
Qed.

End NumberMapFacts.

Lemma countElevationGroup_countOf m x g :
  countsInvariant m ->
  countOf (KaminoObligation.countElevationGroup m x) g =
  countOf m g + (if (x =? g) && negb (x =? 0) then 1 else 0).
Proof.
  intros [Hnd Hv].
  unfold KaminoObligation.countElevationGroup, countOf.
  destruct (x =? 0) eqn:E0; cbn [negb]; [rewrite andb_false_r; lia|].
  rewrite andb_true_r.
  destruct (NumberMap.get x m) as [count|] eqn:G.
  - assert (Hc : negb (count =? 0) = true).
    { apply NumberMapFacts.In_get in G; [|exact Hnd].
      rewrite Forall_forall in Hv. destruct (Hv _ G) as [_ Hc]. cbn in Hc.
      apply negb_true_iff, Z.eqb_neq. lia. }
    rewrite Hc, NumberMapFacts.get_set.
    destruct (x =? g) eqn:E; [apply Z.eqb_eq in E; subst g; rewrite G|]; lia.
  - rewrite NumberMapFacts.get_set.
    destruct (x =? g) eqn:E; [apply Z.eqb_eq in E; subst g; rewrite G|]; lia.
Qed.

Lemma countElevationGroup_invariant m x :
  countsInvariant m -> countsInvariant (KaminoObligation.countElevationGroup m x).
Proof.
  intros [Hnd Hv]. unfold KaminoObligation.countElevationGroup.
  destruct (x =? 0) eqn:E0; cbn [negb]; [now split|].
  apply Z.eqb_neq in E0.
  assert (Hset : forall v, 1 <= v -> countsInvariant (NumberMap.set x v m)).
  { intros v Hv1. split; [now apply NumberMapFacts.NoDup_set|].
    apply (NumberMapFacts.values_set (fun k v => k <> 0 /\ 1 <= v)); auto. }
  destruct (NumberMap.get x m) as [count|] eqn:G; [|apply Hset; lia].
  apply NumberMapFacts.In_get in G; [|exact Hnd].
  rewrite Forall_forall in Hv. destruct (Hv _ G) as [_ Hc]. cbn in Hc.
  destruct (negb (count =? 0)); apply Hset; lia.
Qed.

Lemma fold_countElevationGroup gs : forall m g,
  countsInvariant m ->
  let m' := fold_left KaminoObligation.countElevationGroup gs m in
  countsInvariant m'
  /\ countOf m' g =
     countOf m g
     + (if g =? 0 then 0 else Z.of_nat (count_occ Z.eq_dec gs g)).
Proof.
  induction gs as [|x gs IH]; intros m g Hm; cbn [fold_left count_occ].
  - split; [exact Hm | destruct (g =? 0); lia].
  - pose proof (countElevationGroup_invariant m x Hm) as Hm1.
    destruct (IH _ g Hm1) as [Hinv Hc]. split; [exact Hinv|].
    rewrite Hc, countElevationGroup_countOf by exact Hm.
    destruct (Z.eq_dec x g) as [->|Hne].
    + rewrite Z.eqb_refl. destruct (g =? 0); cbn [andb negb]; lia.
    + apply Z.eqb_neq in Hne. rewrite Hne. cbn [andb].
      destruct (g =? 0); lia.
Qed.

Lemma elevationGroupsCounts_flat reserves : forall m,
  fold_left
    (fun counts reserve =>
       fold_left KaminoObligation.countElevationGroup
                 (elevationGroups (config (KaminoReserve.state reserve))) counts)
    reserves m
  = fold_left KaminoObligation.countElevationGroup
              (flat_map (fun r => elevationGroups (config (KaminoReserve.state r)))
                        reserves) m.
Proof.
  induction reserves as [|r reserves IH]; intros m; cbn [fold_left flat_map].
  - reflexivity.
  - now rewrite fold_left_app, IH.
Qed.

Lemma elevationGroupsCounts_spec reserves g :
  let counts := KaminoObligation.elevationGroupsCounts reserves in
  countsInvariant counts
  /\ countOf counts g =
     if g =? 0 then 0 else Z.of_nat (elevationGroupOccurrences reserves g).
Proof.
  unfold KaminoObligation.elevationGroupsCounts. rewrite elevationGroupsCounts_flat.
  assert (H0 : countsInvariant []) by (split; constructor).
  destruct (fold_countElevationGroup
              (flat_map (fun r => elevationGroups (config (KaminoReserve.state r)))
                        reserves) [] g H0) as [Hinv Hc].
  split; [exact Hinv|]. rewrite Hc. reflexivity.
Qed.

Lemma getElevationGroupsForReserves_occurrences reserves g :
  In g (KaminoObligation.getElevationGroupsForReserves reserves) <->
  g <> 0
  /\ (1 <= elevationGroupOccurrences reserves g)%nat
  /\ elevationGroupOccurrences reserves g = List.length reserves.
Proof.
  unfold KaminoObligation.getElevationGroupsForReserves.
  destruct (elevationGroupsCounts_spec reserves g) as [[Hnd Hv] Hc].
  set (counts := KaminoObligation.elevationGroupsCounts reserves) in *.
  rewrite in_map_iff. split.
  - intros [[k c] [Hk Hin]]. cbn in Hk. subst k.
    apply filter_In in Hin. destruct Hin as [Hin Hlen]. cbn in Hlen.
    apply Z.eqb_eq in Hlen.
    rewrite Forall_forall in Hv. destruct (Hv _ Hin) as [Hg Hc1].
    cbn in Hg, Hc1.
    apply NumberMapFacts.In_get in Hin; [|exact Hnd].
    unfold countOf in Hc. rewrite Hin in Hc.
    apply Z.eqb_neq in Hg as Hg'. rewrite Hg' in Hc.
    split; [exact Hg|]. lia.
  - intros (Hg & H1 & Hlen).
    apply Z.eqb_neq in Hg as Hg'. rewrite Hg' in Hc.
    unfold countOf in Hc.
    destruct (NumberMap.get g counts) as [c|] eqn:G; [|lia].
    exists (g, c). split; [reflexivity|].
    apply filter_In. split.
    + apply NumberMapFacts.In_get; assumption.
    + cbn. apply Z.eqb_eq. lia.
Qed.

Lemma count_occ_filter_nonzero (l : list Z) (g : Z) :
  g <> 0 ->
  count_occ Z.eq_dec (filter (fun x => negb (x =? 0)) l) g
  = count_occ Z.eq_dec l g.
Proof.
  intros Hg. induction l as [|x l IH]; cbn [filter count_occ].
  - reflexivity.
  - destruct (x =? 0) eqn:E0; cbn [negb count_occ].
    + apply Z.eqb_eq in E0. subst x.
      destruct (Z.eq_dec 0 g); [congruence | exact IH].
    + destruct (Z.eq_dec x g); now rewrite IH.
Qed.

Lemma elevationGroupOccurrences_cons r reserves g :
  elevationGroupOccurrences (r :: reserves) g
  = (count_occ Z.eq_dec (elevationGroups (config (KaminoReserve.state r))) g
     + elevationGroupOccurrences reserves g)%nat.
Proof.
  unfold elevationGroupOccurrences. cbn [flat_map]. apply count_occ_app.
Qed.

Lemma elevationGroupOccurrences_all reserves g :
  g <> 0 ->
  noRepeatedGroup reserves ->
  (elevationGroupOccurrences reserves g <= List.length reserves)%nat
  /\ (elevationGroupOccurrences reserves g = List.length reserves <->
      forall r, In r reserves ->
                In g (elevationGroups (config (KaminoReserve.state r)))).
Proof.
  intros Hg. induction 1 as [|r reserves Hr _ [IHle IHeq]].
  - split; [apply Nat.le_refl|]. split; [intros _ r [] | reflexivity].
  - rewrite elevationGroupOccurrences_cons. cbn [List.length].
    set (groups := elevationGroups (config (KaminoReserve.state r))) in *.
    assert (H1 : (count_occ Z.eq_dec groups g <= 1)%nat).
    { rewrite <- (count_occ_filter_nonzero groups g Hg).
      apply (proj1 (NoDup_count_occ Z.eq_dec _) Hr). }
    pose proof (count_occ_In Z.eq_dec groups g) as Hin.
    split; [lia|]. split.
    + intros Hsum r' [<- | Hr']; [apply Hin; lia | apply IHeq; [lia | exact Hr']].
    + intros Hall.
      assert (Hg1 : In g groups) by (apply Hall; now left).
      apply Hin in Hg1.
      assert (Hrest : elevationGroupOccurrences reserves g = List.length reserves)
        by (apply IHeq; intros r' Hr'; apply Hall; now right).
      lia.
Qed.

(** The result holds no group id twice. *)
Lemma NoDup_map_fst_filter (test : Z * Z -> bool) (m : list (Z * Z)) :
  NoDup (map fst m) -> NoDup (map fst (filter test m)).
Proof.
  induction m as [|e m IH]; cbn [map filter]; intros H.
  - constructor.
  - inversion H as [|? ? Hn Hm]; subst.
    destruct (test e); cbn [map]; [|now apply IH].
    constructor; [|now apply IH].
    intros Hin. apply Hn. apply in_map_iff in Hin.
    destruct Hin as [e' [He Hin]]. apply filter_In in Hin.
    apply in_map_iff. exists e'. tauto.
Qed.

Lemma getElevationGroupsForReserves_NoDup reserves :
  NoDup (KaminoObligation.getElevationGroupsForReserves reserves).
Proof.
  unfold KaminoObligation.getElevationGroupsForReserves.
  apply NoDup_map_fst_filter.
  exact (proj1 (proj1 (elevationGroupsCounts_spec reserves 0))).
Qed.

(** As many reserves list a group as there are reserves exactly when
    every reserve lists it. *)
Lemma includes_In (l : list Z) (x : Z) : includes l x = true <-> In x l.
Proof.
  unfold includes. rewrite existsb_exists. split.
  - intros [y [Hy E]]. apply Z.eqb_eq in E. now subst y.
  - intros H. exists x. split; [exact H | apply Z.eqb_refl].
Qed.

Lemma listedBy_all reserves g :
  (listedBy reserves g <= List.length reserves)%nat
  /\ (listedBy reserves g = List.length reserves <->
      forall r, In r reserves ->
                In g (elevationGroups (config (KaminoReserve.state r)))).
Proof.
  unfold listedBy. induction reserves as [|r reserves [IHle IHeq]].
  - split; [apply Nat.le_refl|]. split; [intros _ r [] | reflexivity].
  - cbn [filter].
    destruct (includes (elevationGroups (config (KaminoReserve.state r))) g)
      eqn:E; cbn [List.length].
    + apply includes_In in E. split; [lia|]. split.
      * intros H r' [<- | Hr']; [exact E | apply IHeq; [lia | exact Hr']].
      * intros Hall. f_equal. apply IHeq. intros r' Hr'. apply Hall. now right.
    + split; [lia|]. split; [lia|].
      intros Hall. assert (Hin := Hall r (or_introl eq_refl)).
      apply includes_In in Hin. congruence.
Qed.

(** C7, as amended.  The result of [getElevationGroupsForReserves] holds
    no group id twice, and it is empty for the empty list.  For a
    non-empty list of reserves none of which repeats a non-zero group id,
    a group id is in the result exactly when it is non-zero and every
    input reserve lists it: when as many input reserves list it as there
    are input reserves. *)
Theorem getElevationGroupsForReserves_spec
        (reserves : list KaminoReserve.t) (g : Z) :
  NoDup (KaminoObligation.getElevationGroupsForReserves reserves)
  /\ KaminoObligation.getElevationGroupsForReserves [] = []
  /\ (reserves <> [] ->
      noRepeatedGroup reserves ->
      (In g (KaminoObligation.getElevationGroupsForReserves reserves) <->
       g <> 0
       /\ forall r, In r reserves ->
                    In g (elevationGroups (config (KaminoReserve.state r))))
      /\ everyReserveLists reserves g).
Proof.
  split; [apply getElevationGroupsForReserves_NoDup|].
  split; [reflexivity|].
  intros Hne Hrep.
  assert (Hlen : (1 <= List.length reserves)%nat)
    by (destruct reserves; [congruence | cbn; lia]).
  assert (Hall :
    In g (KaminoObligation.getElevationGroupsForReserves reserves) <->
    g <> 0
    /\ forall r, In r reserves ->
                 In g (elevationGroups (config (KaminoReserve.state r)))).
  { rewrite getElevationGroupsForReserves_occurrences. split.
    - intros (Hg & _ & Hocc). split; [exact Hg|].
      now apply (elevationGroupOccurrences_all reserves g Hg Hrep).
    - intros (Hg & H). split; [exact Hg|].
      apply (elevationGroupOccurrences_all reserves g Hg Hrep) in H. lia. }
  split; [exact Hall|].
  unfold everyReserveLists. rewrite Hall.
  now rewrite (proj2 (listedBy_all reserves g)).
Qed.

(** ** Order on [Decimal] *)

Lemma Qccompare_spec (a b : Qc) :
  CompareSpec (a = b) (a < b)%Qc (b < a)%Qc (a ?= b)%Qc.
Proof.
  unfold Qccompare, Qclt. destruct (Qcompare_spec a b) as [H|H|H];
    constructor; auto; now apply Qc_is_canon.
Qed.

Lemma qmin_spec a b :
  (a <= b /\ qmin a b = a)%Qc \/ (b < a /\ qmin a b = b)%Qc.
Proof.
  unfold qmin. destruct (Qccompare_spec a b) as [->|H|H].
  - left. split; [apply Qcle_refl | reflexivity].
  - left. split; [now apply Qclt_le_weak | reflexivity].
  - right. now split.
Qed.

Lemma qmax_spec a b :
  (b <= a /\ qmax a b = a)%Qc \/ (a < b /\ qmax a b = b)%Qc.
Proof.
  unfold qmax. destruct (Qccompare_spec a b) as [->|H|H].
  - left. split; [apply Qcle_refl | reflexivity].
  - right. now split.
  - left. split; [now apply Qclt_le_weak | reflexivity].
Qed.

Ltac qorder :=
  repeat match goal with
         | |- context [qmin ?a ?b] =>
             let H := fresh in
             destruct (qmin_spec a b) as [[? H]|[? H]]; rewrite H in *; clear H
         | |- context [qmax ?a ?b] =>
             let H := fresh in
             destruct (qmax_spec a b) as [[? H]|[? H]]; rewrite H in *; clear H
         | _ : context [qmin ?a ?b] |- _ =>
             let H := fresh in
             destruct (qmin_spec a b) as [[? H]|[? H]]; rewrite H in *; clear H
         | _ : context [qmax ?a ?b] |- _ =>
             let H := fresh in
             destruct (qmax_spec a b) as [[? H]|[? H]]; rewrite H in *; clear H
         end;
  qc2q; try lra; try nra.

Module DecOrder.

Lemma min2_fin a b : Dec.min2 (Fin a) (Fin b) = Fin (qmin a b).
Proof.
  unfold Dec.min2, Dec.gt, qmin. cbn. now destruct (a ?= b)%Qc.
Qed.

Lemma max2_fin a b : Dec.max2 (Fin a) (Fin b) = Fin (qmax a b).
Proof.
  unfold Dec.max2, Dec.lt, qmax. cbn. now destruct (a ?= b)%Qc.
Qed.

Lemma lt_fin a b : Dec.lt (Fin a) (Fin b) = false <-> (b <= a)%Qc.
Proof.
  unfold Dec.lt. cbn. destruct (Qccompare_spec a b) as [->|H|H].
  - split; [intros _; apply Qcle_refl | reflexivity].
  - split; [discriminate | intros H'; exfalso; now apply (Qclt_not_le _ _ H)].
  - split; [intros _; now apply Qclt_le_weak | reflexivity].
Qed.

Lemma lte_fin a b : Dec.lte (Fin a) (Fin b) = true <-> (a <= b)%Qc.
Proof.
  unfold Dec.lte. cbn. destruct (Qccompare_spec a b) as [->|H|H].
  - split; [intros _; apply Qcle_refl | reflexivity].
  - split; [intros _; now apply Qclt_le_weak | reflexivity].
  - split; [discriminate | intros H'; exfalso; now apply (Qclt_not_le _ _ H)].
Qed.

Lemma lt_irrefl x : Dec.lt x x = false.
Proof.
  destruct x as [a|s|]; cbn; try reflexivity.
  - apply lt_fin, Qcle_refl.
  - unfold Dec.lt. cbn. now rewrite Bool.eqb_reflx.
Qed.

Lemma lt_nan_r x : Dec.lt x NaN = false.
Proof. now destruct x. Qed.

Lemma lt_nan_l x : Dec.lt NaN x = false.
Proof. reflexivity. Qed.

(** Between two values that are numbers, [x < y] fails exactly when
    [y <= x] holds. *)
Lemma lt_false_lte x y :
  Dec.lt x y = false ->
  Dec.isNaN x = false -> Dec.isNaN y = false -> Dec.lte y x = true.
Proof.
  destruct x as [a|s|], y as [b|s'|]; cbn; try discriminate; intros H _ _.
  - apply lte_fin. now apply lt_fin.
  - now destruct s'.
  - now destruct s.
  - unfold Dec.lt, Dec.lte in *. cbn in *. now destruct s, s'.
Qed.

Lemma not_lt x y :
  Dec.lt x y = false ->
  Dec.lt x y = false
  /\ (Dec.isNaN y = false -> Dec.isNaN x = false -> Dec.lte y x = true).
Proof.
  intros H. split; [exact H|]. intros Hy Hx. now apply lt_false_lte.
Qed.

End DecOrder.

(** ** The largest amount that can be borrowed *)

Lemma borrowSizing_fin a d f capActive p x :
  borrowSizing (Fin a) (Fin d) (Fin f) capActive (Fin p) (Fin x)
  = Fin (qsizing a d f capActive (qmin (qmin p a) x)).
Proof.
  unfold borrowSizing, qsizing. cbn [Dec.min Dec.max Dec.maxOrMin Dec.isNaN].
  rewrite !DecOrder.min2_fin.
  destruct capActive; cbn [Dec.min Dec.max Dec.maxOrMin Dec.isNaN];
    rewrite ?DecOrder.min2_fin; cbn [Dec.mul Dec.sub Dec.add Dec.neg Dec.isNaN];
    apply DecOrder.max2_fin.
Qed.

Lemma borrowSizing_inf a d f capActive x :
  borrowSizing (Fin a) (Fin d) (Fin f) capActive (Inf false) (Fin x)
  = Fin (qsizing a d f capActive (qmin a x)).
Proof.
  unfold borrowSizing, qsizing. cbn [Dec.min Dec.max Dec.maxOrMin Dec.isNaN].
  change (Dec.min2 (Inf false) (Fin a)) with (Fin a).
  rewrite !DecOrder.min2_fin.
  destruct capActive; cbn [Dec.min Dec.max Dec.maxOrMin Dec.isNaN];
    rewrite ?DecOrder.min2_fin; cbn [Dec.mul Dec.sub Dec.add Dec.neg Dec.isNaN];
    apply DecOrder.max2_fin.
Qed.

Lemma borrowSizing_neg_inf a d f capActive x :
  (0 <= f)%Qc ->
  borrowSizing (Fin a) (Fin d) (Fin f) capActive (Inf true) (Fin x) = NaN.
Proof.
  intros Hf. apply Qcnegb_false in Hf.
  unfold borrowSizing. cbn [Dec.min Dec.max Dec.maxOrMin Dec.isNaN].
  change (Dec.min2 (Inf true) (Fin a)) with (Inf true).
  change (Dec.min2 (Inf true) (Fin x)) with (Inf true).
  destruct capActive; cbn [Dec.min Dec.max Dec.maxOrMin Dec.isNaN];
    try change (Dec.min2 (Inf true) (Fin d)) with (Inf true);
    cbn [Dec.mul]; rewrite Hf; destruct (Qczerob f); reflexivity.
Qed.

Lemma borrowSizing_nan a d f capActive x :
  borrowSizing (Fin a) (Fin d) (Fin f) capActive NaN (Fin x) = NaN.
Proof.
  unfold borrowSizing. destruct capActive; reflexivity.
Qed.

Lemma qsizing_mono a d f capActive m m' :
  (f <= 1)%Qc -> (m <= m')%Qc ->
  (qsizing a d f capActive m <= qsizing a d f capActive m')%Qc.
Proof.
  intros Hf Hm. unfold qsizing. destruct capActive; qorder.
Qed.

Lemma qsizing_nonpos a d f capActive m :
  (f <= 1)%Qc -> (m <= 0)%Qc -> qsizing a d f capActive m = 0%Qc.
Proof.
  intros Hf Hm. unfold qsizing.
  assert (H : forall v, (v <= 0)%Qc -> qmax 0 v = 0%Qc).
  { intros v Hv. destruct (qmax_spec 0 v) as [[_ ->]|[Hlt _]]; [reflexivity|].
    exfalso. now apply (Qclt_not_le _ _ Hlt). }
  apply H. destruct capActive; qorder.
Qed.

(** *** Values that move towards zero *)

Lemma Qc_sign_cases (a : Qc) :
  ((a < 0)%Qc /\ Qczerob a = false /\ Qcnegb a = true)
  \/ (a = 0%Qc /\ Qczerob a = true /\ Qcnegb a = false)
  \/ ((0 < a)%Qc /\ Qczerob a = false /\ Qcnegb a = false).
Proof.
  destruct (Qc_dec a 0) as [[H|H]|H].
  - left. split; [exact H|]. split; [|now apply Qcnegb_true].
    apply Qczerob_false. now apply Qclt_not_eq.
  - right. right. split; [exact H|]. split.
    + apply Qczerob_false. intros E. subst. revert H. apply Qcle_not_lt, Qcle_refl.
    + apply Qcnegb_false. now apply Qclt_le_weak.
  - right. left. subst. repeat split.
Qed.

Ltac qsign a :=
  let H := fresh "S" in
  let Hz := fresh "Z" in
  let Hn := fresh "N" in
  destruct (Qc_sign_cases a) as [(H & Hz & Hn)|[(H & Hz & Hn)|(H & Hz & Hn)]];
  rewrite ?Hz, ?Hn in *.

Lemma between0_inv u u' :
  between0 u u' ->
  (exists a a', u = Fin a /\ u' = Fin a'
                /\ ((0 <= a' /\ a' <= a) \/ (a <= a' /\ a' <= 0))%Qc)
  \/ (exists a', u = Inf false /\ u' = Fin a' /\ (0 <= a')%Qc)
  \/ (exists a', u = Inf true /\ u' = Fin a' /\ (a' <= 0)%Qc)
  \/ u = u'.
Proof.
  unfold between0, Dle.
  destruct u as [a|[]|], u' as [a'|[]|];
    try (intros [[H1 H2]|[H1 H2]]; discriminate);
    rewrite ?DecOrder.lte_fin.
  - intros H. left. exists a, a'. tauto.
  - intros [[_ H2]|[_ H2]]; [discriminate|].
    right. right. left. exists a'. auto.
  - intros _. now repeat right.
  - intros [[H1 _]|[H1 _]]; [|discriminate].
    right. left. exists a'. auto.
  - intros _. now repeat right.
Qed.

Lemma between0_fin a a' :
  ((0 <= a' /\ a' <= a) \/ (a <= a' /\ a' <= 0))%Qc ->
  between0 (Fin a) (Fin a').
Proof.
  unfold between0, Dle. rewrite !DecOrder.lte_fin. tauto.
Qed.

Lemma between0_inf_pos a' : (0 <= a')%Qc -> between0 (Inf false) (Fin a').
Proof.
  intros H. left. unfold Dle. rewrite DecOrder.lte_fin. split; [exact H|reflexivity].
Qed.

Lemma between0_inf_neg a' : (a' <= 0)%Qc -> between0 (Inf true) (Fin a').
Proof.
  intros H. right. unfold Dle. rewrite DecOrder.lte_fin. split; [reflexivity|exact H].
Qed.

Lemma shrunk_refl u : shrunk u u.
Proof. right. right. now left. Qed.

Lemma shrunk_nan_l u' : shrunk NaN u'.
Proof. now left. Qed.

Lemma shrunk_nan_r u : shrunk u NaN.
Proof. right. now left. Qed.

Lemma shrunk_between u u' : between0 u u' -> shrunk u u'.
Proof. intros H. right. right. now right. Qed.

Lemma shrunk_mul (y u u' : Decimal) :
  shrunk u u' -> shrunk (u * y)%dec (u' * y)%dec.
Proof.
  intros [ -> |[ -> |[ -> |H]]];
    [apply shrunk_nan_l | destruct u; apply shrunk_nan_r | apply shrunk_refl |].
  destruct (between0_inv _ _ H)
    as [(a & a' & -> & -> & Ha)|[(a' & -> & -> & Ha)|[(a' & -> & -> & Ha)| -> ]]];
    [| | |apply shrunk_refl]; destruct y as [k|s|]; cbn;
    try apply shrunk_nan_l.
  - apply shrunk_between, between0_fin. qsign k; subst; qc2q; nra.
  - qsign a'; [| apply shrunk_nan_r |]; qsign a; try apply shrunk_nan_l;
      try apply shrunk_refl; exfalso; subst; qc2q; lra.
  - qsign k; [| apply shrunk_nan_l |]; apply shrunk_between;
      [apply between0_inf_neg | apply between0_inf_pos]; qc2q; nra.
  - qsign a'; [exfalso; qc2q; lra | apply shrunk_nan_r
               | destruct s; apply shrunk_refl].
  - qsign k; [| apply shrunk_nan_l |]; apply shrunk_between;
      [apply between0_inf_pos | apply between0_inf_neg]; qc2q; nra.
  - qsign a'; [destruct s; apply shrunk_refl | apply shrunk_nan_r
               | exfalso; qc2q; lra].
Qed.

Lemma shrunk_div (y u u' : Decimal) :
  shrunk u u' -> shrunk (u / y)%dec (u' / y)%dec.
Proof.
  intros H. destruct y as [k|s|].
  - destruct (Qc_eq_dec k 0) as [-> | Hk].
    + destruct H as [ -> |[ -> |[ -> |H]]];
        [apply shrunk_nan_l | destruct u; apply shrunk_nan_r | apply shrunk_refl |].
      destruct (between0_inv _ _ H)
        as [(a & a' & -> & -> & Ha)|[(a' & -> & -> & Ha)
                                    |[(a' & -> & -> & Ha)| -> ]]];
        [| | |apply shrunk_refl]; cbn.
      * qsign a'; [| apply shrunk_nan_r |]; qsign a; try apply shrunk_nan_l;
          try apply shrunk_refl; exfalso; subst; qc2q; lra.
      * qsign a'; [exfalso; qc2q; lra | apply shrunk_nan_r | apply shrunk_refl].
      * qsign a'; [apply shrunk_refl | apply shrunk_nan_r | exfalso; qc2q; lra].
    + rewrite !(DecFacts.div_fin _ _ Hk). now apply shrunk_mul.
  - destruct H as [ -> |[ -> |[ -> |H]]];
      [apply shrunk_nan_l | destruct u; apply shrunk_nan_r | apply shrunk_refl |].
    destruct (between0_inv _ _ H)
      as [(a & a' & -> & -> & Ha)|[(a' & -> & -> & Ha)
                                  |[(a' & -> & -> & Ha)| -> ]]];
      [apply shrunk_refl | apply shrunk_nan_l | apply shrunk_nan_l
       | apply shrunk_refl].
  - destruct u, u'; apply shrunk_nan_l.
Qed.

Lemma Qcinv_pos (b : Qc) : (0 < b)%Qc -> (0 < / b)%Qc.
Proof.
  intros Hb. qc2q. now apply Qinv_lt_0_compat.
Qed.

Lemma Qcinv_le (b b' : Qc) : (0 < b)%Qc -> (b <= b')%Qc -> (/ b' <= / b)%Qc.
Proof.
  intros Hb Hbb'.
  assert (Hb' : (0 < b')%Qc) by (eapply Qclt_le_trans; eassumption).
  pose proof (Qcinv_pos b Hb) as Hi. pose proof (Qcinv_pos b' Hb') as Hi'.
  assert (E : (/ b + - / b' = (b' + - b) * (/ b * / b'))%Qc).
  { field. split; apply Qclt_not_eq in Hb, Hb'; auto. }
  apply Qcle_minus_iff. rewrite E.
  apply Qcle_minus_iff in Hbb'.
  assert (Hp : (0 < / b * / b')%Qc) by (qc2q; nra).
  set (t := (/ b * / b')%Qc) in *. clearbody t. clear E Hi Hi'.
  qc2q. nra.
Qed.

(** A larger non-negative divisor moves the quotient towards zero. *)
Lemma shrunk_divisor (D : Decimal) (b b' : Qc) :
  (0 <= b)%Qc -> (b <= b')%Qc ->
  shrunk (D / Fin b)%dec (D / Fin b')%dec.
Proof.
  intros Hb Hbb'.
  assert (Hb' : (0 <= b')%Qc) by (eapply Qcle_trans; eassumption).
  destruct D as [d|s|]; cbn; [| |apply shrunk_nan_l].
  - qsign b; [exfalso; qc2q; lra | |].
    + qsign b'; [exfalso; qc2q; lra | apply shrunk_refl |].
      qsign d; [| apply shrunk_nan_l |]; apply shrunk_between;
        [apply between0_inf_neg | apply between0_inf_pos];
        pose proof (Qcinv_pos b' S0); qc2q; nra.
    + qsign b'; [exfalso; qc2q; lra | exfalso; subst; qc2q; lra |].
      apply shrunk_between, between0_fin.
      pose proof (Qcinv_pos b S). pose proof (Qcinv_pos b' S0).
      pose proof (Qcinv_le b b' S Hbb').
      destruct (Qclt_le_dec d 0); [right | left]; qc2q; nra.
  - apply Qcnegb_false in Hb, Hb'. rewrite Hb, Hb'. apply shrunk_refl.
Qed.

Section SizingFacts.

Variables (a d f : Qc) (capActive : bool) (x : Qc).
Hypothesis f_nonneg : (0 <= f)%Qc.
Hypothesis f_le_1 : (f <= 1)%Qc.

Let sizing (power capRemained : Decimal) : Decimal :=
  borrowSizing (Fin a) (Fin d) (Fin f) capActive power capRemained.

Lemma borrowSizing_mono_cap (P : Decimal) (x' : Qc) :
  (x <= x')%Qc -> Dec.lt (sizing P (Fin x')) (sizing P (Fin x)) = false.
Proof.
  intros Hx. unfold sizing. destruct P as [p|[]|].
  - rewrite !borrowSizing_fin. apply DecOrder.lt_fin.
    apply qsizing_mono; [exact f_le_1 | qorder].
  - rewrite !borrowSizing_neg_inf by exact f_nonneg. reflexivity.
  - rewrite !borrowSizing_inf. apply DecOrder.lt_fin.
    apply qsizing_mono; [exact f_le_1 | qorder].
  - rewrite !borrowSizing_nan. reflexivity.
Qed.

Lemma borrowSizing_shrunk (P P' : Decimal) :
  shrunk P P' -> Dec.lt (sizing P (Fin x)) (sizing P' (Fin x)) = false.
Proof.
  unfold sizing.
  intros [ -> |[ -> |[ -> |H]]].
  - now rewrite borrowSizing_nan.
  - rewrite borrowSizing_nan. apply DecOrder.lt_nan_r.
  - apply DecOrder.lt_irrefl.
  - destruct (between0_inv _ _ H)
      as [(p & p' & -> & -> & Hp)|[(p' & -> & -> & Hp)
                                  |[(p' & -> & -> & Hp)| -> ]]].
    + rewrite !borrowSizing_fin. apply DecOrder.lt_fin.
      destruct Hp as [[H0 Hle]|[Hle H0]].
      * apply qsizing_mono; [exact f_le_1 | qorder].
      * rewrite !qsizing_nonpos; [apply Qcle_refl | exact f_le_1 | qorder
                                  | exact f_le_1 | qorder].
    + rewrite borrowSizing_inf, borrowSizing_fin. apply DecOrder.lt_fin.
      apply qsizing_mono; [exact f_le_1 | qorder].
    + now rewrite borrowSizing_neg_inf by exact f_nonneg.
    + apply DecOrder.lt_irrefl.
Qed.

End SizingFacts.
Lemma ofZ_le (x y : Z) :
  x <= y -> (Q2Qc (inject_Z x) <= Q2Qc (inject_Z y))%Qc.
Proof.
  intros H. qc2q. now rewrite Zle_Qle in H.
Qed.

Lemma ofZ_lt (x y : Z) :
  x < y -> (Q2Qc (inject_Z x) < Q2Qc (inject_Z y))%Qc.
Proof.
  intros H. qc2q. now rewrite Zlt_Qlt in H.
Qed.

Lemma ofN_nonneg (n : N) : (0 <= Q2Qc (inject_Z (Z.of_N n)))%Qc.
Proof.
  apply (ofZ_le 0). lia.
Qed.

Lemma ofZ_pos (z : Z) : 0 < z -> (0 < Q2Qc (inject_Z z))%Qc.
Proof.
  apply (ofZ_lt 0).
Qed.

Lemma Fraction_toDecimal_nonneg (valueSf : N) :
  exists q, Fraction_toDecimal valueSf = Fin q /\ (0 <= q)%Qc.
Proof.
  rewrite Fraction_toDecimal_fin. eexists. split; [reflexivity|].
  pose proof (ofN_nonneg valueSf) as Hn.
  assert (Hp : (0 < Q2Qc (inject_Z (Z.of_N (2 ^ Fraction_FRACTIONS))))%Qc)
    by (apply ofZ_pos; reflexivity).
  apply Qcinv_pos in Hp. unfold Qcdiv.
  set (t := (/ Q2Qc (inject_Z (Z.of_N (2 ^ Fraction_FRACTIONS))))%Qc) in *.
  clearbody t. qc2q. nra.
Qed.

Lemma originationFeeShare_fin (reserve : KaminoReserve.t) :
  exists f, originationFeeShare reserve = Fin f /\ (0 <= f)%Qc /\ (f <= 1)%Qc.
Proof.
  unfold originationFeeShare, KaminoReserve.getBorrowFee.
  destruct (Fraction_toDecimal_nonneg
              (borrowFeeSf (config (KaminoReserve.state reserve))))
    as [q [-> Hq]].
  cbn [Dec.add Dec.ofZ Dec.div].
  change (Q2Qc (inject_Z 1)) with 1%Qc.
  assert (Hq1 : (0 < q + 1)%Qc) by (qc2q; lra).
  assert (Hz : Qczerob (q + 1) = false)
    by (apply Qczerob_false; intros E; rewrite E in Hq1;
        revert Hq1; apply Qcle_not_lt, Qcle_refl).
  rewrite Hz. eexists. split; [reflexivity|].
  pose proof (Qcinv_pos _ Hq1) as Hi.
  assert (E : ((q + 1) * / (q + 1) = 1)%Qc)
    by (apply Qcmult_inv_r; now apply Qczerob_false).
  unfold Qcdiv. set (t := (/ (q + 1))%Qc) in *. clearbody t.
  assert (E' : (((q + 1) * t)%Qc == 1%Qc)%Q) by (rewrite E; reflexivity).
  clear E. split; qc2q; nra.
Qed.

Section MaxBorrowFacts.

Variable SLOTS_PER_DAY : Z.

Lemma getMaxBorrowAmount_sizing market tokenMint slot this reserve :
  getReserveByMint market tokenMint = Some reserve ->
  KaminoObligation.getMaxBorrowAmount SLOTS_PER_DAY market tokenMint slot this
  = (Ok (borrowSizing
           (KaminoReserve.getLiquidityAvailableAmount reserve)
           (debtWithdrawalCapRemained SLOTS_PER_DAY reserve slot)
           (originationFeeShare reserve)
           (Dec.gt (KaminoReserve.getDebtWithdrawalCapCapacity reserve)
                   (Dec.ofZ 0))
           (borrowPower this reserve
                        (if elevationGroupActivated this reserve
                         then Dec.ofZ 1
                         else KaminoReserve.getBorrowFactor reserve))
           (borrowCapRemained this reserve)),
     this).
Proof.
  intros H. unfold KaminoObligation.getMaxBorrowAmount. rewrite H. reflexivity.
Qed.

Lemma debtWithdrawalCapRemained_fin reserve slot :
  exists d, debtWithdrawalCapRemained SLOTS_PER_DAY reserve slot = Fin d.
Proof.
  unfold debtWithdrawalCapRemained, KaminoReserve.getDebtWithdrawalCapCurrent.
  destruct (SLOTS_PER_DAY <? KaminoReserve.slotsElapsedSince reserve slot);
    eexists; reflexivity.
Qed.

Lemma borrowCapRemained_fin this reserve :
  exists x, borrowCapRemained this reserve = Fin x.
Proof.
  unfold borrowCapRemained, KaminoReserve.getBorrowedAmount.
  rewrite Fraction_toDecimal_fin.
  destruct (_ && _); eexists; reflexivity.
Qed.

(** C5.  With the obligation, the mint and the slot fixed, a reserve with a
    larger [borrowLimit] never yields a smaller [getMaxBorrowAmount], and a
    reserve with a larger [borrowFactorPct] never yields a larger one: the
    strict comparison of the two amounts fails, and when both amounts are
    numbers they are ordered. *)
Theorem getMaxBorrowAmount_monotone
        (this : KaminoObligation.t) (market market' : KaminoMarket)
        (tokenMint : PublicKey) (slot : Z) (reserve : KaminoReserve.t) (v : N) :
  getReserveByMint market tokenMint = Some reserve ->
  let call m := KaminoObligation.getMaxBorrowAmount SLOTS_PER_DAY m tokenMint slot this in
  ((borrowLimit (config (KaminoReserve.state reserve)) <= v)%N ->
   getReserveByMint market' tokenMint = Some (withBorrowLimit v reserve) ->
   exists amount amount',
     call market = (Ok amount, this)
     /\ call market' = (Ok amount', this)
     /\ Dec.lt amount' amount = false
     /\ (Dec.isNaN amount = false -> Dec.isNaN amount' = false ->
         Dec.lte amount amount' = true))
  /\ ((borrowFactorPct (config (KaminoReserve.state reserve)) <= v)%N ->
      getReserveByMint market' tokenMint = Some (withBorrowFactorPct v reserve) ->
      exists amount amount',
        call market = (Ok amount, this)
        /\ call market' = (Ok amount', this)
        /\ Dec.lt amount amount' = false
        /\ (Dec.isNaN amount' = false -> Dec.isNaN amount = false ->
            Dec.lte amount' amount = true)).
Proof.
  intros Hres call. subst call. cbv beta.
  destruct (originationFeeShare_fin reserve) as (f & Ef & Hf0 & Hf1).
  destruct (debtWithdrawalCapRemained_fin reserve slot) as (d & Ed).
  split; intros Hv Hres'.
  - rewrite (getMaxBorrowAmount_sizing _ _ _ _ _ Hres),
      (getMaxBorrowAmount_sizing _ _ _ _ _ Hres').
    eexists. eexists. split; [reflexivity|]. split; [reflexivity|].
    apply DecOrder.not_lt.
    change (originationFeeShare (withBorrowLimit v reserve))
      with (originationFeeShare reserve).
    change (debtWithdrawalCapRemained SLOTS_PER_DAY (withBorrowLimit v reserve) slot)
      with (debtWithdrawalCapRemained SLOTS_PER_DAY reserve slot).
    change (KaminoReserve.getLiquidityAvailableAmount (withBorrowLimit v reserve))
      with (KaminoReserve.getLiquidityAvailableAmount reserve).
    change (KaminoReserve.getDebtWithdrawalCapCapacity (withBorrowLimit v reserve))
      with (KaminoReserve.getDebtWithdrawalCapCapacity reserve).
    change (elevationGroupActivated this (withBorrowLimit v reserve))
      with (elevationGroupActivated this reserve).
    change (KaminoReserve.getBorrowFactor (withBorrowLimit v reserve))
      with (KaminoReserve.getBorrowFactor reserve).
    change (borrowPower this (withBorrowLimit v reserve))
      with (borrowPower this reserve).
    rewrite Ef, Ed.
    unfold borrowCapRemained.
    change (disableUsageAsCollOutsideEmode
              (config (KaminoReserve.state (withBorrowLimit v reserve))))
      with (disableUsageAsCollOutsideEmode (config (KaminoReserve.state reserve))).
    change (elevationGroupActivated this (withBorrowLimit v reserve))
      with (elevationGroupActivated this reserve).
    unfold KaminoReserve.getLiquidityAvailableAmount, Dec.ofN, Dec.ofZ.
    destruct (_ && negb _).
    + apply DecOrder.lt_irrefl.
    + unfold KaminoReserve.getBorrowedAmount. rewrite !Fraction_toDecimal_fin.
      cbn [Dec.sub Dec.add Dec.neg KaminoReserve.stats_reserveBorrowLimit
           Dec.ofN Dec.ofZ].
      apply borrowSizing_mono_cap; [exact Hf0 | exact Hf1 |].
      change (borrowLimit (config (KaminoReserve.state (withBorrowLimit v reserve))))
        with v.
      change (liquidity (KaminoReserve.state (withBorrowLimit v reserve)))
        with (liquidity (KaminoReserve.state reserve)).
      assert (Hle : (Q2Qc (inject_Z (Z.of_N (borrowLimit (config (KaminoReserve.state reserve)))))
                     <= Q2Qc (inject_Z (Z.of_N v)))%Qc).
      { apply ofZ_le. lia. }
      qc2q. lra.
  - rewrite (getMaxBorrowAmount_sizing _ _ _ _ _ Hres),
      (getMaxBorrowAmount_sizing _ _ _ _ _ Hres').
    eexists. eexists. split; [reflexivity|]. split; [reflexivity|].
    apply DecOrder.not_lt.
    change (originationFeeShare (withBorrowFactorPct v reserve))
      with (originationFeeShare reserve).
    change (debtWithdrawalCapRemained SLOTS_PER_DAY (withBorrowFactorPct v reserve) slot)
      with (debtWithdrawalCapRemained SLOTS_PER_DAY reserve slot).
    change (KaminoReserve.getLiquidityAvailableAmount (withBorrowFactorPct v reserve))
      with (KaminoReserve.getLiquidityAvailableAmount reserve).
    change (KaminoReserve.getDebtWithdrawalCapCapacity (withBorrowFactorPct v reserve))
      with (KaminoReserve.getDebtWithdrawalCapCapacity reserve).
    change (elevationGroupActivated this (withBorrowFactorPct v reserve))
      with (elevationGroupActivated this reserve).
    change (borrowCapRemained this (withBorrowFactorPct v reserve))
      with (borrowCapRemained this reserve).
    change (borrowPower this (withBorrowFactorPct v reserve))
      with (borrowPower this reserve).
    rewrite Ef, Ed.
    destruct (borrowCapRemained_fin this reserve) as (x & ->).
    unfold KaminoReserve.getLiquidityAvailableAmount, Dec.ofN, Dec.ofZ.
    apply borrowSizing_shrunk; [exact Hf0 | exact Hf1 |].
    destruct (elevationGroupActivated this reserve); [apply shrunk_refl|].
    unfold borrowPower. apply shrunk_mul, shrunk_div.
    unfold KaminoReserve.getBorrowFactor.
    rewrite !(DecFacts.div_fin _ (Q2Qc (inject_Z 100))) by discriminate.
    cbn [Dec.ofN Dec.ofZ Dec.mul].
    change (borrowFactorPct (config (KaminoReserve.state (withBorrowFactorPct v reserve))))
      with v.
    apply shrunk_divisor.
    + pose proof (ofN_nonneg (borrowFactorPct (config (KaminoReserve.state reserve)))).
      assert (Hp : (0 < / Q2Qc (inject_Z 100))%Qc)
        by (apply Qcinv_pos, ofZ_pos; reflexivity).
      set (t := (/ Q2Qc (inject_Z 100))%Qc) in *. clearbody t. qc2q. nra.
    + assert (Hle : (Q2Qc (inject_Z (Z.of_N (borrowFactorPct (config (KaminoReserve.state reserve)))))
                     <= Q2Qc (inject_Z (Z.of_N v)))%Qc).
      { apply ofZ_le. lia. }
      assert (Hp : (0 < / Q2Qc (inject_Z 100))%Qc)
        by (apply Qcinv_pos, ofZ_pos; reflexivity).
      set (t := (/ Q2Qc (inject_Z 100))%Qc) in *. clearbody t. qc2q. nra.
Qed.

End MaxBorrowFacts.

(** ** The code on sample data *)

Lemma same_eq (x y : Decimal) : Dec.same x y = true -> x = y.
Proof.
  destruct x as [a|s|], y as [b|s'|]; cbn; try discriminate; intros H.
  - f_equal. now apply Qc_eq_bool_correct.
  - f_equal. now apply Bool.eqb_prop.
  - reflexivity.
Qed.

(** C3, on sample data.  The obligation holds deposits worth 20.  The
    action [withdraw] of 5 tokens of mint 1 takes the deposits to 15; the
    action [repayAndWithdraw] of the same 5 tokens takes them to 25: its
    second leg calls [calculateSimulatedDeposit] with the amount as it is,
    not negated. *)
Theorem getSimulatedObligationStats_repayAndWithdraw_sample :
  let run action :=
    KaminoObligation.getSimulatedObligationStats
      (Dec.ofZ 5) action 1%N Sample.market Sample.reserves Sample.obligation in
  ObligationStats.userTotalDeposit
    (KaminoObligation.refreshedStats Sample.obligation) = Dec.ofZ 20
  /\ (exists r, run "withdraw"%string = (Ok r, Sample.obligation)
                /\ ObligationStats.userTotalDeposit (fst (fst r)) = Dec.ofZ 15)
  /\ (exists r, run "repayAndWithdraw"%string = (Ok r, Sample.obligation)
                /\ ObligationStats.userTotalDeposit (fst (fst r)) = Dec.ofZ 25).
Proof.
  cbv zeta. split; [reflexivity|].
  split; (eexists; split; [vm_compute; reflexivity
                          | apply same_eq; vm_compute; reflexivity]).
Qed.

(** C4, on sample data.  The obligation has a debt of 9 under a borrow
    limit of 10, and 20 tokens deposited in a reserve with a loan-to-value
    of 50%.  The specification allows a withdrawal of 1.99 tokens;
    [getMaxWithdrawAmount] returns 0, because [>=] on two [Decimal] objects
    compares their [valueOf] strings, and ["9" >= "10"]. *)
Theorem getMaxWithdrawAmount_sample :
  let stats := KaminoObligation.refreshedStats Sample.obligation in
  let debt := ObligationStats.userTotalBorrowBorrowFactorAdjusted stats in
  let limit := ObligationStats.borrowLimit stats in
  Dec.lt debt limit = true
  /\ valueOf debt = "9"%string
  /\ valueOf limit = "10"%string
  /\ js_ge debt limit = true
  /\ KaminoObligation.getMaxWithdrawAmount
       Sample.SLOTS_PER_DAY Sample.market 1%N 100 Sample.obligation
     = (Ok (Dec.ofZ 0), Sample.obligation)
  /\ maxWithdrawAmountOfSpec
       debt limit
       (Fin (KaminoReserve.stats_loanToValuePct Sample.reserveA))
       (Dec.ofZ 20)
       (KaminoReserve.getOracleMarketPrice Sample.reserveA)
       (KaminoReserve.getMintFactor Sample.reserveA)
       (KaminoReserve.getLiquidityAvailableAmount Sample.reserveA)
       (KaminoReserve.getDepositWithdrawalCapCapacity Sample.reserveA
        - KaminoReserve.getDepositWithdrawalCapCurrent
            Sample.SLOTS_PER_DAY Sample.reserveA 100)%dec
     = Dec.ofQ (199 # 100).
Proof.
  cbv zeta. repeat split; try (vm_compute; reflexivity);
    apply same_eq; vm_compute; reflexivity.
Qed.

(** C10, on sample data.  For the limbs [[2^60; 0; 0; 0]] (the rate 1) the
    reserve-side reduction yields 0 and leaves the limbs as they are; the
    obligation-side one yields 1 and leaves the limbs reversed. *)
Theorem getCumulativeBorrowRate_sample :
  let limbs := [2 ^ 60; 0; 0; 0]%N in
  cumulativeBorrowRateBsf (liquidity (KaminoReserve.state Sample.reserveA)) = limbs
  /\ ObligationLiquidity.cumulativeBorrowRateBsf Sample.borrowB = limbs
  /\ KaminoReserve.getCumulativeBorrowRate Sample.reserveA = (Dec.ofZ 0, limbs)
  /\ fst (KaminoObligation.getCumulativeBorrowRate Sample.borrowB) = Dec.ofZ 1
  /\ ObligationLiquidity.cumulativeBorrowRateBsf
       (snd (KaminoObligation.getCumulativeBorrowRate Sample.borrowB))
     = [0; 0; 0; 2 ^ 60]%N.
Proof.
  cbv zeta. repeat split; try reflexivity.
  - unfold KaminoReserve.getCumulativeBorrowRate. f_equal.
    apply same_eq. vm_compute. reflexivity.
  - apply same_eq. vm_compute. reflexivity.
Qed.

(** A reserve that lists a group id twice is counted twice: of a reserve
    that lists group 7 twice and a reserve that lists nothing, one lists
    group 7, and the result holds 7. *)
Lemma getElevationGroupsForReserves_repeated_group :
  KaminoObligation.getElevationGroupsForReserves
    [Sample.reserveTwice; Sample.reserveNone] = [7]
  /\ listedBy [Sample.reserveTwice; Sample.reserveNone] 7 = 1%nat.
Proof.
  split; reflexivity.
Qed.

(** C7 fails as it is stated: no reserve of the empty list fails to list
    group 7 (as many of them list it as there are, none), and the result
    for the empty list is empty. *)
Lemma getElevationGroupsForReserves_empty_list :
  KaminoObligation.getElevationGroupsForReserves [] = []
  /\ listedBy [] 7 = @List.length KaminoReserve.t []
  /\ ~ everyReserveLists [] 7.
Proof.
  split; [reflexivity|]. split; [reflexivity|].
  intros [_ H]. apply H. split; [discriminate | reflexivity].
Qed.

(** ** The theorems at sample data *)

Lemma getEstimatedTotalSupply_no_elapsed_slot_sample :
  100 <= Z.of_N (lastUpdateSlot (KaminoReserve.state Sample.reserveA))
  /\ KaminoReserve.getEstimatedTotalSupply
       Sample.SLOTS_PER_YEAR Sample.borrowAPR Sample.reserveA 100 25
     = KaminoReserve.getTotalSupply Sample.reserveA.
Proof.
  assert (H : 100 <= Z.of_N (lastUpdateSlot (KaminoReserve.state Sample.reserveA)))
    by (vm_compute; discriminate).
  split; [exact H|].
  exact (getEstimatedTotalSupply_no_elapsed_slot
           Sample.SLOTS_PER_YEAR Sample.borrowAPR Sample.reserveA 100 25 H).
Defined.

Lemma truncateBorrowCurve_spec_sample :
  truncateBorrowCurve Sample.curve
  = map curvePoint
        [ {| utilizationRateBps := 0; borrowRateBps := 1 |};
          {| utilizationRateBps := 8000; borrowRateBps := 300 |};
          {| utilizationRateBps := 10000; borrowRateBps := 7500 |} ].
Proof.
  refine (proj1 (proj2 (truncateBorrowCurve_spec Sample.curve))
                [ {| utilizationRateBps := 0; borrowRateBps := 1 |};
                  {| utilizationRateBps := 8000; borrowRateBps := 300 |} ]
                {| utilizationRateBps := 10000; borrowRateBps := 7500 |}
                [ {| utilizationRateBps := 10000; borrowRateBps := 9000 |} ]
                eq_refl _ eq_refl).
  repeat constructor; discriminate.
Defined.

Lemma getElevationGroupsForReserves_spec_sample :
  ~ In 7 (KaminoObligation.getElevationGroupsForReserves
            [Sample.reserveA; Sample.reserveB])
  /\ In 7 (KaminoObligation.getElevationGroupsForReserves [Sample.reserveA]).
Proof.
  assert (HA : noRepeatedGroup [Sample.reserveA])
    by (repeat constructor; cbn; intuition discriminate).
  assert (HAB : noRepeatedGroup [Sample.reserveA; Sample.reserveB])
    by (repeat constructor; cbn; intuition discriminate).
  split.
  - intros Hin.
    destruct (proj1 (proj1 (proj2 (proj2 (getElevationGroupsForReserves_spec
                              [Sample.reserveA; Sample.reserveB] 7))
                           ltac:(discriminate) HAB)) Hin) as [_ Hall].
    specialize (Hall Sample.reserveB (or_intror (or_introl eq_refl))).
    cbn in Hall. intuition discriminate.
  - apply (proj1 (proj2 (proj2 (getElevationGroupsForReserves_spec
                                  [Sample.reserveA] 7))
                        ltac:(discriminate) HA)).
    split; [discriminate|]. intros r [<- | []]. cbn. auto.
Defined.

Lemma getMaxBorrowAmount_monotone_sample :
  getReserveByMint Sample.market 1 = Some Sample.reserveA
  /\ (exists amount amount',
         KaminoObligation.getMaxBorrowAmount
           Sample.SLOTS_PER_DAY Sample.market 1 100 Sample.obligation
         = (Ok amount, Sample.obligation)
         /\ KaminoObligation.getMaxBorrowAmount
              Sample.SLOTS_PER_DAY
              (Sample.marketOf (withBorrowFactorPct 200 Sample.reserveA))
              1 100 Sample.obligation
            = (Ok amount', Sample.obligation)
         /\ Dec.lt amount amount' = false
         /\ (Dec.isNaN amount' = false -> Dec.isNaN amount = false ->
             Dec.lte amount' amount = true)).
Proof.
  split; [reflexivity|].
  refine (proj2 (getMaxBorrowAmount_monotone
                   Sample.SLOTS_PER_DAY Sample.obligation Sample.market
                   (Sample.marketOf (withBorrowFactorPct 200 Sample.reserveA))
                   1%N 100 Sample.reserveA 200%N eq_refl) _ eq_refl).
  vm_compute. discriminate.
Defined.

(** ** What else holds of the simulation and of the limits *)

(** The action [withdraw] is the action [deposit] of the negated amount, and
    the action [repay] is the action [borrow] of the negated amount. *)
Theorem getSimulatedObligationStats_negated_amount
        (this : KaminoObligation.t) (amount : Decimal) (mint : PublicKey)
        (market : KaminoMarket) (reserves : PubkeyHashMap KaminoReserve.t) :
  KaminoObligation.getSimulatedObligationStats
    amount "withdraw" mint market reserves this
  = KaminoObligation.getSimulatedObligationStats
      (- amount)%dec "deposit" mint market reserves this
  /\ KaminoObligation.getSimulatedObligationStats
       amount "repay" mint market reserves this
     = KaminoObligation.getSimulatedObligationStats
         (- amount)%dec "borrow" mint market reserves this.
Proof.
  split; reflexivity.
Qed.

Lemma valueOrZero_div_zero (x : Decimal) :
  valueOrZero (x / Dec.ofZ 0)%dec = Dec.ofZ 0.
Proof.
  destruct x as [a|s|]; cbn; try reflexivity.
  unfold valueOrZero. now destruct (Qczerob a).
Qed.

(** Whatever the action, the stats that [getSimulatedObligationStats]
    returns have their net account value, loan-to-value and leverage
    computed from the other fields: deposits minus borrows, the
    borrow-factor-adjusted borrows over the deposits (0 without deposits),
    and the deposits over the net value (0 when the net value is 0). *)
Theorem getSimulatedObligationStats_recomputed_last
        (this : KaminoObligation.t) (amount : Decimal) (action : string)
        (mint : PublicKey) (market : KaminoMarket)
        (reserves : PubkeyHashMap KaminoReserve.t)
        (r : ObligationStats.t * PubkeyHashMap Position * PubkeyHashMap Position) :
  KaminoObligation.getSimulatedObligationStats
    amount action mint market reserves this = (Ok r, this) ->
  let s := fst (fst r) in
  ObligationStats.netAccountValue s
  = (ObligationStats.userTotalDeposit s - ObligationStats.userTotalBorrow s)%dec
  /\ ObligationStats.loanToValue s
     = valueOrZero (ObligationStats.userTotalBorrowBorrowFactorAdjusted s
                    / ObligationStats.userTotalDeposit s)%dec
  /\ ObligationStats.leverage s
     = valueOrZero (ObligationStats.userTotalDeposit s
                    / ObligationStats.netAccountValue s)%dec
  /\ (ObligationStats.userTotalDeposit s = Dec.ofZ 0 ->
      ObligationStats.loanToValue s = Dec.ofZ 0)
  /\ (ObligationStats.netAccountValue s = Dec.ofZ 0 ->
      ObligationStats.leverage s = Dec.ofZ 0).
Proof.
  unfold KaminoObligation.getSimulatedObligationStats.
  unfold KaminoObligation.bind at 1. unfold KaminoObligation.read at 1.
  cbn iota beta zeta.
  unfold KaminoObligation.bind at 1.
  match goal with
  | |- (let (_, _) := ?inner this in _) = _ -> _ =>
      destruct (inner this) as [[x|m] this']
  end; [|discriminate].
  unfold KaminoObligation.ret. intros [= <- _]. cbn zeta.
  cbn [fst snd ObligationStats.netAccountValue ObligationStats.loanToValue
       ObligationStats.leverage ObligationStats.userTotalDeposit
       ObligationStats.userTotalBorrow
       ObligationStats.userTotalBorrowBorrowFactorAdjusted
       ObligationStats.set_leverage ObligationStats.set_loanToValue
       ObligationStats.set_netAccountValue].
  repeat split.
  - intros ->. apply valueOrZero_div_zero.
  - intros ->. apply valueOrZero_div_zero.
Qed.

Lemma positiveOrZero_not_negative (x : Decimal) :
  Dec.lt (positiveOrZero x) (Dec.ofZ 0) = false.
Proof.
  unfold positiveOrZero. cbn [Dec.max Dec.maxOrMin Dec.isNaN Dec.zero Dec.ofZ].
  destruct x as [a|[]|]; try reflexivity.
  change Dec.zero with (Fin 0%Qc). change (Dec.ofZ 0) with (Fin 0%Qc).
  rewrite DecOrder.max2_fin. apply DecOrder.lt_fin. qorder.
Qed.

(** The fields a leg of the simulation writes are not negative: the
    deposits, the borrow limit and the liquidation limit after
    [calculateSimulatedDeposit]; the borrows, with and without the borrow
    factor, after [calculateSimulatedBorrow]. *)
Theorem simulated_leg_floors_at_zero
        (this : KaminoObligation.t) (oldStats : ObligationStats.t)
        (old : PubkeyHashMap Position) (amount : Decimal) (mint : PublicKey)
        (reserves : PubkeyHashMap KaminoReserve.t) (market : KaminoMarket) :
  (forall s d,
      KaminoObligation.calculateSimulatedDeposit
        oldStats old amount mint reserves market this = (Ok (s, d), this) ->
      Dec.lt (ObligationStats.userTotalDeposit s) (Dec.ofZ 0) = false
      /\ Dec.lt (ObligationStats.borrowLimit s) (Dec.ofZ 0) = false
      /\ Dec.lt (ObligationStats.borrowLiquidationLimit s) (Dec.ofZ 0) = false
      /\ ObligationStats.userTotalBorrow s = ObligationStats.userTotalBorrow oldStats)
  /\ (forall s b,
         KaminoObligation.calculateSimulatedBorrow
           oldStats old amount mint reserves this = (Ok (s, b), this) ->
         Dec.lt (ObligationStats.userTotalBorrow s) (Dec.ofZ 0) = false
         /\ Dec.lt (ObligationStats.userTotalBorrowBorrowFactorAdjusted s)
                   (Dec.ofZ 0) = false
         /\ ObligationStats.userTotalDeposit s
            = ObligationStats.userTotalDeposit oldStats).
Proof.
  split; intros s d.
  - unfold KaminoObligation.calculateSimulatedDeposit.
    destruct (lastMatch _ (PubkeyHashMap.values reserves)) as [reserve|];
      [|discriminate].
    unfold KaminoObligation.bind, KaminoObligation.read. cbn iota beta zeta.
    destruct (negb (includes _ _)); [discriminate|].
    unfold KaminoObligation.ret. intros [= <- _].
    cbn. repeat split; apply positiveOrZero_not_negative.
  - unfold KaminoObligation.calculateSimulatedBorrow.
    destruct (lastMatch _ (PubkeyHashMap.values reserves)) as [reserve|];
      [|discriminate].
    unfold KaminoObligation.bind, KaminoObligation.read. cbn iota beta zeta.
    destruct (negb (includes _ _)); [discriminate|].
    unfold KaminoObligation.ret. intros [= <- _].
    cbn. repeat split; apply positiveOrZero_not_negative.
Qed.



(** *** [getMaxWithdrawAmount] *)

Lemma js_string_lt_irrefl (s : string) : js_string_lt s s = false.
Proof.
  induction s as [|c s IH]; cbn [js_string_lt]; [reflexivity|].
  now rewrite Nat.ltb_irrefl.
Qed.

Section MaxWithdrawFacts.

Variable SLOTS_PER_DAY : Z.
Variables (market : KaminoMarket) (tokenMint : PublicKey) (slot : Z).
Variables (this : KaminoObligation.t) (reserve : KaminoReserve.t).
Variable position : Position.

Hypothesis reserve_found : getReserveByMint market tokenMint = Some reserve.
Hypothesis position_found :
  KaminoObligation.getDepositByReserve this (KaminoReserve.address reserve)
  = Some position.

Let debt :=
  ObligationStats.userTotalBorrowBorrowFactorAdjusted
    (KaminoObligation.refreshedStats this).
Let limit := ObligationStats.borrowLimit (KaminoObligation.refreshedStats this).

(** Without debt, the whole deposit can be withdrawn. *)
Theorem getMaxWithdrawAmount_no_debt :
  Dec.eq debt (Dec.ofZ 0) = true ->
  KaminoObligation.getMaxWithdrawAmount SLOTS_PER_DAY market tokenMint slot this
  = (Ok (amount position), this).
Proof.
  intros H. unfold KaminoObligation.getMaxWithdrawAmount.
  rewrite reserve_found.
  unfold KaminoObligation.bind, KaminoObligation.read. cbn iota beta.
  rewrite position_found. fold debt. rewrite H. reflexivity.
Qed.

(** With a debt that is exactly the borrow limit, nothing can be
    withdrawn. *)
Theorem getMaxWithdrawAmount_at_limit :
  Dec.eq debt (Dec.ofZ 0) = false ->
  debt = limit ->
  KaminoObligation.getMaxWithdrawAmount SLOTS_PER_DAY market tokenMint slot this
  = (Ok (Dec.ofZ 0), this).
Proof.
  intros H0 E. unfold KaminoObligation.getMaxWithdrawAmount.
  rewrite reserve_found.
  unfold KaminoObligation.bind, KaminoObligation.read. cbn iota beta.
  rewrite position_found. fold debt limit. rewrite H0. cbn zeta.
  rewrite <- E. unfold js_ge. rewrite js_string_lt_irrefl. reflexivity.
Qed.

(** Where the comparison of the two strings gives what the comparison of
    the two numbers gives, and the loan-to-value in force is not zero,
    [getMaxWithdrawAmount] returns the amount of the specification. *)
Theorem getMaxWithdrawAmount_as_specified :
  let reserveMaxLtv :=
    if elevationGroupActivated this reserve
    then (Q2Qc (ElevationGroup.ltvPct
                  (getElevationGroup
                     market
                     (Obligation.elevationGroup (KaminoObligation.state this))) # 1)
          / Q2Qc (100 # 1))%Qc
    else KaminoReserve.stats_loanToValuePct reserve in
  js_ge debt limit = Dec.gte debt limit ->
  reserveMaxLtv <> 0%Qc ->
  KaminoObligation.getMaxWithdrawAmount SLOTS_PER_DAY market tokenMint slot this
  = (Ok (maxWithdrawAmountOfSpec
           debt limit (Fin reserveMaxLtv) (amount position)
           (KaminoReserve.getOracleMarketPrice reserve)
           (KaminoReserve.getMintFactor reserve)
           (KaminoReserve.getLiquidityAvailableAmount reserve)
           (KaminoReserve.getDepositWithdrawalCapCapacity reserve
            - KaminoReserve.getDepositWithdrawalCapCurrent
                SLOTS_PER_DAY reserve slot)%dec),
     this).
Proof.
  intros reserveMaxLtv Hcmp Hltv. apply Qczerob_false in Hltv.
  unfold KaminoObligation.getMaxWithdrawAmount.
  rewrite reserve_found.
  unfold KaminoObligation.bind, KaminoObligation.read. cbn iota beta.
  rewrite position_found. fold debt limit.
  unfold maxWithdrawAmountOfSpec.
  destruct (Dec.eq debt (Dec.ofZ 0)); [reflexivity|]. cbn zeta.
  fold (elevationGroupActivated this reserve). fold reserveMaxLtv.
  rewrite Hcmp. destruct (Dec.gte debt limit); [reflexivity|].
  rewrite Hltv. reflexivity.
Qed.

End MaxWithdrawFacts.

(** *** [getCumulativeBorrowRate] *)

Lemma fold_shift_zero (limbs : list N) :
  Forall (fun v => (v < 2 ^ 64)%N) limbs ->
  fold_left (fun prev curr => N.shiftr (prev + curr) 64) limbs 0%N = 0%N.
Proof.
  induction 1 as [|v limbs Hv _ IH]; cbn [fold_left]; [reflexivity|].
  rewrite N.add_0_l, N.shiftr_div_pow2, N.div_small by exact Hv. exact IH.
Qed.

Lemma fold_add_rev (limbs : list N) :
  fold_left (fun accSf value => (accSf + value)%N) (rev limbs) 0%N
  = sumOfLimbs limbs.
Proof.
  unfold sumOfLimbs. induction limbs as [|v limbs IH]; cbn [rev fold_right].
  - reflexivity.
  - rewrite fold_left_app. cbn [fold_left]. rewrite IH. apply N.add_comm.
Qed.

Lemma Fraction_toDecimal_zero : Fraction_toDecimal 0 = Dec.ofZ 0.
Proof. apply same_eq. vm_compute. reflexivity. Qed.

(** On limbs below [2^64], what the fields of the account hold, the
    reserve-side reduction yields 0 and leaves the limbs as they are; the
    obligation-side one yields the sum of the limbs, as a scaled fraction,
    and leaves the limbs in reverse order. *)
Theorem getCumulativeBorrowRate_both_sides
        (r : KaminoReserve.t) (borrow : ObligationLiquidity.t) :
  (Forall (fun v => (v < 2 ^ 64)%N)
          (cumulativeBorrowRateBsf (liquidity (KaminoReserve.state r))) ->
   KaminoReserve.getCumulativeBorrowRate r
   = (Dec.ofZ 0, cumulativeBorrowRateBsf (liquidity (KaminoReserve.state r))))
  /\ KaminoObligation.getCumulativeBorrowRate borrow
     = (Fraction_toDecimal
          (sumOfLimbs (ObligationLiquidity.cumulativeBorrowRateBsf borrow)),
        ObligationLiquidity.set_cumulativeBorrowRateBsf
          (rev (ObligationLiquidity.cumulativeBorrowRateBsf borrow)) borrow).
Proof.
  split.
  - intros H. unfold KaminoReserve.getCumulativeBorrowRate.
    rewrite fold_shift_zero by (apply Forall_rev; exact H).
    now rewrite Fraction_toDecimal_zero.
  - unfold KaminoObligation.getCumulativeBorrowRate. cbn zeta.
    now rewrite fold_add_rev.
Qed.

(** *** At sample data *)

Lemma getMaxWithdrawAmount_no_debt_sample :
  KaminoObligation.getMaxWithdrawAmount
    Sample.SLOTS_PER_DAY Sample.market 1 100 (Sample.obligationOwing 0)
  = (Ok (Dec.ofZ 20), Sample.obligationOwing 0).
Proof.
  exact (getMaxWithdrawAmount_no_debt
           Sample.SLOTS_PER_DAY Sample.market 1%N 100 (Sample.obligationOwing 0)
           Sample.reserveA _ eq_refl eq_refl eq_refl).
Defined.

Lemma getMaxWithdrawAmount_at_limit_sample :
  KaminoObligation.getMaxWithdrawAmount
    Sample.SLOTS_PER_DAY Sample.market 1 100 (Sample.obligationOwing 10)
  = (Ok (Dec.ofZ 0), Sample.obligationOwing 10).
Proof.
  exact (getMaxWithdrawAmount_at_limit
           Sample.SLOTS_PER_DAY Sample.market 1%N 100 (Sample.obligationOwing 10)
           Sample.reserveA _ eq_refl eq_refl eq_refl eq_refl).
Defined.

Lemma getMaxWithdrawAmount_as_specified_sample :
  exists withdrawable,
    KaminoObligation.getMaxWithdrawAmount
      Sample.SLOTS_PER_DAY Sample.market 1 100 (Sample.obligationOwing 1)
    = (Ok withdrawable, Sample.obligationOwing 1)
    /\ Dec.same withdrawable (Dec.ofQ (1791 # 100)) = true.
Proof.
  eexists. split.
  - refine (getMaxWithdrawAmount_as_specified
              Sample.SLOTS_PER_DAY Sample.market 1%N 100
              (Sample.obligationOwing 1) Sample.reserveA _
              eq_refl eq_refl eq_refl _).
    vm_compute. discriminate.
  - vm_compute. reflexivity.
Defined.

Lemma getSimulatedObligationStats_recomputed_last_sample :
  exists r,
    KaminoObligation.getSimulatedObligationStats
      (Dec.ofZ 5) "deposit" 1%N Sample.market Sample.reserves Sample.obligation
    = (Ok r, Sample.obligation)
    /\ ObligationStats.netAccountValue (fst (fst r))
       = (ObligationStats.userTotalDeposit (fst (fst r))
          - ObligationStats.userTotalBorrow (fst (fst r)))%dec.
Proof.
  eexists. split; [vm_compute; reflexivity|].
  refine (proj1 (getSimulatedObligationStats_recomputed_last
                   Sample.obligation (Dec.ofZ 5) "deposit" 1%N
                   Sample.market Sample.reserves _ _)).
  vm_compute. reflexivity.
Defined.


(** * Further properties of the code *)

(** ** Estimates of a reserve between two refreshes *)

Lemma ofZ_nonzero (z : Z) : z <> 0 -> Q2Qc (inject_Z z) <> 0%Qc.
Proof.
  intros Hz E. apply Hz.
  assert (H : (inject_Z z == 0)%Q).
  { rewrite <- (Qred_correct (inject_Z z)). change (Qred (inject_Z z)) with (this (Q2Qc (inject_Z z))). rewrite E. reflexivity. }
  unfold Qeq in H. cbn in H. lia.
Qed.

Lemma eq_fin (a b : Qc) : Dec.eq (Fin a) (Fin b) = true <-> a = b.
Proof.
  unfold Dec.eq. cbn. destruct (Qccompare_spec a b) as [->|H|H].
  - tauto.
  - split; [discriminate|]. intros ->. exfalso. revert H. apply Qcle_not_lt, Qcle_refl.
  - split; [discriminate|]. intros ->. exfalso. revert H. apply Qcle_not_lt, Qcle_refl.
Qed.

Lemma hundred_nonzero : Q2Qc (inject_Z 100) <> 0%Qc.
Proof. discriminate. Qed.

Lemma ten_thousand_nonzero : Q2Qc (inject_Z 10000) <> 0%Qc.
Proof. discriminate. Qed.

(** The values [compoundInterest] starts from are finite. *)
Ltac finite_inputs :=
  unfold KaminoReserve.getFixedHostInterestRate, KaminoReserve.getBorrowedAmount,
    KaminoReserve.getAccumulatedProtocolFees, KaminoReserve.getPendingReferrerFees,
    KaminoReserve.getAccumulatedReferrerFees,
    KaminoReserve.getLiquidityAvailableAmount, Dec.ofN;
  rewrite ?Fraction_toDecimal_fin;
  change (Dec.ofZ 100) with (Fin (Q2Qc (inject_Z 100)));
  change (Dec.ofZ 10000) with (Fin (Q2Qc (inject_Z 10000)));
  rewrite ?(DecFacts.div_fin _ _ hundred_nonzero);
  rewrite ?(DecFacts.div_fin _ _ ten_thousand_nonzero);
  unfold Dec.ofZ; cbn [Dec.mul Dec.add].

Section EstimateFacts.

Variable SLOTS_PER_YEAR : Z.
Hypothesis SLOTS_PER_YEAR_nonzero : SLOTS_PER_YEAR <> 0.

Let approx := KaminoReserve.approximateCompoundedInterest SLOTS_PER_YEAR.

Lemma approximateCompoundedInterest_fin (a : Qc) (n : Z) :
  exists c, approx (Fin a) n = Fin c.
Proof.
  unfold approx, KaminoReserve.approximateCompoundedInterest.
  change (Dec.ofZ SLOTS_PER_YEAR) with (Fin (Q2Qc (inject_Z SLOTS_PER_YEAR))).
  rewrite (DecFacts.div_fin _ _ (ofZ_nonzero _ SLOTS_PER_YEAR_nonzero)).
  change (Dec.ofZ 2) with (Fin (Q2Qc (inject_Z 2))).
  change (Dec.ofZ 6) with (Fin (Q2Qc (inject_Z 6))).
  rewrite !(DecFacts.div_fin _ _ two_nonzero).
  rewrite !(DecFacts.div_fin _ _ six_nonzero).
  cbn [Dec.mul Dec.add Dec.ofZ].
  repeat match goal with
         | |- context [match ?x with _ => _ end] => destruct x
         end; eexists; reflexivity.
Qed.

End EstimateFacts.

(** ** Utilization *)

Lemma getTotalSupply_fin (r : KaminoReserve.t) :
  exists s, KaminoReserve.getTotalSupply r = Fin s.
Proof.
  unfold KaminoReserve.getTotalSupply. finite_inputs.
  cbn [Dec.sub Dec.add Dec.neg]. eexists. reflexivity.
Qed.

Lemma eq_zero_fin (x : Decimal) :
  Dec.eq x (Dec.ofZ 0) = true -> x = Fin 0%Qc.
Proof.
  destruct x as [a|s|]; try (destruct s); try discriminate.
  intros H. apply eq_fin in H. now subst.
Qed.

Lemma div_zero_not_finite (x : Decimal) :
  Dec.isFinite (x / Fin 0%Qc)%dec = false.
Proof.
  destruct x as [a|s|]; cbn; try reflexivity.
  now destruct (Qczerob a).
Qed.

Lemma getEstimatedDebtAndSupply_stale
      SLOTS_PER_YEAR calculateBorrowAPR (r : KaminoReserve.t) slot referralFeeBps :
  slot <= Z.of_N (lastUpdateSlot (KaminoReserve.state r)) ->
  KaminoReserve.getEstimatedDebtAndSupply
    SLOTS_PER_YEAR calculateBorrowAPR r slot referralFeeBps
  = (KaminoReserve.getBorrowedAmount r, KaminoReserve.getTotalSupply r).
Proof.
  intros Hs.
  unfold KaminoReserve.getEstimatedDebtAndSupply, KaminoReserve.slotsElapsedSince.
  replace (Z.max (slot - Z.of_N (lastUpdateSlot (KaminoReserve.state r))) 0)
    with 0 by lia.
  reflexivity.
Qed.

Lemma calculateUtilizationRatio_fin (r : KaminoReserve.t) :
  exists u, KaminoReserve.calculateUtilizationRatio r = Fin u.
Proof.
  unfold KaminoReserve.calculateUtilizationRatio.
  destruct (getTotalSupply_fin r) as [s ->].
  destruct (Dec.eq (Fin s) (Dec.ofZ 0)) eqn:E; [eexists; reflexivity|].
  unfold KaminoReserve.getBorrowedAmount. rewrite Fraction_toDecimal_fin.
  cbn [Dec.div].
  destruct (Qczerob s) eqn:Z; [|eexists; reflexivity].
  apply Qczerob_true in Z. subst.
  unfold Dec.ofZ in E. rewrite (proj2 (eq_fin _ _)) in E by reflexivity.
  discriminate.
Qed.

(** [calculateUtilizationRatio] never divides by zero: the ratio is a
    finite number for every reserve, and zero for a reserve whose total
    supply is zero. *)
Theorem calculateUtilizationRatio_finite (r : KaminoReserve.t) :
  Dec.isFinite (KaminoReserve.calculateUtilizationRatio r) = true
  /\ (KaminoReserve.getTotalSupply r = Dec.ofZ 0 ->
      KaminoReserve.calculateUtilizationRatio r = Dec.ofZ 0).
Proof.
  split.
  - destruct (calculateUtilizationRatio_fin r) as [u ->]. reflexivity.
  - unfold KaminoReserve.calculateUtilizationRatio. intros ->. reflexivity.
Qed.

Section UtilizationFacts.

Variable SLOTS_PER_YEAR : Z.
Variable calculateBorrowAPR : KaminoReserve.t -> Decimal.

Let estimated :=
  KaminoReserve.getEstimatedDebtAndSupply SLOTS_PER_YEAR calculateBorrowAPR.
Let simulated :=
  KaminoReserve.calcSimulatedUtilizationRatio SLOTS_PER_YEAR calculateBorrowAPR.


(** A withdrawal and a redemption of the same amount give the same
    simulated utilization unless they empty the supply: then the
    withdrawal gives zero, and the redemption divides by zero and gives a
    value that is not a finite number. *)
Theorem calcSimulatedUtilizationRatio_withdraw_redeem
        (r : KaminoReserve.t) (amount : Decimal)
        (slot referralFeeBps : Z) (outflowAmount : option Decimal) :
  let newTotalSupply := (snd (estimated r slot referralFeeBps) - amount)%dec in
  let withdraw :=
    simulated r amount "withdraw" slot referralFeeBps outflowAmount in
  let redeem :=
    simulated r amount "redeem" slot referralFeeBps outflowAmount in
  (Dec.eq newTotalSupply (Dec.ofZ 0) = false -> withdraw = redeem)
  /\ (Dec.eq newTotalSupply (Dec.ofZ 0) = true ->
      withdraw = Ok (Dec.ofZ 0)
      /\ exists ratio, redeem = Ok ratio /\ Dec.isFinite ratio = false).
Proof.
  cbv zeta. unfold simulated, KaminoReserve.calcSimulatedUtilizationRatio.
  cbn [String.eqb Ascii.eqb Bool.eqb]. fold estimated. split.
  - intros ->. reflexivity.
  - intros H. rewrite H. split; [reflexivity|].
    eexists. split; [reflexivity|].
    rewrite (eq_zero_fin _ H). apply div_zero_not_finite.
Qed.

(** Simulating a withdrawal of nothing at the slot of the last update
    gives the utilization the reserve has. *)
Theorem calcSimulatedUtilizationRatio_withdraw_nothing
        (r : KaminoReserve.t) (slot referralFeeBps : Z)
        (outflowAmount : option Decimal) :
  slot <= Z.of_N (lastUpdateSlot (KaminoReserve.state r)) ->
  simulated r (Dec.ofZ 0) "withdraw" slot referralFeeBps outflowAmount
  = Ok (KaminoReserve.calculateUtilizationRatio r).
Proof.
  intros Hs.
  unfold simulated, KaminoReserve.calcSimulatedUtilizationRatio,
    KaminoReserve.calculateUtilizationRatio.
  cbn [String.eqb Ascii.eqb Bool.eqb].
  rewrite getEstimatedDebtAndSupply_stale by exact Hs.
  cbn [fst snd].
  destruct (getTotalSupply_fin r) as [s ->].
  assert (E : (Fin s - Dec.ofZ 0 = Fin s)%dec).
  { cbn. f_equal. change (Q2Qc (inject_Z 0)) with 0%Qc. ring. }
  rewrite E. now destruct (Dec.eq (Fin s) (Dec.ofZ 0)).
Qed.

End UtilizationFacts.

(** ** Collateral exchange rate *)

Section ExchangeRateFacts.

Variable SLOTS_PER_YEAR : Z.
Variable calculateBorrowAPR : KaminoReserve.t -> Decimal.
Variable INITIAL_COLLATERAL_RATE : Decimal.

Let rate := KaminoReserve.getCollateralExchangeRate INITIAL_COLLATERAL_RATE.
Let estimatedRate :=
  KaminoReserve.getEstimatedCollateralExchangeRate
    SLOTS_PER_YEAR calculateBorrowAPR INITIAL_COLLATERAL_RATE.

(** [getCollateralExchangeRate] never divides by zero: with a finite
    initial rate it is a finite number for every reserve.  And the
    estimated rate at or before the slot of the last update is the stale
    one. *)
Theorem getCollateralExchangeRate_finite (r : KaminoReserve.account) :
  Dec.isFinite INITIAL_COLLATERAL_RATE = true ->
  Dec.isFinite (rate r) = true
  /\ (forall slot referralFeeBps,
         slot <= Z.of_N (lastUpdateSlot (KaminoReserve.state r)) ->
         estimatedRate r slot referralFeeBps = rate r).
Proof.
  intros Hi. split.
  - unfold rate, KaminoReserve.getCollateralExchangeRate.
    destruct (getTotalSupply_fin r) as [s ->].
    destruct (_ =? _)%N; [exact Hi|]. cbn [orb Dec.isZero Dec.div Dec.ofN Dec.ofZ].
    destruct (Qczerob s); [exact Hi | reflexivity].
  - intros slot bps Hs.
    unfold estimatedRate, rate, KaminoReserve.getEstimatedCollateralExchangeRate,
      KaminoReserve.getCollateralExchangeRate.
    unfold KaminoReserve.getEstimatedTotalSupply.
    now rewrite getEstimatedDebtAndSupply_stale by exact Hs.
Qed.


End ExchangeRateFacts.

(** ** The largest borrow against a collateral reserve *)

Ltac result_step H :=
  match type of H with
  | Result_bind ?x _ = _ =>
      let E := fresh "E" in
      let got := fresh "got" in
      let message := fresh "message" in
      destruct x as [got|message] eqn:E; cbn [Result_bind] in H;
      [|discriminate H]
  end.

Section CollReserveFacts.

Variable SLOTS_PER_DAY : Z.
Variable U64_MAX : N.

Let maxBorrow :=
  KaminoReserve.getMaxBorrowAmountWithCollReserve SLOTS_PER_DAY U64_MAX.

Lemma getMaxBorrowAmountWithCollReserve_shape
      (this : KaminoReserve.account) groups collReserve slot v :
  maxBorrow this groups collReserve slot = Ok v ->
  exists a c q,
    KaminoReserve.getLiquidityAvailableAmount this = Fin a
    /\ (KaminoReserve.stats_reserveBorrowLimit this
        - KaminoReserve.getBorrowedAmount this)%dec = Fin c
    /\ v = Fin q
    /\ (0 <= q)%Qc /\ (q <= a)%Qc /\ (c <= 0 -> q = 0)%Qc.
Proof.
  intros H. unfold maxBorrow, KaminoReserve.getMaxBorrowAmountWithCollReserve in H.
  cbv zeta in H. result_step H. result_step H.
  fold (originationFeeShare this) in H.
  destruct (originationFeeShare_fin this) as (f & Ef & Hf0 & Hf1).
  rewrite Ef in H.
  destruct (calculateUtilizationRatio_fin this) as [u Eu]. rewrite Eu in H.
  destruct (getTotalSupply_fin this) as [s Es]. rewrite Es in H.
  assert (Ha : exists a, KaminoReserve.getLiquidityAvailableAmount this = Fin a
                         /\ (0 <= a)%Qc)
    by (eexists; split; [reflexivity | apply ofN_nonneg]).
  destruct Ha as (a & Ea & Ha). rewrite Ea in H.
  assert (Hc : exists c, (KaminoReserve.stats_reserveBorrowLimit this
                          - KaminoReserve.getBorrowedAmount this)%dec = Fin c).
  { unfold KaminoReserve.getBorrowedAmount. rewrite Fraction_toDecimal_fin.
    eexists. reflexivity. }
  destruct Hc as [c Ec]. rewrite Ec in H.
  destruct (debtWithdrawalCapRemained_fin SLOTS_PER_DAY this slot) as [d Ed].
  unfold debtWithdrawalCapRemained in Ed. rewrite Ed in H.
  exists a, c.
  set (m0 := if Dec.gt (KaminoReserve.getDebtWithdrawalCapCapacity this) (Dec.ofZ 0)
             then Dec.min [Dec.min [Fin a; Fin c]; Fin d]
             else Dec.min [Fin a; Fin c]) in H.
  assert (Em0 : exists m, m0 = Fin m /\ (m <= a)%Qc /\ (c <= 0 -> m <= 0)%Qc).
  { subst m0.
    destruct (Dec.gt (KaminoReserve.getDebtWithdrawalCapCapacity this) (Dec.ofZ 0));
      cbn [Dec.min Dec.maxOrMin Dec.isNaN]; rewrite !DecOrder.min2_fin;
      (eexists; split; [reflexivity|]; split; [|intros Hc]; qorder). }
  destruct Em0 as (m & Em & Hma & Hmc). rewrite Em in H. clear m0 Em.
  change (Fin m - Fin m * Fin f)%dec with (Fin (m + - (m * f))) in H.
  set (limit := (Q2Qc (inject_Z (KaminoReserve.utilizationLimitBlockBorrowingAbove this))
                 / Q2Qc (inject_Z 100))%Qc) in H.
  assert (exists q, v = Fin q /\ (0 <= q)%Qc
                    /\ (q = 0 \/ q <= m + - (m * f))%Qc) as (q & -> & Hq0 & Hq).
  { destruct (Qcltb 0 limit && Dec.gt (Fin u) (Fin limit)).
    - injection H as <-. eexists. split; [reflexivity|].
      split; [apply Qcle_refl | now left].
    - set (m2 := if Qcltb 0 limit && Dec.lt (Fin u) (Fin limit)
                 then Dec.min [Fin (m + - (m * f)); ((Fin limit - Fin u) * Fin s)%dec]
                 else Fin (m + - (m * f))) in H.
      assert (Em2 : exists x, m2 = Fin x /\ (x <= m + - (m * f))%Qc).
      { subst m2. destruct (Qcltb 0 limit && Dec.lt (Fin u) (Fin limit)).
        - cbn [Dec.sub Dec.add Dec.neg Dec.mul Dec.min Dec.maxOrMin Dec.isNaN].
          rewrite DecOrder.min2_fin. eexists. split; [reflexivity | qorder].
        - eexists. split; [reflexivity | apply Qcle_refl]. }
      destruct Em2 as (x & Ex & Hx). rewrite Ex in H. clear m2 Ex.
      assert (El : forall l : Result Decimal,
                 (exists y, l = Ok (Fin y)) \/ (exists message, l = Throw message) ->
                 Result_bind l
                   (fun l' => Ok (Dec.max [Dec.ofZ 0; Dec.min [Fin x; l']]))
                 = Ok v ->
                 exists q, v = Fin q /\ (0 <= q)%Qc
                           /\ (q = 0 \/ q <= m + - (m * f))%Qc).
      { intros l [[y ->]|[msg ->]] Hl; [|discriminate Hl].
        cbn [Result_bind Dec.min Dec.max Dec.maxOrMin Dec.isNaN] in Hl.
        rewrite DecOrder.min2_fin in Hl. unfold Dec.ofZ in Hl.
        rewrite DecOrder.max2_fin in Hl. injection Hl as <-.
        change (Q2Qc (inject_Z 0)) with 0%Qc.
        eexists. split; [reflexivity|]. split.
        - qorder.
        - destruct (qmax_spec 0 (qmin x y)) as [[? ->]|[? ->]];
            [now left | right; qorder]. }
      apply (El _) in H; [exact H|].
      destruct (negb _).
      + left. eexists. reflexivity.
      + unfold KaminoReserve.getBorrowLimitAgainstCollateralInElevationGroup,
          KaminoReserve.getBorrowedAmountAgainstCollateralInElevationGroup.
        destruct (element _ _); [|right; eexists; reflexivity].
        destruct (element _ _); [|right; eexists; reflexivity].
        left. eexists. unfold Dec.ofN, Dec.ofZ.
        cbn [Result_bind Dec.min Dec.max Dec.maxOrMin Dec.isNaN
             Dec.sub Dec.add Dec.neg].
        rewrite DecOrder.min2_fin. cbn [Dec.isNaN].
        rewrite DecOrder.max2_fin. reflexivity. }
  exists q. repeat split; try assumption.
  - destruct Hq as [->|Hq]; [exact Ha|]. qorder.
  - intros Hc. specialize (Hmc Hc).
    destruct Hq as [->|Hq]; [reflexivity|].
    apply Qcle_antisym; [|exact Hq0]. qorder.
Qed.

(** Whatever [getMaxBorrowAmountWithCollReserve] returns is a finite
    amount between zero and the available liquidity of the reserve. *)
Theorem getMaxBorrowAmountWithCollReserve_bounds
        (this : KaminoReserve.account) (groups : list ElevationGroupFields.t)
        (collReserve : KaminoReserve.t) (slot : Z) (amount : Decimal) :
  maxBorrow this groups collReserve slot = Ok amount ->
  Dec.isFinite amount = true
  /\ Dec.lte (Dec.ofZ 0) amount = true
  /\ Dec.lte amount (KaminoReserve.getLiquidityAvailableAmount this) = true.
Proof.
  intros H.
  destruct (getMaxBorrowAmountWithCollReserve_shape _ _ _ _ _ H)
    as (a & c & q & -> & _ & -> & Hq0 & Hqa & _).
  split; [reflexivity|]. split; apply DecOrder.lte_fin; assumption.
Qed.

(** Once the borrowed amount of the reserve is over its borrow limit,
    [getMaxBorrowAmountWithCollReserve] returns zero. *)
Theorem getMaxBorrowAmountWithCollReserve_limit_crossed
        (this : KaminoReserve.account) (groups : list ElevationGroupFields.t)
        (collReserve : KaminoReserve.t) (slot : Z) (amount : Decimal) :
  KaminoReserve.borrowLimitCrossed this = true ->
  maxBorrow this groups collReserve slot = Ok amount ->
  amount = Dec.ofZ 0.
Proof.
  intros Hx H.
  destruct (getMaxBorrowAmountWithCollReserve_shape _ _ _ _ _ H)
    as (a & c & q & _ & Ec & -> & _ & _ & Hc).
  unfold Dec.ofZ. change (Q2Qc (inject_Z 0)) with 0%Qc. f_equal. apply Hc.
  unfold KaminoReserve.borrowLimitCrossed, KaminoReserve.stats_reserveBorrowLimit,
    KaminoReserve.getBorrowedAmount in *.
  rewrite Fraction_toDecimal_fin in *. unfold Dec.ofN, Dec.ofZ in *.
  set (B := (Q2Qc (inject_Z (Z.of_N (borrowedAmountSf
                                         (liquidity (KaminoReserve.state this)))))
             / Q2Qc (inject_Z (Z.of_N (2 ^ Fraction_FRACTIONS))))%Qc) in *.
  set (L := Q2Qc (inject_Z (Z.of_N (borrowLimit
                                      (config (KaminoReserve.state this)))))) in *.
  clearbody B L.
  cbn [Dec.sub Dec.add Dec.neg] in Ec. injection Ec as <-.
  unfold Dec.gt in Hx. cbn [Dec.cmp] in Hx.
  destruct (Qccompare_spec B L) as [?|?|Hlt]; try discriminate.
  qorder.
Qed.

Lemma filterM_none {A : Type} (test : A -> Result bool) (array : list A) :
  (forall item, In item array -> test item = Ok false) ->
  filterM test array = Ok [].
Proof.
  induction array as [|item rest IH]; intros H; [reflexivity|].
  cbn [filterM]. rewrite (H item) by (left; reflexivity).
  cbn [Result_bind]. rewrite IH by (intros i Hi; apply H; now right).
  reflexivity.
Qed.

(** When the collateral reserve and the borrowed reserve share no
    elevation group but the null one, [getMaxBorrowAmountWithCollReserve]
    reads no group of the market and returns an amount. *)
Theorem getMaxBorrowAmountWithCollReserve_no_common_group
        (this : KaminoReserve.account) (groups : list ElevationGroupFields.t)
        (collReserve : KaminoReserve.t) (slot : Z) :
  (forall group,
      In group (elevationGroups (config (KaminoReserve.state collReserve))) ->
      In group (elevationGroups (config (KaminoReserve.state this))) ->
      group = 0) ->
  exists amount, maxBorrow this groups collReserve slot = Ok amount.
Proof.
  intros Hg. unfold maxBorrow, KaminoReserve.getMaxBorrowAmountWithCollReserve.
  cbv zeta. rewrite filterM_none.
  - cbn [Result_bind]. rewrite andb_false_r. cbn [negb Result_bind].
    destruct (_ && _); eexists; reflexivity.
  - intros item Hi.
    destruct (includes _ item) eqn:I; [|reflexivity].
    apply includes_true in I. rewrite (Hg item Hi I). reflexivity.
Qed.

End CollReserveFacts.

(** ** Maps keyed by address *)

Module PubkeyHashMapFacts.

Section Facts.

Context {V : Type}.

Implicit Types (m : PubkeyHashMap V) (k : PublicKey) (v : V).

Lemma get_set_same k v m : PubkeyHashMap.get k (PubkeyHashMap.set k v m) = Some v.
Proof.
  induction m as [|[k' v'] m IH]; cbn; unfold PublicKey_equals.
  - now rewrite N.eqb_refl.
  - destruct (N.eqb_spec k' k) as [->|Hk]; cbn; unfold PublicKey_equals.
    + now rewrite N.eqb_refl.
    + destruct (N.eqb_spec k' k); [contradiction | exact IH].
Qed.

Lemma get_set_other k k' v m :
  k' <> k -> PubkeyHashMap.get k' (PubkeyHashMap.set k v m) = PubkeyHashMap.get k' m.
Proof.
  intros Hk. induction m as [|[k0 v0] m IH]; cbn; unfold PublicKey_equals.
  - destruct (N.eqb_spec k k'); [congruence | reflexivity].
  - destruct (N.eqb_spec k0 k) as [->|H0]; cbn; unfold PublicKey_equals.
    + destruct (N.eqb_spec k k'); [congruence | reflexivity].
    + destruct (N.eqb_spec k0 k'); [reflexivity | exact IH].
Qed.

Lemma get_None k m : PubkeyHashMap.get k m = None <-> ~ In k (map fst m).
Proof.
  induction m as [|[k' v'] m IH]; cbn; unfold PublicKey_equals.
  - tauto.
  - destruct (N.eqb_spec k' k) as [->|Hk].
    + split; [discriminate | tauto].
    + rewrite IH. tauto.
Qed.

Lemma has_true k m : PubkeyHashMap.has k m = true <-> In k (map fst m).
Proof.
  unfold PubkeyHashMap.has.
  destruct (PubkeyHashMap.get k m) eqn:E.
  - split; [intros _|reflexivity].
    destruct (in_dec N.eq_dec k (map fst m)) as [H|H]; [exact H|].
    apply get_None in H. congruence.
  - apply get_None in E. split; [discriminate | contradiction].
Qed.

(** Setting a key the map does not hold adds the entry at the end. *)
Lemma set_new k v m :
  ~ In k (map fst m) -> PubkeyHashMap.set k v m = m ++ [(k, v)].
Proof.
  induction m as [|[k' v'] m IH]; cbn; unfold PublicKey_equals; intros H.
  - reflexivity.
  - destruct (N.eqb_spec k' k) as [->|Hk]; [tauto|].
    now rewrite IH by tauto.
Qed.

Lemma keys_after_set k v m :
  map fst (PubkeyHashMap.set k v m)
  = if PubkeyHashMap.has k m then map fst m else map fst m ++ [k].
Proof.
  induction m as [|[k' v'] m IH]; cbn; unfold PubkeyHashMap.has, PublicKey_equals;
    cbn; unfold PublicKey_equals.
  - reflexivity.
  - destruct (N.eqb_spec k' k) as [->|Hk]; cbn; [reflexivity|].
    rewrite IH. unfold PubkeyHashMap.has. now destruct (PubkeyHashMap.get k m).
Qed.

(** A map built again from the entries of a map is the same map. *)
Lemma ofEntries_entries m :
  NoDup (map fst m) -> PubkeyHashMap.ofEntries (PubkeyHashMap.entries m) = m.
Proof.
  unfold PubkeyHashMap.ofEntries, PubkeyHashMap.entries.
  assert (H : forall es acc,
             NoDup (map fst (acc ++ es)) ->
             fold_left (fun m e => PubkeyHashMap.set (fst e) (snd e) m) es acc
             = acc ++ es).
  { induction es as [|[k v] es IH]; intros acc Hn; cbn [fold_left].
    - now rewrite app_nil_r.
    - cbn [fst snd]. rewrite set_new.
      + rewrite IH; rewrite <- app_assoc; [reflexivity | exact Hn].
      + rewrite map_app in Hn. cbn in Hn. apply NoDup_remove_2 in Hn.
        intros Hin. apply Hn. apply in_or_app. now left. }
  intros Hn. apply (H m []). exact Hn.
Qed.

End Facts.

End PubkeyHashMapFacts.

(** ** Interest accrued by a borrow *)

Lemma gt_fin (a b : Qc) : Dec.gt (Fin a) (Fin b) = true <-> (b < a)%Qc.
Proof.
  unfold Dec.gt. cbn. destruct (Qccompare_spec a b) as [->|H|H].
  - split; [discriminate|]. intros H. exfalso. revert H.
    apply Qcle_not_lt, Qcle_refl.
  - split; [discriminate|]. intros H'. exfalso.
    apply (Qclt_not_le _ _ H). now apply Qclt_le_weak.
  - tauto.
Qed.

Lemma sumOfLimbs_rev (limbs : list N) : sumOfLimbs (rev limbs) = sumOfLimbs limbs.
Proof.
  unfold sumOfLimbs.
  assert (H : forall l a, fold_right N.add a l = (a + fold_right N.add 0 l)%N).
  { induction l as [|x l IHl]; intros a; cbn [fold_right]; [lia|].
    rewrite IHl. lia. }
  induction limbs as [|v limbs IH]; [reflexivity|].
  cbn [rev fold_right]. rewrite fold_right_app. cbn [fold_right].
  rewrite H, IH. lia.
Qed.

Lemma obligation_getCumulativeBorrowRate (borrow : ObligationLiquidity.t) :
  KaminoObligation.getCumulativeBorrowRate borrow
  = (Fraction_toDecimal
       (sumOfLimbs (ObligationLiquidity.cumulativeBorrowRateBsf borrow)),
     ObligationLiquidity.set_cumulativeBorrowRateBsf
       (rev (ObligationLiquidity.cumulativeBorrowRateBsf borrow)) borrow).
Proof.
  unfold KaminoObligation.getCumulativeBorrowRate. cbn zeta.
  now rewrite fold_add_rev.
Qed.

Section InterestRateFacts.

Variable SLOTS_PER_YEAR : Z.
Variable calculateBorrowAPR : KaminoReserve.t -> Decimal.
Hypothesis SLOTS_PER_YEAR_nonzero : SLOTS_PER_YEAR <> 0.

Let estimate :=
  KaminoObligation.estimateObligationInterestRate SLOTS_PER_YEAR calculateBorrowAPR.
Let estimatedRate :=
  KaminoReserve.getEstimatedCumulativeBorrowRate SLOTS_PER_YEAR calculateBorrowAPR.

Lemma getEstimatedCumulativeBorrowRate_fin (reserve : KaminoReserve.t) apr slot :
  calculateBorrowAPR reserve = Fin apr ->
  exists e, estimatedRate reserve slot = Fin e.
Proof.
  intros Hapr. unfold estimatedRate, KaminoReserve.getEstimatedCumulativeBorrowRate.
  rewrite Hapr.
  destruct (approximateCompoundedInterest_fin
              SLOTS_PER_YEAR SLOTS_PER_YEAR_nonzero apr
              (KaminoReserve.slotsElapsedSince reserve slot)) as [c ->].
  unfold KaminoReserve.getCumulativeBorrowRate. cbn [fst].
  rewrite Fraction_toDecimal_fin. eexists. reflexivity.
Qed.

(** For a finite borrow rate, [estimateObligationInterestRate] returns
    either zero or a value greater than one (the growth of the cumulative
    rate since the borrow was last refreshed), and it leaves the limbs of
    the borrow entry it is given in reverse order. *)
Theorem estimateObligationInterestRate_range
        (reserve : KaminoReserve.t) (borrow : ObligationLiquidity.t)
        (currentSlot : Z) (apr : Qc) :
  calculateBorrowAPR reserve = Fin apr ->
  let rate := fst (estimate reserve borrow currentSlot) in
  (rate = Dec.ofZ 0 \/ Dec.gt rate (Dec.ofZ 1) = true)
  /\ snd (estimate reserve borrow currentSlot)
     = ObligationLiquidity.set_cumulativeBorrowRateBsf
         (rev (ObligationLiquidity.cumulativeBorrowRateBsf borrow)) borrow.
Proof.
  intros Hapr. cbv zeta.
  unfold estimate, KaminoObligation.estimateObligationInterestRate.
  rewrite obligation_getCumulativeBorrowRate.
  destruct (getEstimatedCumulativeBorrowRate_fin reserve apr currentSlot Hapr)
    as [e He]. unfold estimatedRate in He. rewrite He.
  destruct (Fraction_toDecimal_nonneg
              (sumOfLimbs (ObligationLiquidity.cumulativeBorrowRateBsf borrow)))
    as (q & -> & Hq).
  destruct (Dec.gt (Fin e) (Fin q)) eqn:G; cbn [fst snd];
    (split; [|reflexivity]); [|now left].
  right. apply gt_fin in G. cbn [Dec.div].
  destruct (Qczerob q) eqn:Z.
  - apply Qczerob_true in Z. subst q.
    assert (Ze : Qczerob e = false).
    { apply Qczerob_false. intros ->. revert G. apply Qcle_not_lt, Qcle_refl. }
    assert (Ne : Qcnegb e = false).
    { apply Qcnegb_false. now apply Qclt_le_weak. }
    now rewrite Ze, Ne.
  - apply Qczerob_false in Z. unfold Dec.ofZ. apply gt_fin.
    assert (Hq' : (0 < q)%Qc).
    { destruct (Qccompare_spec 0 q) as [E|H|H]; [congruence | exact H|].
      exfalso. now apply (Qclt_not_le _ _ H). }
    pose proof (Qcinv_pos _ Hq') as Hi.
    assert (E : (q * / q = 1)%Qc) by (now apply Qcmult_inv_r).
    unfold Qcdiv. set (t := (/ q)%Qc) in *. clearbody t.
    assert (E' : ((q * t)%Qc == 1%Qc)%Q) by (rewrite E; reflexivity).
    clear E. change (Q2Qc (inject_Z 1)) with 1%Qc. qc2q. nra.
Qed.

(** The reserve takes its stored cumulative borrow rate for zero whenever
    the limbs fit in 64 bits.  The estimated cumulative borrow rate is
    then zero at every slot, and [estimateObligationInterestRate] returns
    zero for every borrow. *)
Theorem estimateObligationInterestRate_zero
        (reserve : KaminoReserve.t) (borrow : ObligationLiquidity.t)
        (currentSlot : Z) (apr : Qc) :
  calculateBorrowAPR reserve = Fin apr ->
  Forall (fun v => (v < 2 ^ 64)%N)
         (cumulativeBorrowRateBsf (liquidity (KaminoReserve.state reserve))) ->
  estimatedRate reserve currentSlot = Dec.ofZ 0
  /\ fst (estimate reserve borrow currentSlot) = Dec.ofZ 0.
Proof.
  intros Hapr Hl.
  assert (E : estimatedRate reserve currentSlot = Dec.ofZ 0).
  { unfold estimatedRate, KaminoReserve.getEstimatedCumulativeBorrowRate.
    rewrite Hapr.
    destruct (approximateCompoundedInterest_fin
                SLOTS_PER_YEAR SLOTS_PER_YEAR_nonzero apr
                (KaminoReserve.slotsElapsedSince reserve currentSlot)) as [c ->].
    unfold KaminoReserve.getCumulativeBorrowRate. cbn [fst].
    rewrite fold_shift_zero by (apply Forall_rev; exact Hl).
    rewrite Fraction_toDecimal_zero. unfold Dec.ofZ. cbn [Dec.mul].
    f_equal. change (Q2Qc (inject_Z 0)) with 0%Qc. ring. }
  split; [exact E|].
  unfold estimate, KaminoObligation.estimateObligationInterestRate.
  rewrite obligation_getCumulativeBorrowRate.
  unfold estimatedRate in E. rewrite E.
  destruct (Fraction_toDecimal_nonneg
              (sumOfLimbs (ObligationLiquidity.cumulativeBorrowRateBsf borrow)))
    as (q & -> & Hq).
  destruct (Dec.gt (Dec.ofZ 0) (Fin q)) eqn:G; [|reflexivity].
  unfold Dec.ofZ in G. apply gt_fin in G. exfalso.
  change (Q2Qc (inject_Z 0)) with 0%Qc in G. now apply (Qclt_not_le _ _ G).
Qed.

End InterestRateFacts.

(** ** Positions of an obligation *)

(** A leg of the simulation stores the position it works on under the
    address of its reserve, with the requested mint and an amount that is
    not negative, and it leaves the position of every other reserve as it
    was: no position is dropped, not even one that is withdrawn or repaid
    in full. *)
Theorem simulated_leg_keeps_positions
        (this : KaminoObligation.t) (oldStats : ObligationStats.t)
        (old : PubkeyHashMap Position) (amount' : Decimal) (mint : PublicKey)
        (reserves : PubkeyHashMap KaminoReserve.t) (market : KaminoMarket) :
  NoDup (map fst old) ->
  let stored (new : PubkeyHashMap Position) :=
    exists position,
      PubkeyHashMap.get (reserveAddress position) new = Some position
      /\ mintAddress position = mint
      /\ Dec.lt (amount position) (Dec.ofZ 0) = false
      /\ forall reserve,
          reserve <> reserveAddress position ->
          PubkeyHashMap.get reserve new = PubkeyHashMap.get reserve old in
  (forall stats deposits,
      KaminoObligation.calculateSimulatedDeposit
        oldStats old amount' mint reserves market this
      = (Ok (stats, deposits), this) ->
      stored deposits)
  /\ (forall stats borrows,
         KaminoObligation.calculateSimulatedBorrow
           oldStats old amount' mint reserves this
         = (Ok (stats, borrows), this) ->
         stored borrows).
Proof.
  intros Hn stored. split; intros stats new.
  - unfold KaminoObligation.calculateSimulatedDeposit.
    destruct (lastMatch _ (PubkeyHashMap.values reserves)) as [reserve|];
      [|discriminate].
    unfold KaminoObligation.bind, KaminoObligation.read. cbn iota beta zeta.
    destruct (negb (includes _ _)); [discriminate|].
    unfold KaminoObligation.ret. intros [= _ <-].
    rewrite PubkeyHashMapFacts.ofEntries_entries by exact Hn.
    eexists. split; [apply PubkeyHashMapFacts.get_set_same|].
    cbn [reserveAddress mintAddress amount].
    split; [reflexivity|]. split; [apply positiveOrZero_not_negative|].
    intros k Hk. now apply PubkeyHashMapFacts.get_set_other.
  - unfold KaminoObligation.calculateSimulatedBorrow.
    destruct (lastMatch _ (PubkeyHashMap.values reserves)) as [reserve|];
      [|discriminate].
    unfold KaminoObligation.bind, KaminoObligation.read. cbn iota beta zeta.
    destruct (negb (includes _ _)); [discriminate|].
    unfold KaminoObligation.ret. intros [= _ <-].
    rewrite PubkeyHashMapFacts.ofEntries_entries by exact Hn.
    eexists. split; [apply PubkeyHashMapFacts.get_set_same|].
    cbn [reserveAddress mintAddress amount].
    split; [reflexivity|]. split; [apply positiveOrZero_not_negative|].
    intros k Hk. now apply PubkeyHashMapFacts.get_set_other.
Qed.

(** [loanToValue()] never divides by zero: it is zero for an obligation
    without deposits, and a finite number whenever the deposits and the
    adjusted debt are. *)
Theorem loanToValue_guarded (this : KaminoObligation.t) :
  let stats := KaminoObligation.refreshedStats this in
  (ObligationStats.userTotalDeposit stats = Dec.ofZ 0 ->
   KaminoObligation.loanToValue this = Dec.ofZ 0)
  /\ (Dec.isFinite (ObligationStats.userTotalDeposit stats) = true ->
      Dec.isFinite (ObligationStats.userTotalBorrowBorrowFactorAdjusted stats)
      = true ->
      Dec.isFinite (KaminoObligation.loanToValue this) = true).
Proof.
  cbv zeta. unfold KaminoObligation.loanToValue. split.
  - intros ->. reflexivity.
  - destruct (ObligationStats.userTotalDeposit _) as [d| |]; try discriminate.
    destruct (ObligationStats.userTotalBorrowBorrowFactorAdjusted _) as [b| |];
      try discriminate.
    intros _ _. destruct (Dec.eq (Fin d) (Dec.ofZ 0)) eqn:E; [reflexivity|].
    cbn [Dec.div]. destruct (Qczerob d) eqn:Z; [|reflexivity].
    apply Qczerob_true in Z. subst.
    unfold Dec.ofZ in E. rewrite (proj2 (eq_fin _ _)) in E by reflexivity.
    discriminate.
Qed.

(** ** Elevation groups of an obligation *)

Lemma allDefined_None {A : Type} (array : list (option A)) :
  allDefined array = None <-> In None array.
Proof.
  induction array as [|[x|] rest IH]; cbn.
  - split; [discriminate | tauto].
  - destruct (allDefined rest).
    + split; [discriminate|]. intros [H|H]; [discriminate|].
      apply IH in H. discriminate.
    + split; [intros _; right; now apply IH | reflexivity].
  - tauto.
Qed.

Lemma In_set {V : Type} (k k' : PublicKey) (v v' : V) (m : PubkeyHashMap V) :
  In (k', v') (PubkeyHashMap.set k v m) ->
  (k' = k /\ v' = v) \/ In (k', v') m.
Proof.
  induction m as [|[k0 v0] m IH]; cbn; unfold PublicKey_equals.
  - intros [[= <- <-]|[]]. now left.
  - destruct (N.eqb_spec k0 k) as [->|Hk]; cbn.
    + intros [[= <- <-]|H]; [now left | now right; right].
    + intros [H|H]; [now right; left|].
      destruct (IH H) as [?|?]; [now left | now right; right].
Qed.

Section CollectFacts.

Variable kaminoMarket : Market.t.

Let collect := KaminoObligation.collectReserve kaminoMarket.

Lemma collected_entries addresses reserves k v :
  In (k, v) (fold_left collect addresses reserves) ->
  In (k, v) reserves
  \/ (In k addresses /\ k <> 0%N
      /\ v = Market.getReserveByAddress kaminoMarket k).
Proof.
  revert reserves. induction addresses as [|a rest IH]; intros reserves;
    cbn [fold_left]; [tauto|].
  intros H. apply IH in H. destruct H as [H|(H1 & H2 & H3)].
  - unfold collect, KaminoObligation.collectReserve in H.
    destruct (isNotNullPubkey a) eqn:Na; cbn [andb] in H; [|now left].
    destruct (negb _) in H; [|now left].
    apply In_set in H. destruct H as [[-> ->]|H]; [|now left].
    right. split; [now left|]. split; [|reflexivity].
    unfold isNotNullPubkey, PublicKey_equals in Na.
    intros ->. discriminate.
  - right. split; [now right|]. now split.
Qed.

Lemma collected_keys addresses reserves k :
  In k (map fst reserves) \/ (In k addresses /\ k <> 0%N) ->
  In k (map fst (fold_left collect addresses reserves)).
Proof.
  revert reserves. induction addresses as [|a rest IH]; intros reserves;
    cbn [fold_left].
  - intros [H|[[] _]]. exact H.
  - intros H. apply IH.
    unfold collect, KaminoObligation.collectReserve.
    destruct (N.eq_dec k a) as [->|Hka].
    + destruct H as [H|[_ H]].
      * left. destruct (_ && _); [|exact H].
        rewrite PubkeyHashMapFacts.keys_after_set.
        destruct (PubkeyHashMap.has a reserves); [exact H|].
        apply in_or_app. now left.
      * left. assert (Na : isNotNullPubkey a = true).
        { unfold isNotNullPubkey, PublicKey_equals.
          destruct (N.eqb_spec a 0); [contradiction | reflexivity]. }
        rewrite Na. cbn [andb].
        destruct (PubkeyHashMap.has a reserves) eqn:Ha; cbn [negb].
        -- now apply PubkeyHashMapFacts.has_true.
        -- rewrite PubkeyHashMapFacts.keys_after_set, Ha. apply in_or_app.
           right. now left.
    + destruct H as [H|[[H|H] H0]]; [| congruence | right; now split].
      left. destruct (_ && _); [|exact H].
      rewrite PubkeyHashMapFacts.keys_after_set.
      destruct (PubkeyHashMap.has a reserves); [exact H|].
      apply in_or_app. now left.
Qed.

End CollectFacts.

Lemma fold_left_map {A B C : Type} (f : A -> C -> A) (g : B -> C)
      (l : list B) (a : A) :
  fold_left (fun acc x => f acc (g x)) l a = fold_left f (map g l) a.
Proof.
  revert a. induction l as [|x l IH]; intros a; cbn; [reflexivity | apply IH].
Qed.

Lemma getElevationGroups_collected state kaminoMarket :
  KaminoObligation.getElevationGroups state kaminoMarket
  = match allDefined
            (PubkeyHashMap.values
               (fold_left (KaminoObligation.collectReserve kaminoMarket)
                          (map ObligationCollateral.depositReserve
                               (Obligation.deposits state)
                           ++ map ObligationLiquidity.borrowReserve
                                  (Obligation.borrows state))
                          [])) with
    | Some reserves =>
        Ok (KaminoObligation.getElevationGroupsForReserves
              (map KaminoReserve.reserve reserves))
    | None => Throw (TypeError_undefined "state")
    end.
Proof.
  unfold KaminoObligation.getElevationGroups. cbv zeta.
  rewrite fold_left_app, <- !fold_left_map. reflexivity.
Qed.

Lemma In_filter_notNull (k : PublicKey) (l : list PublicKey) :
  In k (filter isNotNullPubkey l) <-> In k l /\ k <> 0%N.
Proof.
  rewrite filter_In. unfold isNotNullPubkey, PublicKey_equals.
  destruct (N.eqb_spec k 0); cbn; intuition congruence.
Qed.

Lemma getElevationGroups_outcome state kaminoMarket :
  (exists groups,
      KaminoObligation.getElevationGroups state kaminoMarket = Ok groups
      /\ forall reserve, In reserve (referencedReserves state) ->
                         Market.getReserveByAddress kaminoMarket reserve <> None)
  \/ (exists message reserve,
         KaminoObligation.getElevationGroups state kaminoMarket = Throw message
         /\ In reserve (referencedReserves state)
         /\ Market.getReserveByAddress kaminoMarket reserve = None).
Proof.
  rewrite getElevationGroups_collected. unfold referencedReserves.
  set (addresses := map _ _ ++ map _ _).
  destruct (allDefined _) as [reserves|] eqn:E.
  - left. eexists. split; [reflexivity|].
    intros k Hk Hnone. apply In_filter_notNull in Hk.
    assert (Hin : In k (map fst (fold_left
                                   (KaminoObligation.collectReserve kaminoMarket)
                                   addresses [])))
      by (apply collected_keys; now right).
    apply in_map_iff in Hin. destruct Hin as ([k' v] & Hk' & Hin).
    cbn in Hk'. subst k'.
    destruct (collected_entries _ _ _ _ _ Hin) as [[]|(_ & _ & Hv)].
    rewrite Hnone in Hv. subst v.
    assert (Hn : allDefined
                   (PubkeyHashMap.values
                      (fold_left (KaminoObligation.collectReserve kaminoMarket)
                                 addresses [])) = None).
    { apply allDefined_None. unfold PubkeyHashMap.values.
      apply in_map_iff. exists (k, None). now split. }
    congruence.
  - right. apply allDefined_None in E. unfold PubkeyHashMap.values in E.
    apply in_map_iff in E. destruct E as ([k v] & Hv & Hin). cbn in Hv. subst v.
    destruct (collected_entries _ _ _ _ _ Hin) as [[]|(H1 & H2 & H3)].
    exists (TypeError_undefined "state"), k. split; [reflexivity|].
    split; [apply In_filter_notNull; now split | now symmetry].
Qed.

(** [getElevationGroups] throws exactly when a used deposit or borrow
    entry refers to a reserve the market does not know. *)
Theorem getElevationGroups_throws
        (state : Obligation.account) (kaminoMarket : Market.t) :
  threw (KaminoObligation.getElevationGroups state kaminoMarket)
  <-> exists reserve,
      In reserve (referencedReserves state)
      /\ Market.getReserveByAddress kaminoMarket reserve = None.
Proof.
  destruct (getElevationGroups_outcome state kaminoMarket)
    as [(groups & -> & H)|(message & reserve & -> & H1 & H2)].
  - split.
    + intros [m Hm]. discriminate.
    + intros (reserve & H1 & H2). exfalso. now apply (H reserve).
  - split.
    + intros _. now exists reserve.
    + intros _. now exists message.
Qed.

(** ** Building an obligation *)

Lemma notNull_false (k : PublicKey) : isNotNullPubkey k = false <-> k = 0%N.
Proof.
  unfold isNotNullPubkey, PublicKey_equals.
  destruct (N.eqb_spec k 0); cbn; intuition congruence.
Qed.

Lemma filter_nil {A : Type} (f : A -> bool) (l : list A) :
  filter f l = [] <-> Forall (fun x => f x = false) l.
Proof.
  induction l as [|x l IH]; cbn.
  - split; [constructor | reflexivity].
  - destruct (f x) eqn:E.
    + split; [discriminate|]. intros H. inversion H. congruence.
    + rewrite IH. split; [now constructor | intros H; now inversion H].
Qed.

Lemma referencedReserves_nil (state : Obligation.account) :
  referencedReserves state = [] ->
  Forall (fun d => isNotNullPubkey (ObligationCollateral.depositReserve d) = false)
         (Obligation.deposits state)
  /\ Forall (fun b => isNotNullPubkey (ObligationLiquidity.borrowReserve b) = false)
            (Obligation.borrows state).
Proof.
  unfold referencedReserves. rewrite filter_nil, Forall_app, !Forall_map. tauto.
Qed.

Lemma collect_unused kaminoMarket addresses reserves :
  Forall (fun k => isNotNullPubkey k = false) addresses ->
  fold_left (KaminoObligation.collectReserve kaminoMarket) addresses reserves
  = reserves.
Proof.
  induction 1 as [|k rest Hk _ IH]; cbn [fold_left]; [reflexivity|].
  unfold KaminoObligation.collectReserve at 2. rewrite Hk. exact IH.
Qed.

Section BuildFacts.

Variable INITIAL_COLLATERAL_RATE : Decimal.

Let depositsBody := KaminoObligation.depositsBody INITIAL_COLLATERAL_RATE.

Lemma depositsLoop_unused market obligation rates getPx entries acc :
  Forall (fun d => isNotNullPubkey (ObligationCollateral.depositReserve d) = false)
         entries ->
  foldM (depositsBody market obligation rates getPx) entries acc = Ok acc.
Proof.
  induction 1 as [|d rest Hd _ IH]; cbn [foldM]; [reflexivity|].
  unfold depositsBody at 1, KaminoObligation.depositsBody. rewrite Hd.
  cbn [negb Result_bind]. exact IH.
Qed.

Lemma borrowsLoop_unused market elevationGroup rates getPx entries acc :
  Forall (fun b => isNotNullPubkey (ObligationLiquidity.borrowReserve b) = false)
         entries ->
  KaminoObligation.borrowsLoop market elevationGroup rates getPx entries acc
  = (Ok acc, entries).
Proof.
  induction 1 as [|b rest Hb _ IH]; cbn [KaminoObligation.borrowsLoop];
    [reflexivity|].
  rewrite Hb. cbn [negb]. now rewrite IH.
Qed.

(** An obligation none of whose entries is used is built without a throw
    and left as it is; its totals are zero and its liquidation
    loan-to-value is zero, but its borrow utilization, its loan-to-value
    and its leverage are not numbers, the three being divisions of zero by
    zero.  The method [loanToValue()] returns zero for it. *)
Theorem new_without_positions
        (market : Market.t) (obligation : Obligation.account)
        (collateralExchangeRates cumulativeBorrowRates : PubkeyHashMap Decimal) :
  referencedReserves obligation = [] ->
  exists this,
    KaminoObligation.new INITIAL_COLLATERAL_RATE market obligation
                         collateralExchangeRates cumulativeBorrowRates
    = (Ok this, obligation)
    /\ KaminoObligation.deposits this = []
    /\ KaminoObligation.borrows this = []
    /\ (let stats := KaminoObligation.refreshedStats this in
        ObligationStats.userTotalDeposit stats = Dec.ofZ 0
        /\ ObligationStats.userTotalBorrow stats = Dec.ofZ 0
        /\ ObligationStats.liquidationLtv stats = Dec.ofZ 0
        /\ ObligationStats.borrowUtilization stats = NaN
        /\ ObligationStats.loanToValue stats = NaN
        /\ ObligationStats.leverage stats = NaN)
    /\ KaminoObligation.loanToValue this = Dec.ofZ 0.
Proof.
  intros Hr. destruct (referencedReserves_nil _ Hr) as [Hd Hb].
  unfold KaminoObligation.new, KaminoObligation.calculatePositions.
  rewrite getElevationGroups_collected.
  rewrite collect_unused
    by (apply Forall_app; rewrite !Forall_map; now split).
  cbn [PubkeyHashMap.values map allDefined].
  unfold KaminoObligation.calculateObligationDeposits.
  fold depositsBody. rewrite depositsLoop_unused by exact Hd.
  cbn [Result_bind].
  unfold KaminoObligation.calculateObligationBorrows.
  rewrite borrowsLoop_unused by exact Hb.
  destruct obligation as [[elevationGroup borrows] deposits].
  cbn [Obligation.obligation Obligation.elevationGroup Obligation.borrows
       Obligation.deposits].
  eexists. split; [reflexivity|].
  cbn [KaminoObligation.deposits KaminoObligation.borrows
       KaminoObligation.refreshedStats DepositStats.deposits BorrowStats.borrows].
  repeat split.
Qed.

End BuildFacts.

(** ** Positions and totals *)

Lemma sumOf_app (values : list Decimal) (v : Decimal) :
  sumOf (values ++ [v]) = (sumOf values + v)%dec.
Proof.
  unfold sumOf. now rewrite fold_left_app.
Qed.

Section TotalsFacts.

Variable INITIAL_COLLATERAL_RATE : Decimal.

Let depositsBody := KaminoObligation.depositsBody INITIAL_COLLATERAL_RATE.

(** What a turn of the deposits loop does for an entry that is used. *)
Lemma depositsBody_used market obligation rates getPx acc deposit acc' :
  isNotNullPubkey (ObligationCollateral.depositReserve deposit) = true ->
  depositsBody market obligation rates getPx acc deposit = Ok acc' ->
  exists reserve position,
    Market.getReserveByAddress
      market (ObligationCollateral.depositReserve deposit) = Some reserve
    /\ DepositStats.deposits acc'
       = PubkeyHashMap.set (KaminoReserve.address reserve) position
                           (DepositStats.deposits acc)
    /\ DepositStats.userTotalDeposit acc'
       = (DepositStats.userTotalDeposit acc + marketValueRefreshed position)%dec.
Proof.
  intros Hn. unfold depositsBody, KaminoObligation.depositsBody.
  rewrite Hn. cbn [negb].
  destruct (Market.getReserveByAddress market _) as [reserve|]; [|discriminate].
  cbv zeta. intros H. result_step H. result_step H.
  injection H as <-. eexists. eexists. split; [reflexivity|].
  cbn [DepositStats.deposits DepositStats.userTotalDeposit marketValueRefreshed].
  split; reflexivity.
Qed.

Lemma depositsLoop_totals market obligation rates getPx :
  reservesByAddress market ->
  forall entries acc acc',
    foldM (depositsBody market obligation rates getPx) entries acc = Ok acc' ->
    NoDup (map fst (DepositStats.deposits acc)
           ++ filter isNotNullPubkey
                     (map ObligationCollateral.depositReserve entries)) ->
    DepositStats.userTotalDeposit acc
    = sumOf (map marketValueRefreshed
                 (PubkeyHashMap.values (DepositStats.deposits acc))) ->
    DepositStats.userTotalDeposit acc'
    = sumOf (map marketValueRefreshed
                 (PubkeyHashMap.values (DepositStats.deposits acc')))
    /\ map fst (DepositStats.deposits acc')
       = map fst (DepositStats.deposits acc)
         ++ filter isNotNullPubkey
                   (map ObligationCollateral.depositReserve entries).
Proof.
  intros Hm. induction entries as [|deposit rest IH]; intros acc acc' H Hn Hs.
  - cbn in H. injection H as <-. cbn. now rewrite app_nil_r.
  - cbn [foldM] in H. result_step H. cbn [map filter] in *.
    destruct (isNotNullPubkey (ObligationCollateral.depositReserve deposit))
      eqn:Hu.
    + destruct (depositsBody_used _ _ _ _ _ _ _ Hu E)
        as (reserve & position & Hr & Hd & Ht).
      rewrite (Hm _ _ Hr) in Hd.
      assert (Hnew : ~ In (ObligationCollateral.depositReserve deposit)
                       (map fst (DepositStats.deposits acc))).
      { apply NoDup_remove_2 in Hn. intros Hin. apply Hn.
        apply in_or_app. now left. }
      rewrite PubkeyHashMapFacts.set_new in Hd by exact Hnew.
      destruct (IH got acc' H) as [IH1 IH2].
      * rewrite Hd, map_app. cbn [map fst]. now rewrite <- app_assoc.
      * rewrite Ht, Hd. unfold PubkeyHashMap.values.
        rewrite !map_app. cbn [map snd]. rewrite sumOf_app.
        unfold PubkeyHashMap.values in Hs. now rewrite Hs.
      * split; [exact IH1|]. rewrite IH2, Hd, map_app. cbn [map fst].
        now rewrite <- app_assoc.
    + unfold depositsBody, KaminoObligation.depositsBody in E.
      rewrite Hu in E. cbn [negb] in E. injection E as <-.
      now apply IH.
Qed.

(** When no two used deposit entries share a reserve, the obligation gets
    one deposit position for each of them, in their order and under the
    address of the reserve, and the total deposit is the sum of the market
    values of these positions. *)
Theorem calculateObligationDeposits_totals
        (market : Market.t) (obligation : Obligation.account)
        (collateralExchangeRates : option (PubkeyHashMap Decimal))
        (getPx : KaminoReserve.t -> Decimal) (stats : DepositStats.t) :
  reservesByAddress market ->
  NoDup (filter isNotNullPubkey
                (map ObligationCollateral.depositReserve
                     (Obligation.deposits obligation))) ->
  KaminoObligation.calculateObligationDeposits
    INITIAL_COLLATERAL_RATE market obligation collateralExchangeRates getPx
  = Ok stats ->
  map fst (DepositStats.deposits stats)
  = filter isNotNullPubkey
           (map ObligationCollateral.depositReserve
                (Obligation.deposits obligation))
  /\ DepositStats.userTotalDeposit stats
     = sumOf (map marketValueRefreshed
                  (PubkeyHashMap.values (DepositStats.deposits stats))).
Proof.
  intros Hm Hn H. unfold KaminoObligation.calculateObligationDeposits in H.
  fold depositsBody in H. result_step H. injection H as <-.
  cbn [DepositStats.deposits DepositStats.userTotalDeposit].
  destruct (depositsLoop_totals _ _ _ _ Hm _ _ _ E) as [H1 H2];
    [exact Hn | reflexivity|].
  split; [exact H2 | exact H1].
Qed.

End TotalsFacts.

Lemma reversed_borrow (borrow : ObligationLiquidity.t) :
  let borrow' :=
    ObligationLiquidity.set_cumulativeBorrowRateBsf
      (rev (ObligationLiquidity.cumulativeBorrowRateBsf borrow)) borrow in
  ObligationLiquidity.borrowReserve borrow'
  = ObligationLiquidity.borrowReserve borrow
  /\ KaminoObligation.getBorrowAmount borrow'
     = KaminoObligation.getBorrowAmount borrow
  /\ KaminoObligation.getCumulativeBorrowRate borrow'
     = (Fraction_toDecimal
          (sumOfLimbs (ObligationLiquidity.cumulativeBorrowRateBsf borrow)),
        borrow).
Proof.
  destruct borrow as [reserve limbs sf]. cbv zeta.
  split; [reflexivity|]. split; [reflexivity|].
  rewrite !obligation_getCumulativeBorrowRate.
  cbn [ObligationLiquidity.cumulativeBorrowRateBsf
       ObligationLiquidity.set_cumulativeBorrowRateBsf
       ObligationLiquidity.borrowReserve ObligationLiquidity.borrowedAmountSf fst].
  now rewrite sumOfLimbs_rev, rev_involutive.
Qed.

Lemma borrowsLoop_twice market elevationGroup rates getPx :
  forall entries acc stats entries',
    KaminoObligation.borrowsLoop market elevationGroup rates getPx entries acc
    = (Ok stats, entries') ->
    entries' = map reversedWhenUsed entries
    /\ KaminoObligation.borrowsLoop market elevationGroup rates getPx entries' acc
       = (Ok stats, entries).
Proof.
  induction entries as [|borrow rest IH]; intros acc stats entries' H.
  - cbn in H. injection H as <- <-. now split.
  - cbn [KaminoObligation.borrowsLoop] in H. cbn [map].
    unfold reversedWhenUsed at 1.
    destruct (isNotNullPubkey (ObligationLiquidity.borrowReserve borrow)) eqn:Hu;
      cbn [negb] in H.
    + destruct (Market.getReserveByAddress market _) as [reserve|] eqn:Hr;
        [|discriminate].
      destruct (reversed_borrow borrow) as (R1 & R2 & R3). cbv zeta in R1, R2, R3.
      rewrite obligation_getCumulativeBorrowRate in H.
      set (borrow' :=
             ObligationLiquidity.set_cumulativeBorrowRateBsf
               (rev (ObligationLiquidity.cumulativeBorrowRateBsf borrow)) borrow)
        in *.
      destruct (match rates with Some _ => _ | None => _ end)
        as [cumulativeBorrowRate|] eqn:Hc; [|discriminate].
      match type of H with
      | (let (_, _) := ?call in _) = _ =>
          destruct call as [outcome rest'] eqn:Hrest
      end.
      injection H as -> <-.
      destruct (IH _ _ _ Hrest) as [IH1 IH2]. split; [now rewrite IH1|].
      cbn [KaminoObligation.borrowsLoop].
      rewrite R1, Hu. cbn [negb]. rewrite Hr, R3, Hc, <- R2.
      now rewrite IH2.
    + match type of H with
      | (let (_, _) := ?call in _) = _ =>
          destruct call as [outcome rest'] eqn:Hrest
      end.
      injection H as -> <-.
      destruct (IH _ _ _ Hrest) as [IH1 IH2]. split; [now rewrite IH1|].
      cbn [KaminoObligation.borrowsLoop]. rewrite Hu. cbn [negb].
      now rewrite IH2.
Qed.

(** A call of [calculateObligationBorrows] that returns leaves the limbs
    of every used borrow entry of the decoded obligation in reverse order;
    a second call on the obligation it leaves returns the same positions
    and totals, and puts the limbs back. *)
Theorem calculateObligationBorrows_twice
        (market : Market.t) (obligation obligation' : Obligation.t)
        (cumulativeBorrowRates : option (PubkeyHashMap Decimal))
        (getPx : KaminoReserve.t -> Decimal) (stats : BorrowStats.t) :
  KaminoObligation.calculateObligationBorrows
    market obligation cumulativeBorrowRates getPx = (Ok stats, obligation') ->
  Obligation.borrows obligation'
  = map reversedWhenUsed (Obligation.borrows obligation)
  /\ KaminoObligation.calculateObligationBorrows
       market obligation' cumulativeBorrowRates getPx = (Ok stats, obligation).
Proof.
  unfold KaminoObligation.calculateObligationBorrows.
  destruct obligation as [elevationGroup entries].
  cbn [Obligation.elevationGroup Obligation.borrows].
  destruct (KaminoObligation.borrowsLoop _ _ _ _ entries _)
    as [outcome entries'] eqn:H.
  intros [= -> <-]. cbn [Obligation.elevationGroup Obligation.borrows].
  destruct (borrowsLoop_twice _ _ _ _ _ _ _ _ H) as [H1 H2].
  split; [exact H1|]. now rewrite H2.
Qed.

(** ** Rates for an obligation *)

Lemma has_get {V : Type} (k : PublicKey) (m : PubkeyHashMap V) :
  PubkeyHashMap.has k m = true <-> exists v, PubkeyHashMap.get k m = Some v.
Proof.
  unfold PubkeyHashMap.has. destruct (PubkeyHashMap.get k m).
  - split; [intros _; eexists; reflexivity | reflexivity].
  - split; [discriminate | intros [v Hv]; discriminate].
Qed.

Lemma notNull_true (k : PublicKey) : isNotNullPubkey k = true <-> k <> 0%N.
Proof.
  unfold isNotNullPubkey, PublicKey_equals.
  destruct (N.eqb_spec k 0); cbn; intuition congruence.
Qed.

Lemma ratesLoop {B : Type} kaminoMarket (key : B -> PublicKey) rate message :
  reservesByAddress kaminoMarket ->
  forall items rates outcome rates',
    forEachM (ratesBody kaminoMarket key rate message) items rates
    = (outcome, rates') ->
    (forall k v, PubkeyHashMap.get k rates = Some v ->
                 PubkeyHashMap.get k rates' = Some v)
    /\ (forall k, PubkeyHashMap.has k rates' = true ->
                  PubkeyHashMap.has k rates = true
                  \/ (PubkeyHashMap.get k rates'
                      = option_map rate
                                   (Market.getReserveByAddress kaminoMarket k)
                      /\ In k (map key items)))
    /\ (outcome = Ok tt ->
        forall item, In item items -> isNotNullPubkey (key item) = true ->
                     PubkeyHashMap.has (key item) rates' = true).
Proof.
  intros Hm. induction items as [|item rest IH]; intros rates outcome rates' H.
  - cbn in H. injection H as <- <-. repeat split; try tauto.
    intros _ item [].
  - cbn [forEachM] in H. unfold ratesBody at 1 in H.
    destruct (isNotNullPubkey (key item)
              && negb (PubkeyHashMap.has (key item) rates)) eqn:C.
    + apply andb_true_iff in C. destruct C as [Hn Hh].
      apply negb_true_iff in Hh.
      destruct (Market.getReserveByAddress kaminoMarket (key item))
        as [reserve|] eqn:Hr.
      * rewrite (Hm _ _ Hr) in H.
        destruct (IH _ _ _ H) as (I1 & I2 & I3).
        assert (Hnone : PubkeyHashMap.get (key item) rates = None).
        { destruct (PubkeyHashMap.get (key item) rates) eqn:G; [|reflexivity].
          assert (PubkeyHashMap.has (key item) rates = true)
            by (apply has_get; eexists; exact G).
          congruence. }
        split; [|split].
        -- intros k v Hk. apply I1.
           rewrite PubkeyHashMapFacts.get_set_other; [exact Hk|].
           intros ->. congruence.
        -- intros k Hk. destruct (I2 k Hk) as [Hk1|[Hk1 Hk2]].
           ++ destruct (N.eq_dec k (key item)) as [->|Hne].
              ** right. split; [|now left].
                 rewrite Hr. cbn [option_map]. apply I1.
                 apply PubkeyHashMapFacts.get_set_same.
              ** left. apply has_get in Hk1. destruct Hk1 as [v Hv].
                 rewrite PubkeyHashMapFacts.get_set_other in Hv by exact Hne.
                 apply has_get. now exists v.
           ++ right. split; [exact Hk1 | now right].
        -- intros Ho i [<-|Hi] Hi0.
           ++ apply has_get. eexists. apply I1.
              apply PubkeyHashMapFacts.get_set_same.
           ++ now apply I3.
      * injection H as <- <-. repeat split; try tauto. discriminate.
    + destruct (IH _ _ _ H) as (I1 & I2 & I3).
      split; [exact I1|]. split.
      * intros k Hk. destruct (I2 k Hk) as [?|[? ?]]; [now left|].
        right. split; [assumption | now right].
      * intros Ho i [<-|Hi] Hi0; [|now apply I3].
        rewrite Hi0 in C. cbn [andb] in C. apply negb_false_iff in C.
        apply has_get in C. destruct C as [v Hv].
        apply has_get. exists v. now apply I1.
Qed.

Section RatesFacts.

Variable SLOTS_PER_YEAR : Z.
Variable calculateBorrowAPR : KaminoReserve.t -> Decimal.
Variable INITIAL_COLLATERAL_RATE : Decimal.

Let addRates :=
  KaminoObligation.addRatesForObligation
    SLOTS_PER_YEAR calculateBorrowAPR INITIAL_COLLATERAL_RATE.

(** [addRatesForObligation] never replaces a rate a map already holds,
    whether it returns or throws; and when it returns, the first map holds
    a rate for the reserve of every used deposit entry and the second one
    for the reserve of every used borrow entry. *)
Theorem addRatesForObligation_entries
        (kaminoMarket : Market.t) (obligation : Obligation.account)
        (collateralExchangeRates cumulativeBorrowRates : PubkeyHashMap Decimal)
        (slot : Z) :
  reservesByAddress kaminoMarket ->
  let call :=
    addRates kaminoMarket obligation
             collateralExchangeRates cumulativeBorrowRates slot in
  (forall reserve rate,
      (PubkeyHashMap.get reserve collateralExchangeRates = Some rate ->
       PubkeyHashMap.get reserve (fst (snd call)) = Some rate)
      /\ (PubkeyHashMap.get reserve cumulativeBorrowRates = Some rate ->
          PubkeyHashMap.get reserve (snd (snd call)) = Some rate))
  /\ (fst call = Ok tt ->
      (forall deposit,
          In deposit (Obligation.deposits obligation) ->
          isNotNullPubkey (ObligationCollateral.depositReserve deposit) = true ->
          PubkeyHashMap.has (ObligationCollateral.depositReserve deposit)
                            (fst (snd call)) = true)
      /\ (forall borrow,
             In borrow (Obligation.borrows obligation) ->
             isNotNullPubkey (ObligationLiquidity.borrowReserve borrow) = true ->
             PubkeyHashMap.has (ObligationLiquidity.borrowReserve borrow)
                               (snd (snd call)) = true)).
Proof.
  intros Hm call. subst call.
  unfold addRates, KaminoObligation.addRatesForObligation,
    KaminoObligation.addCollateralExchangeRatesForObligation,
    KaminoObligation.addCumulativeBorrowRatesForObligation.
  destruct (forEachM _ (Obligation.deposits obligation) collateralExchangeRates)
    as [outcome1 rates1] eqn:E1.
  destruct (ratesLoop kaminoMarket ObligationCollateral.depositReserve _ _
                      Hm _ _ _ _ E1) as (A1 & _ & A3).
  destruct outcome1 as [[]|message]; cbn [fst snd].
  - destruct (forEachM _ (Obligation.borrows obligation) cumulativeBorrowRates)
      as [outcome2 rates2] eqn:E2.
    destruct (ratesLoop kaminoMarket ObligationLiquidity.borrowReserve _ _
                        Hm _ _ _ _ E2) as (B1 & _ & B3).
    cbn [fst snd]. split.
    + intros reserve rate. split; [apply A1 | apply B1].
    + intros ->. split; [now apply A3 | now apply B3].
  - split; [|discriminate].
    intros reserve rate. split; [apply A1 | tauto].
Qed.

End RatesFacts.

Section LoadFacts.

Variable SLOTS_PER_YEAR : Z.
Variable calculateBorrowAPR : KaminoReserve.t -> Decimal.
Variable INITIAL_COLLATERAL_RATE : Decimal.

Let depositsBody := KaminoObligation.depositsBody INITIAL_COLLATERAL_RATE.

Lemma depositsLoop_returns market (obligation : Obligation.account) rates getPx :
  (Obligation.elevationGroup obligation = 0
   \/ element (Market.elevationGroups market)
              (Obligation.elevationGroup obligation - 1) <> None) ->
  forall entries acc,
    (forall deposit,
        In deposit entries ->
        isNotNullPubkey (ObligationCollateral.depositReserve deposit) = true ->
        exists reserve,
          Market.getReserveByAddress
            market (ObligationCollateral.depositReserve deposit) = Some reserve
          /\ PubkeyHashMap.has (KaminoReserve.address reserve) rates = true) ->
    exists acc',
      foldM (depositsBody market obligation (Some rates) getPx) entries acc
      = Ok acc'.
Proof.
  intros Hg. induction entries as [|deposit rest IH]; intros acc H.
  - eexists. reflexivity.
  - cbn [foldM]. unfold depositsBody at 1, KaminoObligation.depositsBody.
    destruct (isNotNullPubkey (ObligationCollateral.depositReserve deposit))
      eqn:Hu; cbn [negb].
    + destruct (H deposit (or_introl eq_refl) Hu) as (reserve & -> & Hh).
      apply has_get in Hh. destruct Hh as [rate Hrate].
      cbv zeta. rewrite Hrate.
      assert (Ht : exists thresholds,
                 (if negb (Obligation.elevationGroup obligation =? 0)
                  then
                    match element (Market.elevationGroups market)
                                  (Obligation.elevationGroup obligation - 1) with
                    | Some group =>
                        Ok ((Q2Qc (inject_Z (ElevationGroupFields.ltvPct group))
                             / Q2Qc (inject_Z 100))%Qc,
                            (Q2Qc (inject_Z
                                     (ElevationGroupFields.liquidationThresholdPct
                                        group))
                             / Q2Qc (inject_Z 100))%Qc)
                    | None => Throw (TypeError_undefined "ltvPct")
                    end
                  else Ok (KaminoReserve.stats_loanToValuePct reserve,
                           KaminoReserve.stats_liquidationThreshold reserve))
                 = Ok thresholds).
      { destruct Hg as [->|Hg]; [eexists; reflexivity|].
        destruct (negb _); [|eexists; reflexivity].
        destruct (element _ _); [eexists; reflexivity | contradiction]. }
      destruct Ht as [thresholds ->].
      cbn [Result_bind KaminoReserve.operand].
      apply IH. intros d Hd. apply H. now right.
    + cbn [Result_bind]. apply IH. intros d Hd. apply H. now right.
Qed.

Lemma borrowsLoop_returns market elevationGroup rates getPx :
  forall entries acc,
    (forall borrow,
        In borrow entries ->
        isNotNullPubkey (ObligationLiquidity.borrowReserve borrow) = true ->
        exists reserve,
          Market.getReserveByAddress
            market (ObligationLiquidity.borrowReserve borrow) = Some reserve
          /\ PubkeyHashMap.has (KaminoReserve.address reserve) rates = true) ->
    exists stats entries',
      KaminoObligation.borrowsLoop market elevationGroup (Some rates) getPx
                                   entries acc
      = (Ok stats, entries').
Proof.
  induction entries as [|borrow rest IH]; intros acc H.
  - eexists. eexists. reflexivity.
  - cbn [KaminoObligation.borrowsLoop].
    destruct (isNotNullPubkey (ObligationLiquidity.borrowReserve borrow))
      eqn:Hu; cbn [negb].
    + destruct (H borrow (or_introl eq_refl) Hu) as (reserve & -> & Hh).
      apply has_get in Hh. destruct Hh as [rate Hrate].
      rewrite obligation_getCumulativeBorrowRate, Hrate.
      cbn [KaminoReserve.operand].
      match goal with
      | |- context [KaminoObligation.borrowsLoop _ _ _ _ rest ?a] =>
          destruct (IH a) as (stats & rest' & ->);
          [intros b Hb; apply H; now right|]
      end.
      eexists. eexists. reflexivity.
    + destruct (IH acc) as (stats & rest' & ->);
        [intros b Hb; apply H; now right|].
      eexists. eexists. reflexivity.
Qed.

(** With the rates [getRatesForObligation] returns for it, an obligation
    is built without a throw, as long as its elevation group is none or
    one the market has; the decoded obligation is left with the limbs of
    its used borrow entries in reverse order. *)
Theorem new_with_rates_for_obligation
        (market : Market.t) (obligation : Obligation.account) (slot : Z)
        (rates : PubkeyHashMap Decimal * PubkeyHashMap Decimal) :
  reservesByAddress market ->
  (Obligation.elevationGroup obligation = 0
   \/ element (Market.elevationGroups market)
              (Obligation.elevationGroup obligation - 1) <> None) ->
  KaminoObligation.getRatesForObligation
    SLOTS_PER_YEAR calculateBorrowAPR INITIAL_COLLATERAL_RATE
    market obligation slot = Ok rates ->
  exists this obligation',
    KaminoObligation.new INITIAL_COLLATERAL_RATE market obligation
                         (fst rates) (snd rates)
    = (Ok this, obligation')
    /\ Obligation.borrows obligation'
       = map reversedWhenUsed (Obligation.borrows obligation).
Proof.
  intros Hm Hg H.
  unfold KaminoObligation.getRatesForObligation,
    KaminoObligation.getCollateralExchangeRatesForObligation,
    KaminoObligation.getCumulativeBorrowRatesForObligation in H.
  cbv zeta in H.
  destruct (forEachM
              (KaminoObligation.collateralExchangeRateBody
                 SLOTS_PER_YEAR calculateBorrowAPR INITIAL_COLLATERAL_RATE
                 market slot)
              (Obligation.deposits obligation) [])
    as [[[]|m1] c] eqn:E1; cbn [Result_bind] in H; [|discriminate].
  destruct (forEachM
              (KaminoObligation.cumulativeBorrowRateBody
                 SLOTS_PER_YEAR calculateBorrowAPR market slot)
              (Obligation.borrows obligation) [])
    as [[[]|m2] b] eqn:E2; cbn [Result_bind] in H; [|discriminate].
  injection H as <-. cbn [fst snd].
  destruct (ratesLoop market ObligationCollateral.depositReserve _ _
                      Hm _ _ _ _ E1) as (_ & A2 & A3).
  destruct (ratesLoop market ObligationLiquidity.borrowReserve _ _
                      Hm _ _ _ _ E2) as (_ & B2 & B3).
  assert (Fd : forall deposit,
             In deposit (Obligation.deposits obligation) ->
             isNotNullPubkey (ObligationCollateral.depositReserve deposit) = true ->
             exists reserve,
               Market.getReserveByAddress
                 market (ObligationCollateral.depositReserve deposit)
               = Some reserve
               /\ PubkeyHashMap.has (KaminoReserve.address reserve) c = true).
  { intros d Hd Hu. pose proof (A3 eq_refl d Hd Hu) as Hh.
    destruct (A2 _ Hh) as [Hnil|[Hv _]]; [discriminate|].
    apply has_get in Hh. destruct Hh as [v Hv']. rewrite Hv' in Hv.
    destruct (Market.getReserveByAddress market _) as [reserve|] eqn:Hr;
      [|discriminate].
    exists reserve. split; [reflexivity|]. rewrite (Hm _ _ Hr).
    apply has_get. now exists v. }
  assert (Fb : forall borrow,
             In borrow (Obligation.borrows obligation) ->
             isNotNullPubkey (ObligationLiquidity.borrowReserve borrow) = true ->
             exists reserve,
               Market.getReserveByAddress
                 market (ObligationLiquidity.borrowReserve borrow)
               = Some reserve
               /\ PubkeyHashMap.has (KaminoReserve.address reserve) b = true).
  { intros d Hd Hu. pose proof (B3 eq_refl d Hd Hu) as Hh.
    destruct (B2 _ Hh) as [Hnil|[Hv _]]; [discriminate|].
    apply has_get in Hh. destruct Hh as [v Hv']. rewrite Hv' in Hv.
    destruct (Market.getReserveByAddress market _) as [reserve|] eqn:Hr;
      [|discriminate].
    exists reserve. split; [reflexivity|]. rewrite (Hm _ _ Hr).
    apply has_get. now exists v. }
  unfold KaminoObligation.new, KaminoObligation.calculatePositions.
  destruct (getElevationGroups_outcome obligation market)
    as [(groups & -> & _)|(message & reserve & _ & Hin & Hnone)].
  - unfold KaminoObligation.calculateObligationDeposits. fold depositsBody.
    destruct (depositsLoop_returns
                market obligation c
                (fun reserve => KaminoReserve.getOracleMarketPrice reserve)
                Hg (Obligation.deposits obligation)
                {| DepositStats.deposits := [];
                   DepositStats.userTotalDeposit := Dec.ofZ 0;
                   DepositStats.userTotalCollateralDeposit := Dec.ofZ 0;
                   DepositStats.borrowLimit := Dec.ofZ 0;
                   DepositStats.liquidationLtv := Dec.ofZ 0;
                   DepositStats.borrowLiquidationLimit := Dec.ofZ 0 |} Fd)
      as [totals ->].
    cbn [Result_bind].
    unfold KaminoObligation.calculateObligationBorrows.
    destruct (borrowsLoop_returns
                market (Obligation.elevationGroup obligation) b
                (fun reserve => KaminoReserve.getOracleMarketPrice reserve)
                (Obligation.borrows obligation)
                {| BorrowStats.borrows := [];
                   BorrowStats.userTotalBorrow := Dec.ofZ 0;
                   BorrowStats.userTotalBorrowBorrowFactorAdjusted := Dec.ofZ 0;
                   BorrowStats.positions := 0 |} Fb)
      as (stats & entries' & Hloop).
    rewrite Hloop. eexists. eexists. split; [reflexivity|].
    cbn [Obligation.borrows Obligation.obligation].
    now destruct (borrowsLoop_twice _ _ _ _ _ _ _ _ Hloop).
  - exfalso. unfold referencedReserves in Hin.
    apply In_filter_notNull in Hin. destruct Hin as [Hin Hz].
    apply notNull_true in Hz. apply in_app_or in Hin.
    destruct Hin as [Hin|Hin]; apply in_map_iff in Hin;
      destruct Hin as (x & <- & Hx).
    + destruct (Fd x Hx Hz) as (r & Hr & _). congruence.
    + destruct (Fb x Hx Hz) as (r & Hr & _). congruence.
Qed.

End LoadFacts.

(** ** Bounds of the largest borrow of an obligation *)

Lemma qsizing_bounds a d f capActive m :
  (0 <= a)%Qc -> (0 <= f)%Qc -> (f <= 1)%Qc -> (m <= a)%Qc ->
  (0 <= qsizing a d f capActive m)%Qc /\ (qsizing a d f capActive m <= a)%Qc.
Proof.
  intros Ha Hf0 Hf1 Hm. unfold qsizing. destruct capActive; split; qorder.
Qed.

Section MaxBorrowBounds.

Variable SLOTS_PER_DAY : Z.

(** What [getMaxBorrowAmount] returns is either not a number (when the
    borrow power of the obligation is not one, the price of the token
    being zero for instance) or a finite amount between zero and the
    available liquidity of the reserve; the obligation is left as it
    is. *)
Theorem getMaxBorrowAmount_bounds
        (market : KaminoMarket) (tokenMint : PublicKey) (slot : Z)
        (this this' : KaminoObligation.t) (amount : Decimal) :
  KaminoObligation.getMaxBorrowAmount SLOTS_PER_DAY market tokenMint slot this
  = (Ok amount, this') ->
  this' = this
  /\ exists reserve,
      getReserveByMint market tokenMint = Some reserve
      /\ (amount = NaN
          \/ (Dec.isFinite amount = true
              /\ Dec.lte (Dec.ofZ 0) amount = true
              /\ Dec.lte amount (KaminoReserve.getLiquidityAvailableAmount reserve)
                 = true)).
Proof.
  destruct (getReserveByMint market tokenMint) as [reserve|] eqn:Hr.
  - rewrite (getMaxBorrowAmount_sizing SLOTS_PER_DAY _ _ _ _ _ Hr).
    intros [= <- <-]. split; [reflexivity|]. exists reserve.
    split; [reflexivity|].
    destruct (originationFeeShare_fin reserve) as (f & -> & Hf0 & Hf1).
    destruct (debtWithdrawalCapRemained_fin SLOTS_PER_DAY reserve slot) as [d ->].
    destruct (borrowCapRemained_fin this reserve) as [x ->].
    unfold KaminoReserve.getLiquidityAvailableAmount, Dec.ofN, Dec.ofZ.
    pose proof (ofN_nonneg
                  (availableAmount (liquidity (KaminoReserve.state reserve))))
      as Ha.
    set (a := Q2Qc (inject_Z (Z.of_N (availableAmount
                                        (liquidity (KaminoReserve.state reserve))))))
      in *.
    destruct (borrowPower this reserve _) as [p|[]|].
    + rewrite borrowSizing_fin. right. split; [reflexivity|].
      destruct (qsizing_bounds a d f
                  (Dec.gt (KaminoReserve.getDebtWithdrawalCapCapacity reserve)
                          (Fin (Q2Qc (inject_Z 0))))
                  (qmin (qmin p a) x) Ha Hf0 Hf1) as [H0 H1]; [qorder|].
      split; apply DecOrder.lte_fin; assumption.
    + rewrite borrowSizing_neg_inf by exact Hf0. now left.
    + rewrite borrowSizing_inf. right. split; [reflexivity|].
      destruct (qsizing_bounds a d f
                  (Dec.gt (KaminoReserve.getDebtWithdrawalCapCapacity reserve)
                          (Fin (Q2Qc (inject_Z 0))))
                  (qmin a x) Ha Hf0 Hf1) as [H0 H1]; [qorder|].
      split; apply DecOrder.lte_fin; assumption.
    + rewrite borrowSizing_nan. now left.
  - unfold KaminoObligation.getMaxBorrowAmount. rewrite Hr. discriminate.
Qed.

End MaxBorrowBounds.

(** ** The further properties at sample data *)

Lemma sample_reservesByAddress : reservesByAddress Sample.marketAccount.
Proof.
  intros address reserve H. cbn in H. unfold PublicKey_equals in H.
  destruct (N.eqb_spec address 10) as [->|_]; [now injection H as <-|].
  destruct (N.eqb_spec address 20) as [->|_]; [now injection H as <-|].
  discriminate.
Qed.

Lemma sample_limbs :
  Forall (fun v => (v < 2 ^ 64)%N)
         (cumulativeBorrowRateBsf (liquidity (KaminoReserve.state Sample.reserveB))).
Proof. repeat constructor. Qed.

Lemma calcSimulatedUtilizationRatio_withdraw_nothing_sample :
  KaminoReserve.calcSimulatedUtilizationRatio
    Sample.SLOTS_PER_YEAR Sample.borrowAPR Sample.reserveA
    (Dec.ofZ 0) "withdraw" 100 0 None
  = Ok (KaminoReserve.calculateUtilizationRatio Sample.reserveA).
Proof.
  refine (calcSimulatedUtilizationRatio_withdraw_nothing
            Sample.SLOTS_PER_YEAR Sample.borrowAPR Sample.reserveA 100 0 None _).
  vm_compute. discriminate.
Defined.

Lemma getCollateralExchangeRate_finite_sample :
  Dec.isFinite
    (KaminoReserve.getCollateralExchangeRate
       Sample.INITIAL_COLLATERAL_RATE Sample.accountA) = true.
Proof.
  exact (proj1 (getCollateralExchangeRate_finite
                  Sample.SLOTS_PER_YEAR Sample.borrowAPR
                  Sample.INITIAL_COLLATERAL_RATE Sample.accountA eq_refl)).
Defined.


Lemma getMaxBorrowAmountWithCollReserve_bounds_sample :
  exists amount,
    KaminoReserve.getMaxBorrowAmountWithCollReserve
      Sample.SLOTS_PER_DAY Sample.U64_MAX
      Sample.accountA Sample.groups Sample.reserveTwice 100 = Ok amount
    /\ Dec.same amount (Dec.ofZ 250) = true
    /\ Dec.isFinite amount = true
    /\ Dec.lte (Dec.ofZ 0) amount = true
    /\ Dec.lte amount (KaminoReserve.getLiquidityAvailableAmount Sample.accountA)
       = true.
Proof.
  eexists. split; [vm_compute; reflexivity|].
  split; [vm_compute; reflexivity|].
  apply (getMaxBorrowAmountWithCollReserve_bounds
           Sample.SLOTS_PER_DAY Sample.U64_MAX
           Sample.accountA Sample.groups Sample.reserveTwice 100).
  vm_compute. reflexivity.
Defined.

Lemma getMaxBorrowAmountWithCollReserve_limit_crossed_sample :
  exists amount,
    KaminoReserve.getMaxBorrowAmountWithCollReserve
      Sample.SLOTS_PER_DAY Sample.U64_MAX
      (Sample.accountOf (withBorrowLimit 50 Sample.reserveA))
      Sample.groups Sample.reserveTwice 100 = Ok amount
    /\ amount = Dec.ofZ 0.
Proof.
  eexists. split; [vm_compute; reflexivity|].
  apply (getMaxBorrowAmountWithCollReserve_limit_crossed
           Sample.SLOTS_PER_DAY Sample.U64_MAX
           (Sample.accountOf (withBorrowLimit 50 Sample.reserveA))
           Sample.groups Sample.reserveTwice 100);
    vm_compute; reflexivity.
Defined.

Lemma getMaxBorrowAmountWithCollReserve_no_common_group_sample :
  exists amount,
    KaminoReserve.getMaxBorrowAmountWithCollReserve
      Sample.SLOTS_PER_DAY Sample.U64_MAX
      Sample.accountB [] Sample.reserveA 100 = Ok amount.
Proof.
  apply (getMaxBorrowAmountWithCollReserve_no_common_group
           Sample.SLOTS_PER_DAY Sample.U64_MAX
           Sample.accountB [] Sample.reserveA 100).
  intros group _ H. cbn in H. intuition congruence.
Defined.

Lemma estimateObligationInterestRate_range_sample :
  let rate :=
    fst (KaminoObligation.estimateObligationInterestRate
           Sample.SLOTS_PER_YEAR Sample.borrowAPR
           Sample.reserveB Sample.borrowB 105) in
  rate = Dec.ofZ 0 \/ Dec.gt rate (Dec.ofZ 1) = true.
Proof.
  exact (proj1 (estimateObligationInterestRate_range
                  Sample.SLOTS_PER_YEAR Sample.borrowAPR ltac:(discriminate)
                  Sample.reserveB Sample.borrowB 105 (Q2Qc (3 # 100)) eq_refl)).
Defined.

Lemma estimateObligationInterestRate_zero_sample :
  fst (KaminoObligation.estimateObligationInterestRate
         Sample.SLOTS_PER_YEAR Sample.borrowAPR
         Sample.reserveB Sample.borrowB 105) = Dec.ofZ 0.
Proof.
  exact (proj2 (estimateObligationInterestRate_zero
                  Sample.SLOTS_PER_YEAR Sample.borrowAPR ltac:(discriminate)
                  Sample.reserveB Sample.borrowB 105 (Q2Qc (3 # 100)) eq_refl
                  sample_limbs)).
Defined.

Lemma simulated_leg_keeps_positions_sample :
  exists stats deposits position,
    KaminoObligation.calculateSimulatedDeposit
      Sample.stats (KaminoObligation.deposits Sample.obligation)
      (- Dec.ofZ 20)%dec 1%N Sample.reserves Sample.market Sample.obligation
    = (Ok (stats, deposits), Sample.obligation)
    /\ PubkeyHashMap.get (reserveAddress position) deposits = Some position
    /\ mintAddress position = 1%N
    /\ Dec.lt (amount position) (Dec.ofZ 0) = false.
Proof.
  assert (Hn : NoDup (map fst (KaminoObligation.deposits Sample.obligation))).
  { repeat constructor. intros []. }
  eexists. eexists.
  assert (E : KaminoObligation.calculateSimulatedDeposit
                Sample.stats (KaminoObligation.deposits Sample.obligation)
                (- Dec.ofZ 20)%dec 1%N Sample.reserves Sample.market
                Sample.obligation = (Ok (_, _), Sample.obligation))
    by (vm_compute; reflexivity).
  destruct (proj1 (simulated_leg_keeps_positions
                     Sample.obligation Sample.stats
                     (KaminoObligation.deposits Sample.obligation)
                     (- Dec.ofZ 20)%dec 1%N Sample.reserves Sample.market Hn)
                  _ _ E) as (position & H1 & H2 & H3 & _).
  exists position. split; [exact E|]. now repeat split.
Defined.

Lemma new_without_positions_sample :
  exists this,
    KaminoObligation.new Sample.INITIAL_COLLATERAL_RATE Sample.marketAccount
                         Sample.unusedAccount [] []
    = (Ok this, Sample.unusedAccount)
    /\ ObligationStats.loanToValue (KaminoObligation.refreshedStats this) = NaN
    /\ KaminoObligation.loanToValue this = Dec.ofZ 0.
Proof.
  destruct (new_without_positions
              Sample.INITIAL_COLLATERAL_RATE Sample.marketAccount
              Sample.unusedAccount [] [] eq_refl)
    as (this & H & _ & _ & (_ & _ & _ & _ & Hl & _) & Hm).
  exists this. now repeat split.
Defined.

Lemma calculateObligationDeposits_totals_sample :
  exists stats,
    KaminoObligation.calculateObligationDeposits
      Sample.INITIAL_COLLATERAL_RATE Sample.marketAccount
      Sample.obligationAccount (Some [(10%N, Dec.ofZ 2)])
      KaminoReserve.getOracleMarketPrice = Ok stats
    /\ map fst (DepositStats.deposits stats) = [10%N]
    /\ DepositStats.userTotalDeposit stats
       = sumOf (map marketValueRefreshed
                    (PubkeyHashMap.values (DepositStats.deposits stats))).
Proof.
  eexists. split; [vm_compute; reflexivity|].
  apply (calculateObligationDeposits_totals
           Sample.INITIAL_COLLATERAL_RATE Sample.marketAccount
           Sample.obligationAccount (Some [(10%N, Dec.ofZ 2)])
           KaminoReserve.getOracleMarketPrice).
  - exact sample_reservesByAddress.
  - repeat constructor. intros [].
  - vm_compute. reflexivity.
Defined.

Lemma calculateObligationBorrows_twice_sample :
  exists stats obligation',
    KaminoObligation.calculateObligationBorrows
      Sample.marketAccount Sample.obligationAccount (Some [(20%N, Dec.ofZ 1)])
      KaminoReserve.getOracleMarketPrice = (Ok stats, obligation')
    /\ map ObligationLiquidity.cumulativeBorrowRateBsf
           (Obligation.borrows obligation')
       = [[0; 0; 0; 2 ^ 60]; [0; 0; 0; 0]]%N
    /\ KaminoObligation.calculateObligationBorrows
         Sample.marketAccount obligation' (Some [(20%N, Dec.ofZ 1)])
         KaminoReserve.getOracleMarketPrice
       = (Ok stats, Obligation.obligation Sample.obligationAccount).
Proof.
  eexists. eexists. split; [vm_compute; reflexivity|].
  split; [reflexivity|].
  apply (calculateObligationBorrows_twice
           Sample.marketAccount Sample.obligationAccount).
  vm_compute. reflexivity.
Defined.

Lemma addRatesForObligation_entries_sample :
  let call :=
    KaminoObligation.addRatesForObligation
      Sample.SLOTS_PER_YEAR Sample.borrowAPR Sample.INITIAL_COLLATERAL_RATE
      Sample.marketAccount Sample.obligationAccount
      [(10%N, Dec.ofZ 3)] [] 105 in
  PubkeyHashMap.get 10%N (fst (snd call)) = Some (Dec.ofZ 3)
  /\ PubkeyHashMap.has 20%N (snd (snd call)) = true.
Proof.
  destruct (addRatesForObligation_entries
              Sample.SLOTS_PER_YEAR Sample.borrowAPR Sample.INITIAL_COLLATERAL_RATE
              Sample.marketAccount Sample.obligationAccount
              [(10%N, Dec.ofZ 3)] [] 105 sample_reservesByAddress) as [K C].
  split.
  - apply (proj1 (K 10%N (Dec.ofZ 3))). reflexivity.
  - apply (proj2 (C ltac:(vm_compute; reflexivity)) Sample.borrowB).
    + left. reflexivity.
    + reflexivity.
Defined.

Lemma new_with_rates_for_obligation_sample :
  exists rates this obligation',
    KaminoObligation.getRatesForObligation
      Sample.SLOTS_PER_YEAR Sample.borrowAPR Sample.INITIAL_COLLATERAL_RATE
      Sample.marketAccount Sample.obligationAccount 100 = Ok rates
    /\ KaminoObligation.new Sample.INITIAL_COLLATERAL_RATE Sample.marketAccount
                            Sample.obligationAccount (fst rates) (snd rates)
       = (Ok this, obligation').
Proof.
  eexists.
  assert (H : KaminoObligation.getRatesForObligation
                Sample.SLOTS_PER_YEAR Sample.borrowAPR
                Sample.INITIAL_COLLATERAL_RATE
                Sample.marketAccount Sample.obligationAccount 100 = Ok _)
    by (vm_compute; reflexivity).
  destruct (new_with_rates_for_obligation
              Sample.SLOTS_PER_YEAR Sample.borrowAPR Sample.INITIAL_COLLATERAL_RATE
              Sample.marketAccount Sample.obligationAccount 100 _
              sample_reservesByAddress (or_introl eq_refl) H)
    as (this & obligation' & Hnew & _).
  exists this, obligation'. split; [exact H | exact Hnew].
Defined.

Lemma getMaxBorrowAmount_bounds_sample :
  exists amount,
    KaminoObligation.getMaxBorrowAmount
      Sample.SLOTS_PER_DAY Sample.market 1 100 Sample.obligation
    = (Ok amount, Sample.obligation)
    /\ (amount = NaN
        \/ (Dec.isFinite amount = true
            /\ Dec.lte (Dec.ofZ 0) amount = true
            /\ Dec.lte amount
                       (KaminoReserve.getLiquidityAvailableAmount Sample.reserveA)
               = true)).
Proof.
  eexists. split; [vm_compute; reflexivity|].
  destruct (getMaxBorrowAmount_bounds
              Sample.SLOTS_PER_DAY Sample.market 1%N 100
              Sample.obligation Sample.obligation _
              ltac:(vm_compute; reflexivity)) as (_ & reserve & Hr & H).
  injection Hr as <-. exact H.
Defined.

(** * The reserve with rounding *)

(** ** Failures of an estimate, and the referral fee *)

Section RoundedUtilizationFacts.

Variable round : Qc -> Qc.
Variable js : Rounded.Numbers.
Variable SLOTS_PER_YEAR : Z.
Variable SLOTS_PER_SECOND : Z.
Variable Fraction_toDecimal : N -> Decimal.
Variable getBorrowRate :
  Rounded.number js -> list (Rounded.number js * Rounded.number js)
  -> Result (Rounded.number js).

Let borrowAPR :=
  Rounded.calculateBorrowAPR
    round js SLOTS_PER_SECOND Fraction_toDecimal getBorrowRate.
Let estimated :=
  Rounded.getEstimatedDebtAndSupply
    round js SLOTS_PER_YEAR SLOTS_PER_SECOND Fraction_toDecimal getBorrowRate.
Let simulated :=
  Rounded.calcSimulatedUtilizationRatio
    round js SLOTS_PER_YEAR SLOTS_PER_SECOND Fraction_toDecimal getBorrowRate.

Lemma getEstimatedDebtAndSupply_threw
      (r : Rounded.t js) (slot referralFeeBps : Z) :
  threw (estimated r slot referralFeeBps)
  <-> KaminoReserve.slotsElapsedSince r slot <> 0 /\ threw (borrowAPR r).
Proof.
  unfold estimated, borrowAPR, Rounded.getEstimatedDebtAndSupply, threw.
  destruct (KaminoReserve.slotsElapsedSince r slot =? 0) eqn:E.
  - apply Z.eqb_eq in E.
    split; [intros [m Hm]; discriminate | intros [H _]; contradiction].
  - apply Z.eqb_neq in E. unfold Rounded.compoundInterest.
    destruct (Rounded.calculateBorrowAPR _ _ _ _ _ r) as [rate|m];
      cbn [Result_bind].
    + split; [intros [m Hm]; discriminate | intros [_ [m Hm]]; discriminate].
    + split; [intros _; split; [exact E | eexists; reflexivity]
             |intros _; eexists; reflexivity].
Qed.

(** [calcSimulatedUtilizationRatio] throws exactly when a slot has
    elapsed and [calculateBorrowAPR] throws, for an action that is not
    one of its eight, and for one of the two combined actions called
    without the outflow amount. *)
Theorem calcSimulatedUtilizationRatio_throws
        (r : Rounded.t js) (amount : Decimal) (action : string)
        (slot referralFeeBps : Z) (outflowAmount : option Decimal) :
  threw (simulated r amount action slot referralFeeBps outflowAmount)
  <-> ((KaminoReserve.slotsElapsedSince r slot <> 0 /\ threw (borrowAPR r))
       \/ ~ In action utilizationActions
       \/ (In action combinedActions /\ outflowAmount = None)).
Proof.
  pose proof (getEstimatedDebtAndSupply_threw r slot referralFeeBps) as HE.
  unfold simulated, Rounded.calcSimulatedUtilizationRatio.
  unfold estimated in HE.
  destruct (Rounded.getEstimatedDebtAndSupply _ _ _ _ _ _ r slot referralFeeBps)
    as [estimate|m]; cbn [Result_bind].
  - assert (Hno : ~ (KaminoReserve.slotsElapsedSince r slot <> 0
                     /\ threw (borrowAPR r))).
    { intros H. apply HE in H. destruct H as [m Hm]. discriminate. }
    clear HE. unfold threw at 1.
    destruct (in_dec string_dec action utilizationActions) as [Hin|Hout].
    + cbn in Hin.
      repeat destruct Hin as [<-|Hin]; try contradiction;
        cbn [String.eqb Ascii.eqb Bool.eqb];
        try destruct outflowAmount as [outflow|];
        cbn [Result_bind KaminoReserve.operand];
        repeat match goal with
               | |- context [if ?c then _ else _] => destruct c
               end;
        try (split;
             [intros [m Hm]; discriminate
             |intros [H|[H|[H H']]];
              [contradiction
              |exfalso; apply H; cbn; tauto
              |first [discriminate H'
                     |cbn in H; repeat destruct H as [H|H];
                      try discriminate H; contradiction]]]);
        (split; [intros _; right; right; split; [cbn; tauto | reflexivity]
                |intros _; eexists; reflexivity]).
    + assert (E : forall s, In s utilizationActions ->
                            String.eqb action s = false).
      { intros s Hs. apply String.eqb_neq. intros ->. contradiction. }
      rewrite !E by (cbn; tauto).
      split; [intros _; right; now left | intros _; eexists; reflexivity].
  - split; [intros _; left; apply HE; eexists; reflexivity
           |intros _; eexists; reflexivity].
Qed.

(** The estimated debt of a reserve does not depend on the referral fee,
    and neither does a failure of the estimate: with another referral
    fee [getEstimatedDebtAndSupply] throws the same error, or returns the
    same total borrow. *)
Theorem getEstimatedDebtAndSupply_referral_fee
        (r : Rounded.t js) (slot referralFeeBps referralFeeBps' : Z) :
  (forall message,
      estimated r slot referralFeeBps = Throw message ->
      estimated r slot referralFeeBps' = Throw message)
  /\ (forall totalBorrow totalSupply,
         estimated r slot referralFeeBps = Ok (totalBorrow, totalSupply) ->
         exists totalSupply',
           estimated r slot referralFeeBps' = Ok (totalBorrow, totalSupply')).
Proof.
  unfold estimated, Rounded.getEstimatedDebtAndSupply.
  destruct (KaminoReserve.slotsElapsedSince r slot =? 0).
  - split; [discriminate|]. intros b s [= <- <-]. eexists. reflexivity.
  - unfold Rounded.compoundInterest.
    destruct (Rounded.calculateBorrowAPR _ _ _ _ _ r) as [rate|m];
      cbn [Result_bind KaminoReserve.newDebt].
    + split; [discriminate|]. intros b s [= <- _]. eexists. reflexivity.
    + split; [intros message [= <-]; reflexivity | discriminate].
Qed.

End RoundedUtilizationFacts.

(** ** The values that the tests expect *)

(** The two rounding modes on two thirds, on its opposite, and on a value
    that has fewer than 40 digits. *)
Lemma roundDown_sample :
  roundDown (Q2Qc (2 # 3))
  = Q2Qc (6666666666666666666666666666666666666666 # 10 ^ 40)
  /\ roundHalfUp (Q2Qc (2 # 3))
     = Q2Qc (6666666666666666666666666666666666666667 # 10 ^ 40)
  /\ roundDown (Q2Qc (- 2 # 3))
     = Q2Qc (- 6666666666666666666666666666666666666666 # 10 ^ 40)
  /\ roundHalfUp (Q2Qc (- 2 # 3))
     = Q2Qc (- 6666666666666666666666666666666666666667 # 10 ^ 40)
  /\ roundDown (Q2Qc (1 # 8)) = Q2Qc (1 # 8)
  /\ roundHalfUp (Q2Qc (1 # 8)) = Q2Qc (1 # 8).
Proof.
  repeat match goal with |- _ /\ _ => split end;
    apply Qc_is_canon; vm_compute; reflexivity.
Qed.

(** [reserve_calcs.test.ts] expects the total supply of its reserve to
    print as 1000000.000000000086736173798840352915036: the sum of the
    available amount and the borrowed amount [100000000 / MULTIPLIER],
    cut after 40 digits.  Rounded to the nearest, the sum would end
    in 7. *)
Lemma getTotalSupply_of_the_test_reserve :
  let reserve := Sample.testKaminoReserve 0 Sample.testCurve in
  valueOf (Rounded.getTotalSupply
             roundDown Sample.rationals
             (Sample.Fraction_toDecimal roundDown) reserve)
  = "1000000.000000000086736173798840352915036"%string
  /\ valueOf (Rounded.getTotalSupply
                roundHalfUp Sample.rationals
                (Sample.Fraction_toDecimal roundHalfUp) reserve)
     = "1000000.000000000086736173798840352915037"%string.
Proof.
  split; vm_compute; reflexivity.
Qed.

(** With numbers read as rationals and the borrow rate of the
    specification, the estimated total supply five slots later prints as
    the tests expect as well, without and with a fixed host interest
    rate of 10%. *)
Lemma getEstimatedTotalSupply_of_the_test_reserve :
  let estimate hostFixedInterestRateBps :=
    Rounded.getEstimatedTotalSupply
      roundDown Sample.rationals Sample.SLOTS_PER_YEAR Sample.SLOTS_PER_SECOND
      (Sample.Fraction_toDecimal roundDown) Sample.getBorrowRate
      (Sample.testKaminoReserve hostFixedInterestRateBps Sample.testCurve)
      5 0 in
  (exists supply,
      estimate 0 = Ok supply
      /\ valueOf supply
         = "1000000.000000000086736173799489749616243"%string)
  /\ (exists supply,
         estimate 1000 = Ok supply
         /\ valueOf supply
            = "1000000.000000000086736173799489749620361"%string).
Proof.
  split; eexists; (split; [vm_compute; reflexivity|]); vm_compute; reflexivity.
Qed.

(** ** The theorems on the rounded calculations at sample data *)

Lemma approximateCompoundedInterest_spec_sample :
  valueOf (Rounded.approximateCompoundedInterest
             roundDown Sample.SLOTS_PER_YEAR (Dec.ofQ (3 # 100)) 4)
  = "1.000000001902587520383314916021581336746"%string.
Proof.
  rewrite (proj1 (proj2 (proj2 (proj2 (proj2
             (approximateCompoundedInterest_spec
                roundDown Sample.SLOTS_PER_YEAR (Dec.ofQ (3 # 100)))))))).
  vm_compute. reflexivity.
Defined.

Lemma compoundInterest_spec_sample :
  let reserve := Sample.testKaminoReserve 1000 Sample.testCurve in
  exists ci,
    Rounded.compoundInterest
      roundDown Sample.rationals Sample.SLOTS_PER_YEAR Sample.SLOTS_PER_SECOND
      (Sample.Fraction_toDecimal roundDown) Sample.getBorrowRate
      reserve 5 0 = Ok ci
    /\ valueOf (KaminoReserve.newDebt ci)
       = "8.673617448720085837652259800084943279891e-11"%string
    /\ valueOf (KaminoReserve.fixedHostFee ci)
       = "6.8759650933757417089988999848866e-19"%string
    /\ (exists supply,
           Rounded.getEstimatedDebtAndSupply
             roundDown Sample.rationals
             Sample.SLOTS_PER_YEAR Sample.SLOTS_PER_SECOND
             (Sample.Fraction_toDecimal roundDown) Sample.getBorrowRate
             reserve 5 0 = Ok (KaminoReserve.newDebt ci, supply)
           /\ valueOf supply
              = "1000000.000000000086736173799489749620361"%string).
Proof.
  intros reserve.
  destruct (Rounded.calculateBorrowAPR
              roundDown Sample.rationals Sample.SLOTS_PER_SECOND
              (Sample.Fraction_toDecimal roundDown) Sample.getBorrowRate
              reserve) as [rate|message] eqn:Hrate;
    [|vm_compute in Hrate; discriminate].
  pose proof Hrate as Hvalue. vm_compute in Hvalue. injection Hvalue as <-.
  destruct (proj2 (compoundInterest_spec
                     roundDown Sample.rationals
                     Sample.SLOTS_PER_YEAR Sample.SLOTS_PER_SECOND
                     (Sample.Fraction_toDecimal roundDown) Sample.getBorrowRate
                     reserve 5 5 0) _ Hrate)
    as (ci & Hci & Hdebt & Hfee & Hnet & Hvar & Hmax & Hacc & Hpend & Hsupply).
  exists ci. split; [exact Hci|].
  split; [rewrite Hdebt; vm_compute; reflexivity|].
  split; [rewrite Hfee; vm_compute; reflexivity|].
  eexists. split; [apply Hsupply; [reflexivity | discriminate]|].
  rewrite Hacc, Hpend, Hmax, Hvar, Hnet, Hfee, Hdebt.
  vm_compute. reflexivity.
Defined.

(** ** The claims on the interest calculation, as they are stated *)

(** C1 fails as it is stated.  At a rate of 1% and 63072000 slots per
    year, with 40 digits and the digits after them dropped, the value at
    4 slots (the square of the rounded square) ends in 596; the product
    of four factors [u] ends in 595, the fourth power of [u] rounded
    once in 597, and the fourth power itself has more digits.  The value
    at 5 slots ends in 466; the value of the expansion rounded once ends
    in 468, and the value of the expansion itself has more digits. *)
Lemma approximateCompoundedInterest_rounds :
  let rate := Dec.ofQ (1 # 100) in
  let approx :=
    Rounded.approximateCompoundedInterest
      roundDown Sample.SLOTS_PER_YEAR rate in
  let base := Rounded.div roundDown rate (Dec.ofZ Sample.SLOTS_PER_YEAR) in
  let u := Rounded.add roundDown (Dec.ofZ 1) base in
  let times := Rounded.mul roundDown in
  valueOf u = "1.000000000158548959918822932521562658548"%string
  /\ valueOf (approx 4)
     = "1.000000000634195839826118366250236029596"%string
  /\ valueOf (times (times (times u u) u) u)
     = "1.000000000634195839826118366250236029595"%string
  /\ valueOf (Rounded.finalise roundDown (Dec.pow u 4))
     = "1.000000000634195839826118366250236029597"%string
  /\ approx 4 <> Dec.pow u 4
  /\ valueOf (approx 5)
     = "1.000000000792744799845492389561074177466"%string
  /\ valueOf (Rounded.finalise roundDown (taylorExpansion3 base 5))
     = "1.000000000792744799845492389561074177468"%string
  /\ approx 5 <> taylorExpansion3 base 5.
Proof.
  cbv zeta.
  repeat match goal with |- _ /\ _ => split end;
    first [apply same_neq; vm_compute; reflexivity
          |vm_compute; reflexivity].
Qed.

(** C2 fails as it is stated.  For the reserve of the tests with a fixed
    host interest rate of 10%, one slot after its last update, the fixed
    host fee that [compoundInterest] returns, whatever the borrow rate
    and the referral fee are, is the rounded product of the previous debt
    and the fixed multiplier less the previous debt, which has 32 digits;
    the product of the previous debt and the fixed multiplier less one has
    40 digits.  And there is a borrow rate with which [compoundInterest]
    returns. *)
Lemma compoundInterest_fixedHostFee_rounds :
  let toDecimal := Sample.Fraction_toDecimal roundDown in
  let state := Sample.testReserve 1000 Sample.testCurve in
  let previousDebt := toDecimal 100000000%N in
  let fixedMultiplier :=
    Rounded.approximateCompoundedInterest
      roundDown Sample.SLOTS_PER_YEAR
      (Rounded.div roundDown (Dec.ofZ 1000) (Dec.ofZ 10000)) 1 in
  (forall (js : Rounded.Numbers) (SLOTS_PER_SECOND : Z)
          (getBorrowRate :
             Rounded.number js
             -> list (Rounded.number js * Rounded.number js)
             -> Result (Rounded.number js))
          (recentSlotDurationMs : Rounded.number js)
          (referralFeeBps : Z) (ci : KaminoReserve.CompoundInterest),
      Rounded.compoundInterest
        roundDown js Sample.SLOTS_PER_YEAR SLOTS_PER_SECOND
        toDecimal getBorrowRate
        (Rounded.Build_t js state recentSlotDurationMs) 1 referralFeeBps
      = Ok ci ->
      valueOf (KaminoReserve.fixedHostFee ci)
      = "1.3751930143144398927422136797077e-19"%string)
  /\ valueOf (Rounded.mul roundDown previousDebt
                (Rounded.sub roundDown fixedMultiplier (Dec.ofZ 1)))
     = "1.375193014314439892742213679707778141251e-19"%string
  /\ (exists ci,
         Rounded.compoundInterest
           roundDown Sample.rationals
           Sample.SLOTS_PER_YEAR Sample.SLOTS_PER_SECOND
           toDecimal Sample.getBorrowRate
           (Sample.testKaminoReserve 1000 Sample.testCurve) 1 0
         = Ok ci).
Proof.
  cbv zeta. split; [|split].
  - intros js sps getBorrowRate duration bps ci H.
    unfold Rounded.compoundInterest in H.
    destruct (Rounded.calculateBorrowAPR _ _ _ _ _ _) as [rate|message];
      cbn [Result_bind] in H; [|discriminate].
    injection H as <-. cbn [KaminoReserve.fixedHostFee].
    vm_compute. reflexivity.
  - vm_compute. reflexivity.
  - eexists. vm_compute. reflexivity.
Qed.
